(** * geojson-places: the containment scan and its size-bounded LRU cache

    A shallow embedding of [src/cache.js] (class [LRUCache], [getCache]) and of
    the lookup path of [src/index-optimized.js] ([configure],
    [reverseGeolocation], [readJSONFile], [clearCache]).

    Conventions.
    - A JavaScript [Map] is an association list in insertion order: the head
      is the oldest key, the one [keys().next().value] yields.
    - Mutable module state ([cacheInstance], [config]) is passed explicitly.
    - Calls that matter for evaluation order (cache reads, cache writes, ring
      tests) are recorded in an event log returned next to the result.
    - [clone] (just-clone) is the identity on the immutable values used here. *)

From Stdlib Require Import List String Ascii ZArith Lia Bool Arith.
From Stdlib Require Import DecimalString DecimalZ.
Import ListNotations.

Set Implicit Arguments.

(* ===================================================================== *)
(** ** JavaScript [Map] with string keys, in insertion order *)
(* ===================================================================== *)

Module JsMap.
Section WithValue.
Variable V : Type.

Definition t := list (string * V).

Definition empty : t := [].

Fixpoint has (m : t) (k : string) : bool :=
  match m with
  | [] => false
  | (k', _) :: rest => if String.eqb k' k then true else has rest k
  end.

Fixpoint get (m : t) (k : string) : option V :=
  match m with
  | [] => None
  | (k', v) :: rest => if String.eqb k' k then Some v else get rest k
  end.

(** [Map.prototype.delete]: the entry of [k] leaves, the others keep their
    order. *)
Fixpoint delete (m : t) (k : string) : t :=
  match m with
  | [] => []
  | (k', v) :: rest =>
      if String.eqb k' k then rest else (k', v) :: delete rest k
  end.

(** [Map.prototype.set]: a present key keeps its position, a new key goes
    to the end. *)
Fixpoint set (m : t) (k : string) (v : V) : t :=
  match m with
  | [] => [(k, v)]
  | (k', v') :: rest =>
      if String.eqb k' k then (k, v) :: rest else (k', v') :: set rest k v
  end.

Definition keys (m : t) : list string := map fst m.

(** [m.keys().next().value]; [None] stands for [undefined]. *)
Definition first_key (m : t) : option string :=
  match m with
  | [] => None
  | (k, _) :: _ => Some k
  end.

Definition size (m : t) : nat := List.length m.

(** Keys of a [Map] are pairwise distinct. *)
Definition wf (m : t) : Prop := NoDup (keys m).

End WithValue.
End JsMap.

(* ===================================================================== *)
(** ** [class LRUCache] *)
(* ===================================================================== *)

Module LRU.
Section WithData.
Variable D : Type.
(** [JSON.stringify], taken as given. *)
Variable JSON_stringify : D -> string.

Record Entry := mkEntry { data : D; size : Z }.

Record LRUCache := mkCache {
  maxSize : Z;
  currentSize : Z;
  cache : JsMap.t Entry
}.

Local Open Scope Z_scope.

(** [constructor(maxSize = 50 * 1024 * 1024)] *)
Definition new (maxSize : option Z) : LRUCache :=
  {| maxSize := match maxSize with Some n => n | None => 50 * 1024 * 1024 end;
     currentSize := 0;
     cache := JsMap.empty Entry |}.

(** [get(key)]; [None] stands for the [null] returned on an absent key. *)
Definition get (c : LRUCache) (key : string) : option D * LRUCache :=
  if negb (JsMap.has (cache c) key) then (None, c)
  else
    match JsMap.get (cache c) key with
    | Some value =>
        (Some (data value),
         {| maxSize := maxSize c;
            currentSize := currentSize c;
            cache := JsMap.set (JsMap.delete (cache c) key) key value |})
    | None => (None, c)
    end.

Definition remove (c : LRUCache) (key : string) : LRUCache :=
  if JsMap.has (cache c) key then
    match JsMap.get (cache c) key with
    | Some entry =>
        {| maxSize := maxSize c;
           currentSize := currentSize c - size entry;
           cache := JsMap.delete (cache c) key |}
    | None => c
    end
  else c.

Definition clear (c : LRUCache) : LRUCache :=
  {| maxSize := maxSize c; currentSize := 0; cache := JsMap.empty Entry |}.

(** [_getSize(obj)]: two bytes per character of the serialization. *)
Definition _getSize (obj : D) : Z :=
  Z.of_nat (String.length (JSON_stringify obj)) * 2.

(** The guard of the eviction loop of [set]. *)
Definition must_evict (sz : Z) (c : LRUCache) : bool :=
  (currentSize c + sz >? maxSize c) && (0 <? JsMap.size (cache c))%nat.

(** The [while] loop of [set]; every round deletes one key, so
    [JsMap.size (cache c)] rounds are enough (see [evict_settles]). *)
Fixpoint evict (fuel : nat) (sz : Z) (c : LRUCache) : LRUCache :=
  match fuel with
  | O => c
  | S fuel' =>
      if must_evict sz c then
        match JsMap.first_key (cache c) with
        | Some firstKey => evict fuel' sz (remove c firstKey)
        | None => c
        end
      else c
  end.

Definition set (c : LRUCache) (key : string) (d : D) : LRUCache :=
  let c1 := if JsMap.has (cache c) key then remove c key else c in
  let sz := _getSize d in
  let c2 := evict (JsMap.size (cache c1)) sz c1 in
  {| maxSize := maxSize c2;
     currentSize := currentSize c2 + sz;
     cache := JsMap.set (cache c2) key {| data := d; size := sz |} |}.

(** Sum of the sizes recorded in the stored entries. *)
Definition total_size (m : JsMap.t Entry) : Z :=
  fold_right (fun kv acc => size (snd kv) + acc) 0 m.

End WithData.
End LRU.

(* ===================================================================== *)
(** ** The cache as a state machine, and [set] in the words of the spec *)
(* ===================================================================== *)

Module LRUSpec.
Section WithData.
Variable D : Type.
Variable JSON_stringify : D -> string.

Local Open Scope Z_scope.

Inductive Op :=
| OpGet (key : string)
| OpSet (key : string) (d : D)
| OpRemove (key : string)
| OpClear.

Definition step (c : LRU.LRUCache D) (op : Op) : LRU.LRUCache D :=
  match op with
  | OpGet key => snd (LRU.get c key)
  | OpSet key d => LRU.set JSON_stringify c key d
  | OpRemove key => LRU.remove c key
  | OpClear => LRU.clear c
  end.

Definition run (ops : list Op) (c : LRU.LRUCache D) : LRU.LRUCache D :=
  fold_left step ops c.

(** Eviction as the spec words it: while the running total plus the new
    size exceeds the capacity and an entry is left, drop the oldest entry
    and subtract its size. *)
Fixpoint evict_oldest (capacity new_size total : Z)
         (entries : JsMap.t (LRU.Entry D)) : Z * JsMap.t (LRU.Entry D) :=
  match entries with
  | [] => (total, [])
  | (k, e) :: younger =>
      if total + new_size >? capacity
      then evict_oldest capacity new_size (total - LRU.size e) younger
      else (total, entries)
  end.

Definition without (key : string) (entries : JsMap.t (LRU.Entry D)) :=
  filter (fun kv => negb (String.eqb (fst kv) key)) entries.

(** Step 1 of [set]: the total once the old entry of [key], if any, is
    gone. *)
Definition total_after_replace (c : LRU.LRUCache D) (key : string) : Z :=
  match JsMap.get (LRU.cache c) key with
  | Some old => LRU.currentSize c - LRU.size old
  | None => LRU.currentSize c
  end.

(** [set] as the spec words it, steps 1 to 4. *)
Definition set_spec (c : LRU.LRUCache D) (key : string) (d : D)
  : LRU.LRUCache D :=
  let new_size := LRU._getSize JSON_stringify d in
  let total1 := total_after_replace c key in
  let '(total2, kept) :=
    evict_oldest (LRU.maxSize c) new_size total1
                 (without key (LRU.cache c)) in
  {| LRU.maxSize := LRU.maxSize c;
     LRU.currentSize := total2 + new_size;
     LRU.cache := kept ++ [(key, {| LRU.data := d; LRU.size := new_size |})] |}.

(** The two parts of the size invariant of the spec. *)
Definition size_exact (c : LRU.LRUCache D) : Prop :=
  LRU.currentSize c = LRU.total_size (LRU.cache c).

Definition within_capacity (c : LRU.LRUCache D) : Prop :=
  LRU.currentSize c <= LRU.maxSize c \/
  exists k e, LRU.cache c = [(k, e)] /\ LRU.size e > LRU.maxSize c.

Definition sizes_nonneg (m : JsMap.t (LRU.Entry D)) : Prop :=
  Forall (fun kv => 0 <= LRU.size (snd kv)) m.

(** What every operation of the class maintains. *)
Definition invariant (c : LRU.LRUCache D) : Prop :=
  JsMap.wf (LRU.cache c) /\ sizes_nonneg (LRU.cache c) /\
  size_exact c /\ within_capacity c /\ 0 <= LRU.maxSize c.

End WithData.

Arguments OpGet {D} key.
Arguments OpSet {D} key d.
Arguments OpRemove {D} key.
Arguments OpClear {D}.

End LRUSpec.

(* ===================================================================== *)
(** ** Values that cross the lookup interface *)
(* ===================================================================== *)

(** [String.prototype.endsWith] *)
Definition endsWith (s suffix : string) : bool :=
  let n := String.length s in
  let k := String.length suffix in
  (k <=? n)%nat && String.eqb (substring (n - k) k s) suffix.

(** Whether the character [c] occurs in [s]. *)
Fixpoint occurs (c : ascii) (s : string) : bool :=
  match s with
  | EmptyString => false
  | String c' rest => Ascii.eqb c' c || occurs c rest
  end.

(** The [dataType] argument: the exported wrappers [lookUp], [lookUpRaw] and
    [lookUpGeoJSON] pass nothing (so [null]), ['raw'] and ['geojson']. *)
Inductive DataType := DtNull | DtRaw | DtGeojson.

Definition DataType_toString (d : DataType) : string :=
  match d with
  | DtNull => "null"
  | DtRaw => "raw"
  | DtGeojson => "geojson"
  end.

Module Geo.
Section WithNumber.
(** JavaScript numbers and their conversion to a string are taken as
    given. *)
Variable number : Type.
Variable numberToString : number -> string.

(** An argument whose conversion to a string succeeds.  [JObject s] is an
    object, array or function whose conversion to a string yields [s];
    symbols and objects whose conversion throws are added by
    [Entry.Argument]. *)
Inductive JsValue :=
| JUndefined
| JNull
| JBoolean (b : bool)
| JNumber (n : number)
| JString (s : string)
| JObject (s : string).

Definition typeof_number (v : JsValue) : bool :=
  match v with JNumber _ => true | _ => false end.

Definition ToString (v : JsValue) : string :=
  match v with
  | JUndefined => "undefined"
  | JNull => "null"
  | JBoolean true => "true"
  | JBoolean false => "false"
  | JNumber n => numberToString n
  | JString s => s
  | JObject s => s
  end.

(** A position [[lng, lat]]. *)
Definition Point : Type := number * number.
Definition Ring : Type := list Point.

(** The [coordinates] of a polygon: GeoJSON polygons have their exterior
    ring, so the array is kept as [coordinates[0]] paired with
    [coordinates[1..]]. *)
Definition PolygonCoords : Type := Ring * list Ring.

Definition coords_length (coords : PolygonCoords) : nat :=
  S (List.length (snd coords)).

Inductive Geometry :=
| Polygon (coordinates : PolygonCoords)
| MultiPolygon (coordinates : list PolygonCoords)
| OtherGeometry (type : string).

Record FeatureProperties := mkProps {
  cont_code : string;
  iso_a2 : string;
  adm0_a3 : string;
  region_code : string;
  iso_3166_2 : string
}.

Record Feature := mkFeature {
  geometry : Geometry;
  properties : FeatureProperties
}.

(** Parsed contents of a data file, taken as given. *)
Variable Json : Type.
Variable json_truthy : Json -> bool.

(** What [reverseGeolocation] and [readJSONFile] return and the cache
    stores.  A derived properties object is a JavaScript object, kept as
    its keys in assignment order. *)
Inductive Value :=
| VNull
| VError (message : string)
| VProperties (obj : JsMap.t string)
| VRawCollection (feature : Feature)
| VGeoCollection (props : JsMap.t string) (g : Geometry)
| VJson (j : Json).

Definition truthy (v : Value) : bool :=
  match v with
  | VNull => false
  | VJson j => json_truthy j
  | _ => true
  end.

Inductive Event :=
| CacheGet (key : string)
| CacheSet (key : string)
| RingTest (ring : Ring).

(* ------------------------------------------------------------------- *)
(** *** The scan of [reverseGeolocation] *)

(** [pointInPolygon] of [./utils], taken as given. *)
Variable pointInPolygon : Ring -> Point -> bool.

(** [for(let j = 1; j < coordinates.length; j++)], entered with [found]
    true: the first hole that holds the point clears [found] and breaks. *)
Fixpoint holes_loop (holes : list Ring) (point : Point)
  : bool * list Event :=
  match holes with
  | [] => (true, [])
  | hole :: rest =>
      if pointInPolygon hole point then (false, [RingTest hole])
      else
        let (found, log) := holes_loop rest point in
        (found, RingTest hole :: log)
  end.

(** The body shared by the [Polygon] branch and by each round of the
    [MultiPolygon] branch. *)
Definition polygon_test (coords : PolygonCoords) (point : Point)
  : bool * list Event :=
  let found := pointInPolygon (fst coords) point in
  if found && (1 <? coords_length coords)%nat then
    let (found', log) := holes_loop (snd coords) point in
    (found', RingTest (fst coords) :: log)
  else (found, [RingTest (fst coords)]).

(** [for(const coords of country.geometry.coordinates)]; [found] is the
    variable as it stands on entry. *)
Fixpoint multi_loop (polys : list PolygonCoords) (point : Point)
         (found : bool) : bool * list Event :=
  match polys with
  | [] => (found, [])
  | coords :: rest =>
      let (found', log) := polygon_test coords point in
      if found' then (true, log)
      else
        let (found'', log') := multi_loop rest point found' in
        (found'', log ++ log')
  end.

Definition geometry_test (g : Geometry) (point : Point) (found : bool)
  : bool * list Event :=
  match g with
  | Polygon coords => polygon_test coords point
  | MultiPolygon polys => multi_loop polys point found
  | OtherGeometry _ => (found, [])
  end.

(** [for(const country of countries)] with its counter [i]. *)
Fixpoint features_loop (countries : list Feature) (point : Point)
         (i : nat) (found : bool) : (nat * bool) * list Event :=
  match countries with
  | [] => ((i, found), [])
  | country :: rest =>
      let (found', log) := geometry_test (geometry country) point found in
      if found' then ((i, true), log)
      else
        let (r, log') := features_loop rest point (S i) found' in
        (r, log ++ log')
  end.

(* ------------------------------------------------------------------- *)
(** *** Building the result *)

Definition derive_properties (props : FeatureProperties) : JsMap.t string :=
  let properties := JsMap.empty string in
  let properties := JsMap.set properties "continent_code" (cont_code props) in
  let properties := JsMap.set properties "country_a2" (iso_a2 props) in
  let properties := JsMap.set properties "country_a3" (adm0_a3 props) in
  let properties := JsMap.set properties "region_code" (region_code props) in
  if negb (String.eqb (iso_3166_2 props) "")
     && negb (endsWith (iso_3166_2 props) "~")
  then JsMap.set properties "state_code" (iso_3166_2 props)
  else properties.

(** Lines 95 to 125.  [countries[i]] exists whenever [found] holds (see
    [ScanFacts.leading_misses_hit]); the [None] case is never reached. *)
Definition build_result (countries : list Feature) (i : nat) (found : bool)
           (dataType : DataType) : Value :=
  if found then
    match nth_error countries i with
    | Some country =>
        match dataType with
        | DtRaw => VRawCollection country
        | DtGeojson =>
            VGeoCollection (derive_properties (properties country))
                           (geometry country)
        | DtNull => VProperties (derive_properties (properties country))
        end
    | None => VNull
    end
  else VNull.

(* ------------------------------------------------------------------- *)
(** *** Module state: [cacheInstance] of cache.js and [config] *)

(** [config.cache] is [null] or the singleton [cacheInstance]. *)
Inductive CacheRef := RefNull | RefInstance.

Record Config := mkConfig {
  useOptimized : bool;
  cacheSize : Z;
  cache_ref : CacheRef
}.

Record World := mkWorld {
  cacheInstance : option (LRU.LRUCache Value);
  config : Config
}.

Definition initial : World :=
  {| cacheInstance := None;
     config := {| useOptimized := true;
                  cacheSize := 50 * 1024 * 1024;
                  cache_ref := RefNull |} |}.

(** The object [config.cache] points to, if any. *)
Definition config_cache (w : World) : option (LRU.LRUCache Value) :=
  match cache_ref (config w) with
  | RefNull => None
  | RefInstance => cacheInstance w
  end.

Definition with_instance (w : World) (c : LRU.LRUCache Value) : World :=
  {| cacheInstance := Some c; config := config w |}.

(** [getCache(maxSize)] *)
Definition getCache (w : World) (maxSize : option Z) : World * CacheRef :=
  match cacheInstance w with
  | None => (with_instance w (LRU.new Value maxSize), RefInstance)
  | Some _ => (w, RefInstance)
  end.

Record Options := mkOptions {
  opt_cacheSize : option Z;
  opt_useOptimized : option bool
}.

Definition configure (w : World) (options : Options) : World :=
  let w1 :=
    match opt_cacheSize options with
    | Some n =>
        let cfg := {| useOptimized := useOptimized (config w);
                      cacheSize := n;
                      cache_ref := cache_ref (config w) |} in
        let (w', ref) :=
          getCache {| cacheInstance := cacheInstance w; config := cfg |}
                   (Some (cacheSize cfg)) in
        {| cacheInstance := cacheInstance w';
           config := {| useOptimized := useOptimized (config w');
                        cacheSize := cacheSize (config w');
                        cache_ref := ref |} |}
    | None => w
    end in
  match opt_useOptimized options with
  | Some b =>
      {| cacheInstance := cacheInstance w1;
         config := {| useOptimized := b;
                      cacheSize := cacheSize (config w1);
                      cache_ref := cache_ref (config w1) |} |}
  | None => w1
  end.

Definition clearCache (w : World) : World :=
  match config_cache w with
  | Some c => with_instance w (LRU.clear c)
  | None => w
  end.

(* ------------------------------------------------------------------- *)
(** *** [reverseGeolocation] and [readJSONFile] *)

(** [admin1.features], fixed when the module is loaded. *)
Variable admin1_features : list Feature.

(** [JSON.stringify] on cached values, taken as given. *)
Variable JSON_stringify : Value -> string.

(** [`${lat}_${lng}_${dataType}`] *)
Definition cacheKey (lat lng : number) (dataType : DataType) : string :=
  (numberToString lat ++ "_" ++ numberToString lng ++ "_"
     ++ DataType_toString dataType)%string.

Definition wrong_coordinates (lat lng : JsValue) : string :=
  ("Wrong coordinates (lat: " ++ ToString lat ++ ",lng: " ++ ToString lng
     ++ ")")%string.

(** [if (config.cache) { const cached = config.cache.get(key);
    if (cached) return cached; }]: the value to return at once, if any,
    and the state the read leaves. *)
Definition cache_lookup (w : World) (key : string)
  : option Value * World * list Event :=
  match config_cache w with
  | Some c =>
      let (cached, c') := LRU.get c key in
      let hit :=
        match cached with
        | Some v => if truthy v then Some v else None
        | None => None
        end in
      (hit, with_instance w c', [CacheGet key])
  | None => (None, w, [])
  end.

(** Lines 60 to 125: the scan and the result built from it. *)
Definition scan_result (lat lng : number) (dataType : DataType)
  : Value * list Event :=
  let point := (lng, lat) in
  let '((i, found), log) := features_loop admin1_features point 0 false in
  (build_result admin1_features i found dataType, log).

Definition reverseGeolocation (w : World) (lat lng : JsValue)
           (dataType : DataType) : Value * World * list Event :=
  match lat, lng with
  | JNumber lat', JNumber lng' =>
      let key := cacheKey lat' lng' dataType in
      let '(hit, w1, log1) := cache_lookup w key in
      match hit with
      | Some cached => (cached, w1, log1)
      | None =>
          let (result, log2) := scan_result lat' lng' dataType in
          match config_cache w1 with
          | Some c =>
              if truthy result then
                (result,
                 with_instance w1 (LRU.set JSON_stringify c key result),
                 log1 ++ log2 ++ [CacheSet key])
              else (result, w1, log1 ++ log2)
          | None => (result, w1, log1 ++ log2)
          end
      end
  | _, _ => (VError (wrong_coordinates lat lng), w, [])
  end.

Definition lookUp (w : World) (lat lon : JsValue) :=
  reverseGeolocation w lat lon DtNull.
Definition lookUpRaw (w : World) (lat lon : JsValue) :=
  reverseGeolocation w lat lon DtRaw.
Definition lookUpGeoJSON (w : World) (lat lon : JsValue) :=
  reverseGeolocation w lat lon DtGeojson.

(** [JSON.parse(fs.readFileSync(path.join(dataPath, filePath)))], taken as
    given; [None] when the read or the parse throws. *)
Variable read_json : string -> option Json.

Definition readJSONFile (w : World) (filePath : string)
  : Value * World * list Event :=
  let '(hit, w1, log1) := cache_lookup w filePath in
  match hit with
  | Some cached => (cached, w1, log1)
  | None =>
      match read_json filePath with
      | Some parsed =>
          match config_cache w1 with
          | Some c =>
              (VJson parsed,
               with_instance w1 (LRU.set JSON_stringify c filePath (VJson parsed)),
               log1 ++ [CacheSet filePath])
          | None => (VJson parsed, w1, log1)
          end
      | None => (VNull, w1, log1)
      end
  end.

Definition simplified_suffix (simplified : bool) : string :=
  if simplified then "-simplified" else "".

Definition getContinentGeoJSONByCode (w : World) (continent_code : string)
           (simplified : bool) :=
  readJSONFile w ("/continents/" ++ continent_code
                    ++ simplified_suffix simplified ++ ".json")%string.

Definition getCountryGeoJSONByAlpha2 (w : World) (alpha2 : string) :=
  readJSONFile w ("/countries/" ++ alpha2 ++ ".json")%string.

Definition getCountryGroupingGeoJSONByCode (w : World)
           (grouping_code : string) (simplified : bool) :=
  readJSONFile w ("/country-groupings/" ++ grouping_code
                    ++ simplified_suffix simplified ++ ".json")%string.

Definition getRegionGeoJSONByCode (w : World) (region_code : string) :=
  readJSONFile w ("/regions/" ++ region_code ++ ".json")%string.

(* ------------------------------------------------------------------- *)
(** *** The exported operations that touch the cache, as a machine *)

Inductive Call :=
| CallConfigure (options : Options)
| CallLookUp (lat lon : JsValue)
| CallLookUpRaw (lat lon : JsValue)
| CallLookUpGeoJSON (lat lon : JsValue)
| CallContinentGeoJSON (continent_code : string) (simplified : bool)
| CallCountryGeoJSON (alpha2 : string)
| CallGroupingGeoJSON (grouping_code : string) (simplified : bool)
| CallRegionGeoJSON (region_code : string)
| CallClearCache.

Definition world_of (r : Value * World * list Event) : World := snd (fst r).
Definition value_of (r : Value * World * list Event) : Value := fst (fst r).
Definition log_of (r : Value * World * list Event) : list Event := snd r.

Definition call_step (w : World) (call : Call) : World :=
  match call with
  | CallConfigure options => configure w options
  | CallLookUp lat lon => world_of (lookUp w lat lon)
  | CallLookUpRaw lat lon => world_of (lookUpRaw w lat lon)
  | CallLookUpGeoJSON lat lon => world_of (lookUpGeoJSON w lat lon)
  | CallContinentGeoJSON code simplified =>
      world_of (getContinentGeoJSONByCode w code simplified)
  | CallCountryGeoJSON alpha2 => world_of (getCountryGeoJSONByAlpha2 w alpha2)
  | CallGroupingGeoJSON code simplified =>
      world_of (getCountryGroupingGeoJSONByCode w code simplified)
  | CallRegionGeoJSON code => world_of (getRegionGeoJSONByCode w code)
  | CallClearCache => clearCache w
  end.

Definition run_calls (calls : list Call) (w : World) : World :=
  fold_left call_step calls w.

(* ------------------------------------------------------------------- *)
(** *** The containment rule in the words of the spec *)

(** [Polygon]: in the outer ring and in no hole. *)
Definition containsPoint_polygon (coords : PolygonCoords) (point : Point)
  : bool :=
  pointInPolygon (fst coords) point
  && forallb (fun hole => negb (pointInPolygon hole point)) (snd coords).

Definition containsPoint (g : Geometry) (point : Point) : bool :=
  match g with
  | Polygon coords => containsPoint_polygon coords point
  | MultiPolygon polys =>
      existsb (fun coords => containsPoint_polygon coords point) polys
  | OtherGeometry _ => false
  end.

(** The elements of [l] up to and including the first that satisfies
    [p]. *)
Fixpoint through_first {A} (p : A -> bool) (l : list A) : list A :=
  match l with
  | [] => []
  | x :: rest => if p x then [x] else x :: through_first p rest
  end.

(** How many leading elements of [l] fail [p]: the index of the first
    that satisfies it, or the length of [l]. *)
Fixpoint leading_misses {A} (p : A -> bool) (l : list A) : nat :=
  match l with
  | [] => 0
  | x :: rest => if p x then 0 else S (leading_misses p rest)
  end.

(** Rings the spec lets a polygon test look at: the outer ring, and when
    the point is in it the holes through the first that holds the point. *)
Definition rings_examined (coords : PolygonCoords) (point : Point)
  : list Ring :=
  fst coords ::
    (if pointInPolygon (fst coords) point
     then through_first (fun hole => pointInPolygon hole point) (snd coords)
     else []).

Definition geometry_rings (g : Geometry) (point : Point) : list Ring :=
  match g with
  | Polygon coords => rings_examined coords point
  | MultiPolygon polys =>
      flat_map (fun coords => rings_examined coords point)
        (through_first (fun coords => containsPoint_polygon coords point)
                       polys)
  | OtherGeometry _ => []
  end.

(** A cached value is coherent with the index when, under the key of a
    lookup, it is the value the scan builds, and that value is truthy. *)
Definition entry_coherent (key : string) (v : Value) : Prop :=
  forall lat lng dataType,
    key = cacheKey lat lng dataType ->
    v = fst (scan_result lat lng dataType) /\ truthy v = true.

Definition entries_coherent (c : LRU.LRUCache Value) : Prop :=
  forall key e, In (key, e) (LRU.cache c) -> entry_coherent key (LRU.data e).

Definition coherent (w : World) : Prop :=
  forall c, cacheInstance w = Some c -> entries_coherent c.

End WithNumber.

Arguments JUndefined {number}.
Arguments JNull {number}.
Arguments JBoolean {number} b.
Arguments JNumber {number} n.
Arguments JString {number} s.
Arguments JObject {number} s.
Arguments Polygon {number} coordinates.
Arguments MultiPolygon {number} coordinates.
Arguments OtherGeometry {number} type.
Arguments VNull {number Json}.
Arguments VError {number Json} message.
Arguments VProperties {number Json} obj.
Arguments VRawCollection {number Json} feature.
Arguments VGeoCollection {number Json} props g.
Arguments VJson {number Json} j.
Arguments CacheGet {number} key.
Arguments CacheSet {number} key.
Arguments RingTest {number} ring.
Arguments CallConfigure {number} options.
Arguments CallLookUp {number} lat lon.
Arguments CallLookUpRaw {number} lat lon.
Arguments CallLookUpGeoJSON {number} lat lon.
Arguments CallContinentGeoJSON {number} continent_code simplified.
Arguments CallCountryGeoJSON {number} alpha2.
Arguments CallGroupingGeoJSON {number} grouping_code simplified.
Arguments CallRegionGeoJSON {number} region_code.
Arguments CallClearCache {number}.

End Geo.

(* ===================================================================== *)
(** ** A concrete instance: integer coordinates, a small index *)
(* ===================================================================== *)

Module Sample.
Local Open Scope Z_scope.

Definition numberToString (n : Z) : string :=
  NilEmpty.string_of_int (Z.to_int n).

(** Modelled from the spec: [pointInPolygon] of [./utils] is not among the
    sources, and the theorems below take it as a parameter; this instance
    serves the concrete examples.  Section 4.1: a horizontal ray toward increasing x; an edge
    counts when the point's y lies between its two y-extents under the
    half-open rule and the crossing is to the right of the point; inside
    iff the count is odd.  The comparison with the crossing abscissa is
    cleared of its division. *)
Definition crosses (point p_i p_j : Z * Z) : bool :=
  let '(x, y) := point in
  let '(xi, yi) := p_i in
  let '(xj, yj) := p_j in
  negb (Bool.eqb (yi >? y) (yj >? y))
  && (if 0 <? yj - yi
      then (x - xi) * (yj - yi) <? (xj - xi) * (y - yi)
      else (x - xi) * (yj - yi) >? (xj - xi) * (y - yi)).

(** Modelled from the spec: the ring is implicitly closed, so each vertex
    is paired with the one before it, the first with the last. *)
Definition ring_edges (ring : list (Z * Z)) : list ((Z * Z) * (Z * Z)) :=
  combine ring (last ring (0, 0) :: removelast ring).

(** Modelled from the spec: [pointInRing(ring, point)] of section 4.1, the
    parity of the number of edges the ray crosses. *)
Definition pointInRing (ring : list (Z * Z)) (point : Z * Z) : bool :=
  Nat.odd (List.length
             (filter (fun e => crosses point (fst e) (snd e))
                     (ring_edges ring))).

Definition square (lo hi : Z) : list (Z * Z) :=
  [(lo, lo); (hi, lo); (hi, hi); (lo, hi)].

Definition feature_AA : Geo.Feature Z :=
  {| Geo.geometry := Geo.Polygon (square 0 10, [square 4 6]);
     Geo.properties := Geo.mkProps "EU" "AA" "AAA" "AA-N" "AA-01" |}.

Definition feature_BB : Geo.Feature Z :=
  {| Geo.geometry := Geo.Polygon (square 3 13, []);
     Geo.properties := Geo.mkProps "EU" "BB" "BBB" "BB-S" "BB-X~" |}.

Definition feature_CC : Geo.Feature Z :=
  {| Geo.geometry :=
       Geo.MultiPolygon [(square 20 22, []); (square 0 10, [])];
     Geo.properties := Geo.mkProps "AS" "CC" "CCC" "CC-W" "" |}.

Definition features : list (Geo.Feature Z) :=
  [feature_AA; feature_BB; feature_CC].

(** File contents are kept as their text. *)
Definition Json : Type := string.
Definition json_truthy (j : Json) : bool := true.
Definition read_json (path : string) : option Json :=
  if String.eqb path "/countries/AA.json" then Some "{}"%string else None.

Definition Value : Type := Geo.Value Z Json.
Definition World : Type := Geo.World Z Json.

Definition stringify_props (obj : JsMap.t string) : string :=
  fold_right (fun kv acc => (fst kv ++ ":" ++ snd kv ++ "," ++ acc)%string)
             ""%string obj.

Definition JSON_stringify (v : Value) : string :=
  match v with
  | Geo.VNull => "null"
  | Geo.VError m => m
  | Geo.VProperties obj => stringify_props obj
  | Geo.VRawCollection f =>
      stringify_props (Geo.derive_properties (Geo.properties f))
  | Geo.VGeoCollection props _ => stringify_props props
  | Geo.VJson j => j
  end.

Definition configured (size : Z) : World :=
  Geo.configure (Geo.initial Z Json)
                {| Geo.opt_cacheSize := Some size;
                   Geo.opt_useOptimized := None |}.

(** A cache of strings whose serialization is the string itself. *)
Definition text (s : string) : string := s.

Definition text_cache (maxSize : Z) (entries : list (string * string))
  : LRU.LRUCache string :=
  fold_left (fun c kv => LRU.set text c (fst kv) (snd kv)) entries
            (LRU.new string (Some maxSize)).

(** Two entries of four bytes each in a cache of ten. *)
Definition cache_ab : LRU.LRUCache string :=
  text_cache 10 [("a", "xx"); ("b", "yy")]%string.

Definition ops_abc : list (LRUSpec.Op string) :=
  [LRUSpec.OpSet "a" "xx"; LRUSpec.OpSet "b" "yy"; LRUSpec.OpGet "a";
   LRUSpec.OpSet "c" "zzzzzz"; LRUSpec.OpRemove "c";
   LRUSpec.OpClear]%string.

(** A configured cache that two lookups have filled. *)
Definition calls_warm : list (Geo.Call Z) :=
  [Geo.CallConfigure {| Geo.opt_cacheSize := Some 1000;
                        Geo.opt_useOptimized := None |};
   Geo.CallLookUp (Geo.JNumber 8) (Geo.JNumber 8);
   Geo.CallLookUpRaw (Geo.JNumber 5) (Geo.JNumber 5);
   Geo.CallCountryGeoJSON "AA"].

(** The same index with so small a cache that every entry evicts the
    previous one. *)
Definition calls_tight : list (Geo.Call Z) :=
  [Geo.CallConfigure {| Geo.opt_cacheSize := Some 100;
                        Geo.opt_useOptimized := None |};
   Geo.CallLookUp (Geo.JNumber 5) (Geo.JNumber 5);
   Geo.CallLookUp (Geo.JNumber 8) (Geo.JNumber 8)].

End Sample.


(* ===================================================================== *)
(** ** More of cache.js and index-optimized.js: statistics, the lookup
       tables, the state accessors *)
(* ===================================================================== *)

Module Api.

(** [Array.prototype.includes] on strings. *)
Definition includes (l : list string) (x : string) : bool :=
  existsb (fun y => String.eqb y x) l.

Section Statistics.
Variable D : Type.
(** [(currentSize / maxSize * 100).toFixed(2)]: the floating-point
    quotient and its formatting are taken as given. *)
Variable percent : Z -> Z -> string.

Record CacheStats := mkStats {
  entries : nat;
  currentSize : Z;
  maxSize : Z;
  utilization : string
}.

(** [LRUCache.prototype.getStats] *)
Definition getStats (c : LRU.LRUCache D) : CacheStats :=
  {| entries := JsMap.size (LRU.cache c);
     currentSize := LRU.currentSize c;
     maxSize := LRU.maxSize c;
     utilization := (percent (LRU.currentSize c) (LRU.maxSize c) ++ "%")%string |}.
End Statistics.

Section WithNumber.
Variable number : Type.
Variable Json : Type.
Variable percent : Z -> Z -> string.

(** [getCacheStats]; [None] stands for [null]. *)
Definition getCacheStats (w : Geo.World number Json)
  : option CacheStats :=
  match Geo.config_cache w with
  | Some c => Some (getStats percent c)
  | None => None
  end.

(** The [cacheSize] of the first [configure] call of a history that passes
    one. *)
Fixpoint first_cacheSize (calls : list (Geo.Call number)) : option Z :=
  match calls with
  | [] => None
  | Geo.CallConfigure options :: rest =>
      match Geo.opt_cacheSize options with
      | Some n => Some n
      | None => first_cacheSize rest
      end
  | _ :: rest => first_cacheSize rest
  end.

(** What [getStateGeoJSONByCode] returns: the clone of the feature with its
    [properties] replaced by a fresh object. *)
Record StateFeature := mkStateFeature {
  sf_geometry : Geo.Geometry number;
  sf_properties : JsMap.t string
}.

(** [getStateGeoJSONByCode]; [None] stands for [null]. *)
Definition getStateGeoJSONByCode (features : list (Geo.Feature number))
           (state_code : string) : option StateFeature :=
  match find (fun f => String.eqb (Geo.iso_3166_2 (Geo.properties f))
                                  state_code) features with
  | Some state =>
      Some {| sf_geometry := Geo.geometry state;
              sf_properties :=
                [("country_a2", Geo.iso_a2 (Geo.properties state));
                 ("region_code", Geo.region_code (Geo.properties state));
                 ("state_code", state_code)]%string |}
  | None => None
  end.
End WithNumber.

(* --------------------------------------------------------------------- *)
(** *** The tables [countries], [continents], [regions] *)

Record Country := mkCountry {
  country_a2 : string;
  country_a3 : string;
  country_name : string
}.

(** [countries] is absent from some continents, hence the option. *)
Record Continent := mkContinent {
  continent_code : string;
  continent_name : string;
  continent_countries : option (list string)
}.

Record State := mkState {
  state_code : string;
  state_name : string
}.

Record Region := mkRegion {
  region_code : string;
  region_country_a2 : string;
  states : option (list State)
}.

Section Tables.
Variable countries : list Country.
Variable continents : list Continent.
Variable regions : list Region.

(** [None] stands for [null] in the two converters. *)
Definition countryAlpha2ToAlpha3 (alpha2 : string) : option string :=
  match find (fun item => String.eqb (country_a2 item) alpha2) countries with
  | Some country => Some (country_a3 country)
  | None => None
  end.

Definition countryAlpha3ToAlpha2 (alpha3 : string) : option string :=
  match find (fun item => String.eqb (country_a3 item) alpha3) countries with
  | Some country => Some (country_a2 country)
  | None => None
  end.

Definition isValidCountryAlpha2 (a2 : string) : bool :=
  match find (fun item => String.eqb (country_a2 item) a2) countries with
  | Some _ => true
  | None => false
  end.

Definition isValidCountryAlpha3 (a3 : string) : bool :=
  match find (fun item => String.eqb (country_a3 item) a3) countries with
  | Some _ => true
  | None => false
  end.

Definition isValidContinentCode (code : string) : bool :=
  match find (fun item => String.eqb (continent_code item) code) continents with
  | Some _ => true
  | None => false
  end.

Definition isValidRegionCode (code : string) : bool :=
  match find (fun item => String.eqb (region_code item) code) regions with
  | Some _ => true
  | None => false
  end.

(** The loop shared by [getStateByCode] and [isValidStateCode]: [found] is
    the variable as it stands on entry; a region without [states] leaves it
    alone. *)
Fixpoint state_loop (rs : list Region) (code : string) (found : option State)
  : option State :=
  match rs with
  | [] => found
  | region :: rest =>
      match states region with
      | Some sts =>
          let found' := find (fun item => String.eqb (state_code item) code)
                             sts in
          match found' with
          | Some _ => found'
          | None => state_loop rest code found'
          end
      | None => state_loop rest code found
      end
  end.

Definition isValidStateCode (code : string) : bool :=
  match state_loop regions code None with
  | Some _ => true
  | None => false
  end.

(** [translateName] of [./utils], taken as given: the state it leaves for
    a locale and a field name. *)
Variable Locale : Type.
Variable translateName : State -> Locale -> string -> State.

(** [getStateByCode]; [None] stands for [undefined]. *)
Definition getStateByCode (code : string) (locale : Locale) : option State :=
  match state_loop regions code None with
  | Some found => Some (translateName found locale "state_name")
  | None => None
  end.
End Tables.

Section Alpha3File.
Variable number : Type.
Variable Json : Type.
Variable json_truthy : Json -> bool.
Variable JSON_stringify : Geo.Value number Json -> string.
Variable read_json : string -> option Json.
Variable countries : list Country.

(** [getCountryGeoJSONByAlpha3]: an unknown code leaves [alpha2] [null],
    which the path template prints as such. *)
Definition getCountryGeoJSONByAlpha3 (w : Geo.World number Json)
           (alpha3 : string) :=
  let alpha2 := countryAlpha3ToAlpha2 countries alpha3 in
  Geo.getCountryGeoJSONByAlpha2 json_truthy JSON_stringify read_json w
    (match alpha2 with Some a => a | None => "null"%string end).
End Alpha3File.

End Api.

(* ===================================================================== *)
(** ** The dataset optimizer (scripts: target countries US, CA, MX, IN, AU) *)
(* ===================================================================== *)

Module Optimizer.

Definition TARGET_COUNTRIES : list string :=
  ["US"; "CA"; "MX"; "IN"; "AU"]%string.
Definition TARGET_COUNTRIES_A3 : list string :=
  ["USA"; "CAN"; "MEX"; "IND"; "AUS"]%string.

Section WithNumber.
Variable number : Type.

Definition is_target (feature : Geo.Feature number) : bool :=
  Api.includes TARGET_COUNTRIES (Geo.iso_a2 (Geo.properties feature))
  || Api.includes TARGET_COUNTRIES_A3 (Geo.adm0_a3 (Geo.properties feature)).

(** [optimizedAdmin1.features] *)
Definition optimizedAdmin1 (features : list (Geo.Feature number))
  : list (Geo.Feature number) :=
  filter is_target features.
End WithNumber.

Definition optimizedCountries (countries : list Api.Country)
  : list Api.Country :=
  filter (fun country => Api.includes TARGET_COUNTRIES (Api.country_a2 country))
         countries.

(** A JavaScript [Set] of strings, in insertion order. *)
Definition set_add (s : list string) (x : string) : list string :=
  if Api.includes s x then s else s ++ [x].

Definition lists_country (a2 : string) (c : Api.Continent) : bool :=
  match Api.continent_countries c with
  | Some cs => Api.includes cs a2
  | None => false
  end.

(** The [forEach] that fills [neededContinents]. *)
Definition neededContinents (continents : list Api.Continent)
           (kept : list Api.Country) : list string :=
  fold_left
    (fun needed country =>
       match find (lists_country (Api.country_a2 country)) continents with
       | Some continent => set_add needed (Api.continent_code continent)
       | None => needed
       end)
    kept [].

Definition optimizedContinents (continents : list Api.Continent)
           (countries : list Api.Country) : list Api.Continent :=
  let needed := neededContinents continents (optimizedCountries countries) in
  filter (fun continent => Api.includes needed (Api.continent_code continent))
         continents.

Definition optimizedRegions (regions : list Api.Region) : list Api.Region :=
  filter (fun region =>
            Api.includes TARGET_COUNTRIES (Api.region_country_a2 region))
         regions.

End Optimizer.

(* ===================================================================== *)
(** ** Sample tables and a sample index with a target country *)
(* ===================================================================== *)

Module SampleTables.
Local Open Scope Z_scope.

Definition countries : list Api.Country :=
  [Api.mkCountry "FR" "FRA" "France";
   Api.mkCountry "US" "USA" "United States";
   Api.mkCountry "CA" "CAN" "Canada"].

Definition continents : list Api.Continent :=
  [Api.mkContinent "AN" "Antarctica" None;
   Api.mkContinent "EU" "Europe" (Some ["FR"]%string);
   Api.mkContinent "NA" "North America" (Some ["US"; "CA"]%string)].

Definition regions : list Api.Region :=
  [Api.mkRegion "FR-X" "FR" None;
   Api.mkRegion "US-MW" "US"
     (Some [Api.mkState "US-KS" "Kansas"; Api.mkState "US-NE" "Nebraska"]);
   Api.mkRegion "CA-W" "CA" (Some [Api.mkState "CA-BC" "British Columbia"])].

Definition translateName (s : Api.State) (locale : string) (field : string)
  : Api.State :=
  Api.mkState (Api.state_code s) (locale ++ ":" ++ Api.state_name s).

Definition feature_FR : Geo.Feature Z :=
  {| Geo.geometry := Geo.Polygon (Sample.square 0 10, []);
     Geo.properties := Geo.mkProps "EU" "FR" "FRA" "FR-X" "FR-01" |}.

Definition feature_KS : Geo.Feature Z :=
  {| Geo.geometry := Geo.Polygon (Sample.square 3 13, []);
     Geo.properties := Geo.mkProps "NA" "US" "USA" "US-MW" "US-KS" |}.

Definition features : list (Geo.Feature Z) := [feature_FR; feature_KS].

Definition percent (a b : Z) : string :=
  Sample.numberToString (a * 100 / b).

(** A file system in which every file has gone. *)
Definition read_nothing (path : string) : option Sample.Json := None.

End SampleTables.

(* ===================================================================== *)
(** ** The lookup on every argument a caller may pass *)
(* ===================================================================== *)

Module Entry.
Section WithNumber.
Variable number : Type.
Variable numberToString : number -> string.
Variable Json : Type.
Variable json_truthy : Json -> bool.
Variable pointInPolygon : Geo.Ring number -> Geo.Point number -> bool.
Variable admin1_features : list (Geo.Feature number).
Variable JSON_stringify : Geo.Value number Json -> string.

(** An argument of any kind: a value whose conversion to a string
    succeeds, a symbol, or an object whose conversion to a primitive throws
    (a [toString] that throws, an object without prototype). *)
Inductive Argument :=
| Convertible (v : Geo.JsValue number)
| SymbolValue
| FailingObject.

Definition typeof_number (a : Argument) : bool :=
  match a with
  | Convertible v => Geo.typeof_number v
  | SymbolValue => false
  | FailingObject => false
  end.

(** The conversion that [+] applies next to a string; [None] when it
    throws. *)
Definition ToString (a : Argument) : option string :=
  match a with
  | Convertible v => Some (Geo.ToString numberToString v)
  | SymbolValue => None
  | FailingObject => None
  end.

(** A call returns or throws. *)
Inductive Outcome :=
| Returned (r : Geo.Value number Json * Geo.World number Json
                * list (Geo.Event number))
| Thrown.

(** [reverseGeolocation] from its first line.  Past the guard of line 47
    both arguments are numbers and the rest is [Geo.reverseGeolocation];
    under the guard, line 48 converts [lat], then [lng], to build the
    message, and either conversion may throw before the [Error] exists. *)
Definition reverseGeolocation (w : Geo.World number Json)
           (lat lng : Argument) (dataType : DataType) : Outcome :=
  match lat, lng with
  | Convertible (Geo.JNumber lat'), Convertible (Geo.JNumber lng') =>
      Returned (Geo.reverseGeolocation numberToString json_truthy
                  pointInPolygon admin1_features JSON_stringify w
                  (Geo.JNumber lat') (Geo.JNumber lng') dataType)
  | _, _ =>
      match ToString lat with
      | None => Thrown
      | Some lat_text =>
          match ToString lng with
          | None => Thrown
          | Some lng_text =>
              Returned
                (Geo.VError ("Wrong coordinates (lat: " ++ lat_text
                               ++ ",lng: " ++ lng_text ++ ")")%string,
                 w, [])
          end
      end
  end.

Definition lookUp (w : Geo.World number Json) (lat lon : Argument) :=
  reverseGeolocation w lat lon DtNull.
Definition lookUpRaw (w : Geo.World number Json) (lat lon : Argument) :=
  reverseGeolocation w lat lon DtRaw.
Definition lookUpGeoJSON (w : Geo.World number Json) (lat lon : Argument) :=
  reverseGeolocation w lat lon DtGeojson.

End WithNumber.

Arguments Convertible {number} v.
Arguments SymbolValue {number}.
Arguments FailingObject {number}.
Arguments Returned {number Json} r.
Arguments Thrown {number Json}.

End Entry.

Unset Implicit Arguments.

(* ===================================================================== *)
(** ** Facts about [JsMap] *)
(* ===================================================================== *)

Module JsMapFacts.
Section WithValue.
Context {V : Type}.
Implicit Types (m : JsMap.t V) (k : string) (v : V).

Lemma has_get m k :
  JsMap.has m k = match JsMap.get m k with Some _ => true | None => false end.
Proof.
  induction m as [|[k' v'] rest IH]; simpl; [reflexivity|].
  destruct (String.eqb k' k); [reflexivity | exact IH].
Qed.

Lemma has_true_get m k :
  JsMap.has m k = true -> exists v, JsMap.get m k = Some v.
Proof.
  rewrite has_get. destruct (JsMap.get m k) as [v|]; [eauto | discriminate].
Qed.

Lemma has_false_get m k : JsMap.has m k = false -> JsMap.get m k = None.
Proof.
  rewrite has_get. destruct (JsMap.get m k); [discriminate | reflexivity].
Qed.

Lemma has_keys m k : JsMap.has m k = true <-> In k (JsMap.keys m).
Proof.
  induction m as [|[k' v'] rest IH]; simpl.
  - split; [discriminate | tauto].
  - destruct (String.eqb_spec k' k) as [->|Hne].
    + split; auto.
    + rewrite IH. split; [auto | intros [H|H]; [contradiction | exact H]].
Qed.

Lemma has_false_keys m k : JsMap.has m k = false <-> ~ In k (JsMap.keys m).
Proof.
  rewrite <- has_keys. destruct (JsMap.has m k); split; intros H;
    try reflexivity; try discriminate; try (intros H'; discriminate).
  exfalso; apply H; reflexivity.
Qed.

Lemma get_In m k v : JsMap.get m k = Some v -> In (k, v) m.
Proof.
  induction m as [|[k' v'] rest IH]; simpl; [discriminate|].
  destruct (String.eqb_spec k' k) as [->|Hne].
  - intros [= ->]. left; reflexivity.
  - intros H. right. exact (IH H).
Qed.

Lemma In_get m k v : JsMap.wf m -> In (k, v) m -> JsMap.get m k = Some v.
Proof.
  unfold JsMap.wf, JsMap.keys.
  induction m as [|[k' v'] rest IH]; simpl; [tauto|].
  intros Hnd [H|H]; inversion Hnd as [|? ? Hnotin Hnd']; subst.
  - inversion H; subst. rewrite String.eqb_refl. reflexivity.
  - destruct (String.eqb_spec k' k) as [->|Hne].
    + exfalso. apply Hnotin. change k with (fst (k, v)). now apply in_map.
    + auto.
Qed.

Lemma delete_absent m k : JsMap.has m k = false -> JsMap.delete m k = m.
Proof.
  induction m as [|[k' v'] rest IH]; simpl; [reflexivity|].
  destruct (String.eqb k' k); [discriminate|].
  intros H. now rewrite IH.
Qed.

Lemma set_absent m k v :
  JsMap.has m k = false -> JsMap.set m k v = m ++ [(k, v)].
Proof.
  induction m as [|[k' v'] rest IH]; simpl; [reflexivity|].
  destruct (String.eqb k' k); [discriminate|].
  intros H. now rewrite IH.
Qed.

Lemma delete_In m k x : In x (JsMap.delete m k) -> In x m.
Proof.
  induction m as [|[k' v'] rest IH]; simpl; [tauto|].
  destruct (String.eqb k' k); simpl; intuition.
Qed.

Lemma set_In m k v x : In x (JsMap.set m k v) -> x = (k, v) \/ In x m.
Proof.
  induction m as [|[k' v'] rest IH]; simpl.
  - intuition.
  - destruct (String.eqb k' k); simpl; intuition.
Qed.

Lemma delete_keys_incl m k k0 :
  In k0 (JsMap.keys (JsMap.delete m k)) -> In k0 (JsMap.keys m).
Proof.
  unfold JsMap.keys. rewrite !in_map_iff.
  intros [x [Hx Hin]]. exists x. split; [exact Hx|].
  eapply delete_In; eauto.
Qed.

Lemma delete_wf m k : JsMap.wf m -> JsMap.wf (JsMap.delete m k).
Proof.
  unfold JsMap.wf.
  induction m as [|[k' v'] rest IH]; simpl; [auto|].
  intros Hnd. inversion Hnd as [|? ? Hnotin Hnd']; subst.
  destruct (String.eqb k' k); [exact Hnd'|].
  simpl. constructor; [|auto].
  intros Hin. apply Hnotin. eapply delete_keys_incl; eauto.
Qed.

Lemma delete_has_same m k :
  JsMap.wf m -> JsMap.has (JsMap.delete m k) k = false.
Proof.
  unfold JsMap.wf.
  induction m as [|[k' v'] rest IH]; simpl; [reflexivity|].
  intros Hnd. inversion Hnd as [|? ? Hnotin Hnd']; subst.
  destruct (String.eqb_spec k' k) as [->|Hne].
  - now apply has_false_keys.
  - simpl. destruct (String.eqb_spec k' k); [contradiction|]. auto.
Qed.

Lemma delete_has_other m k k0 :
  k0 <> k -> JsMap.has (JsMap.delete m k) k0 = JsMap.has m k0.
Proof.
  intros Hne.
  induction m as [|[k' v'] rest IH]; simpl; [reflexivity|].
  destruct (String.eqb_spec k' k) as [->|Hne'].
  - destruct (String.eqb_spec k k0); [congruence | reflexivity].
  - simpl. now rewrite IH.
Qed.

Lemma delete_filter m k :
  JsMap.wf m ->
  JsMap.delete m k = filter (fun kv => negb (String.eqb (fst kv) k)) m.
Proof.
  unfold JsMap.wf.
  induction m as [|[k' v'] rest IH]; simpl; [reflexivity|].
  intros Hnd. inversion Hnd as [|? ? Hnotin Hnd']; subst.
  destruct (String.eqb_spec k' k) as [->|Hne]; simpl.
  - rewrite <- IH by assumption. symmetry. apply delete_absent.
    now apply has_false_keys.
  - now rewrite IH.
Qed.

Lemma set_keys_absent m k v :
  JsMap.has m k = false -> JsMap.keys (JsMap.set m k v) = JsMap.keys m ++ [k].
Proof.
  intros H. rewrite set_absent by assumption.
  unfold JsMap.keys. now rewrite map_app.
Qed.

Lemma set_keys_present m k v :
  JsMap.has m k = true -> JsMap.keys (JsMap.set m k v) = JsMap.keys m.
Proof.
  induction m as [|[k' v'] rest IH]; simpl; [discriminate|].
  destruct (String.eqb_spec k' k) as [->|Hne]; simpl; [reflexivity|].
  intros H. now rewrite IH.
Qed.

Lemma set_wf m k v : JsMap.wf m -> JsMap.wf (JsMap.set m k v).
Proof.
  unfold JsMap.wf. intros Hnd.
  destruct (JsMap.has m k) eqn:Hhas.
  - now rewrite set_keys_present.
  - rewrite set_keys_absent by assumption.
    apply NoDup_app; [exact Hnd | repeat constructor; simpl; tauto |].
    intros x Hx [<-|[]]. now apply has_false_keys in Hhas.
Qed.

Lemma set_has_same m k v : JsMap.has (JsMap.set m k v) k = true.
Proof.
  induction m as [|[k' v'] rest IH]; simpl.
  - now rewrite String.eqb_refl.
  - destruct (String.eqb_spec k' k) as [->|Hne]; simpl.
    + now rewrite String.eqb_refl.
    + destruct (String.eqb_spec k' k); [contradiction | exact IH].
Qed.

Lemma set_has_other m k v k0 :
  k0 <> k -> JsMap.has (JsMap.set m k v) k0 = JsMap.has m k0.
Proof.
  intros Hne.
  induction m as [|[k' v'] rest IH]; simpl.
  - destruct (String.eqb_spec k k0); [congruence | reflexivity].
  - destruct (String.eqb_spec k' k) as [->|Hne']; simpl.
    + destruct (String.eqb_spec k k0); [congruence | reflexivity].
    + now rewrite IH.
Qed.

Lemma set_get_same m k v : JsMap.get (JsMap.set m k v) k = Some v.
Proof.
  induction m as [|[k' v'] rest IH]; simpl.
  - now rewrite String.eqb_refl.
  - destruct (String.eqb_spec k' k) as [->|Hne]; simpl.
    + now rewrite String.eqb_refl.
    + destruct (String.eqb_spec k' k); [contradiction | exact IH].
Qed.

Lemma set_get_other m k v k0 :
  k0 <> k -> JsMap.get (JsMap.set m k v) k0 = JsMap.get m k0.
Proof.
  intros Hne.
  induction m as [|[k' v'] rest IH]; simpl.
  - destruct (String.eqb_spec k k0); [congruence | reflexivity].
  - destruct (String.eqb_spec k' k) as [->|Hne']; simpl.
    + destruct (String.eqb_spec k k0); [congruence | reflexivity].
    + now rewrite IH.
Qed.

End WithValue.
End JsMapFacts.

(* ===================================================================== *)
(** ** Facts about [LRUCache] *)
(* ===================================================================== *)

Module LRUFacts.
Section WithData.
Variable D : Type.
Variable JSON_stringify : D -> string.

Local Open Scope Z_scope.

Local Abbreviation Cache := (LRU.LRUCache D).
Local Abbreviation Entries := (JsMap.t (LRU.Entry D)).
Local Abbreviation set := (LRU.set JSON_stringify).
Local Abbreviation set_spec := (LRUSpec.set_spec JSON_stringify).
Local Abbreviation size_of := (LRU._getSize JSON_stringify).
Local Abbreviation total_after_replace := (@LRUSpec.total_after_replace D).

Implicit Types (c : Cache) (m : Entries) (key k : string) (d : D).

Lemma getSize_nonneg d : 0 <= size_of d.
Proof. unfold LRU._getSize. lia. Qed.

Lemma has_app m1 m2 k :
  JsMap.has (m1 ++ m2) k = JsMap.has m1 k || JsMap.has m2 k.
Proof.
  induction m1 as [|[k' e'] rest IH]; simpl; [reflexivity|].
  destruct (String.eqb k' k); [reflexivity | exact IH].
Qed.

Lemma total_size_app m1 m2 :
  LRU.total_size (m1 ++ m2) = LRU.total_size m1 + LRU.total_size m2.
Proof.
  unfold LRU.total_size.
  induction m1 as [|x rest IH]; simpl; [reflexivity|]. rewrite IH. lia.
Qed.

Lemma total_size_one k (e : LRU.Entry D) :
  LRU.total_size [(k, e)] = LRU.size e.
Proof. unfold LRU.total_size. simpl. lia. Qed.

Lemma total_size_delete m k e :
  JsMap.get m k = Some e ->
  LRU.total_size (JsMap.delete m k) = LRU.total_size m - LRU.size e.
Proof.
  induction m as [|[k' e'] rest IH]; simpl; [discriminate|].
  destruct (String.eqb k' k).
  - intros [= ->]. unfold LRU.total_size. simpl. lia.
  - intros H. specialize (IH H). unfold LRU.total_size in *. simpl. lia.
Qed.

Lemma sizes_nonneg_delete m k :
  LRUSpec.sizes_nonneg m -> LRUSpec.sizes_nonneg (JsMap.delete m k).
Proof.
  unfold LRUSpec.sizes_nonneg. rewrite !Forall_forall.
  intros H x Hx. apply H. eapply JsMapFacts.delete_In; eauto.
Qed.

Lemma sizes_nonneg_set m k e :
  0 <= LRU.size e ->
  LRUSpec.sizes_nonneg m -> LRUSpec.sizes_nonneg (JsMap.set m k e).
Proof.
  unfold LRUSpec.sizes_nonneg. rewrite !Forall_forall.
  intros He H x Hx. apply JsMapFacts.set_In in Hx as [->|Hx]; auto.
Qed.

Lemma total_size_nonneg m : LRUSpec.sizes_nonneg m -> 0 <= LRU.total_size m.
Proof.
  unfold LRUSpec.sizes_nonneg, LRU.total_size.
  induction 1 as [|x rest Hx _ IH]; simpl; lia.
Qed.

(** *** [remove] *)

Lemma remove_present c k e :
  JsMap.get (LRU.cache c) k = Some e ->
  LRU.remove c k =
  {| LRU.maxSize := LRU.maxSize c;
     LRU.currentSize := LRU.currentSize c - LRU.size e;
     LRU.cache := JsMap.delete (LRU.cache c) k |}.
Proof.
  intros H. unfold LRU.remove. rewrite JsMapFacts.has_get, H. reflexivity.
Qed.

Lemma remove_absent c k : JsMap.has (LRU.cache c) k = false -> LRU.remove c k = c.
Proof. intros H. unfold LRU.remove. now rewrite H. Qed.

(** *** The eviction loop *)

(** What [evict_oldest] leaves: a suffix of the entries, the total reduced
    by what was dropped, and the guard of the loop false. *)
Lemma evict_oldest_spec capacity new_size m : forall total,
  exists dropped,
    m = dropped ++ snd (LRUSpec.evict_oldest capacity new_size total m) /\
    fst (LRUSpec.evict_oldest capacity new_size total m)
      = total - LRU.total_size dropped /\
    (snd (LRUSpec.evict_oldest capacity new_size total m) = [] \/
     fst (LRUSpec.evict_oldest capacity new_size total m) + new_size
       <= capacity) /\
    (forall older x younger, dropped = older ++ x :: younger ->
       total - LRU.total_size older + new_size > capacity).
Proof.
  induction m as [|[k e] rest IH]; intros total; simpl.
  - exists []. simpl. repeat split; auto; try lia.
    intros [|] ? ? H; discriminate.
  - destruct (total + new_size >? capacity) eqn:G.
    + destruct (IH (total - LRU.size e)) as [dropped [H1 [H2 [H3 H4]]]].
      exists ((k, e) :: dropped). simpl. repeat split.
      * now rewrite <- H1.
      * rewrite H2. unfold LRU.total_size. simpl. lia.
      * exact H3.
      * intros [|y older] x younger Heq; simpl in Heq.
        -- unfold LRU.total_size; simpl. lia.
        -- injection Heq as <- Heq. specialize (H4 _ _ _ Heq).
           unfold LRU.total_size in *. simpl. lia.
    + exists []. simpl. repeat split; auto; try lia.
      intros [|] ? ? H; discriminate.
Qed.

(** The loop of the code, given enough rounds, is [evict_oldest]. *)
Lemma evict_as_spec sz : forall fuel c,
  (JsMap.size (LRU.cache c) <= fuel)%nat ->
  LRU.evict fuel sz c =
  {| LRU.maxSize := LRU.maxSize c;
     LRU.currentSize :=
       fst (LRUSpec.evict_oldest (LRU.maxSize c) sz (LRU.currentSize c)
                                 (LRU.cache c));
     LRU.cache :=
       snd (LRUSpec.evict_oldest (LRU.maxSize c) sz (LRU.currentSize c)
                                 (LRU.cache c)) |}.
Proof.
  induction fuel as [|fuel IH]; intros [mx cur m] Hfuel; simpl in *.
  - destruct m; [reflexivity | simpl in Hfuel; lia].
  - unfold LRU.must_evict. simpl.
    destruct m as [|[k e] rest]; simpl.
    + now rewrite andb_false_r.
    + rewrite andb_true_r.
      destruct (cur + sz >? mx) eqn:G; [|reflexivity].
      rewrite (remove_present _ k e) by (simpl; now rewrite String.eqb_refl).
      simpl. rewrite String.eqb_refl.
      rewrite IH by (simpl in *; unfold JsMap.size in *; simpl in *; lia).
      reflexivity.
Qed.

(** The loop terminates within [JsMap.size] rounds: afterwards its guard
    is false. *)
Lemma evict_settles sz fuel c :
  (JsMap.size (LRU.cache c) <= fuel)%nat ->
  LRU.must_evict sz (LRU.evict fuel sz c) = false.
Proof.
  intros Hfuel. rewrite evict_as_spec by assumption.
  unfold LRU.must_evict. simpl.
  destruct (evict_oldest_spec (LRU.maxSize c) sz (LRU.cache c)
                              (LRU.currentSize c))
    as [dropped [_ [_ [[-> | Hle] _]]]].
  - now rewrite andb_false_r.
  - apply andb_false_iff. left. lia.
Qed.

(** Whatever the number of rounds, the loop drops a prefix. *)
Lemma evict_suffix sz : forall fuel c,
  exists dropped, LRU.cache c = dropped ++ LRU.cache (LRU.evict fuel sz c).
Proof.
  induction fuel as [|fuel IH]; intros c; simpl.
  - now exists [].
  - destruct (LRU.must_evict sz c); [|now exists []].
    destruct c as [mx cur m]. destruct m as [|[k e] rest]; simpl.
    + now exists [].
    + rewrite (remove_present _ k e) by (simpl; now rewrite String.eqb_refl).
      simpl. rewrite String.eqb_refl.
      destruct (IH {| LRU.maxSize := mx; LRU.currentSize := cur - LRU.size e;
                      LRU.cache := rest |}) as [dropped Hd].
      exists ((k, e) :: dropped). simpl in *. now rewrite <- Hd.
Qed.

(** The newest entry leaves only with everything else. *)
Lemma suffix_without_last m (x : string * LRU.Entry D) dropped kept :
  m ++ [x] = dropped ++ kept ->
  JsMap.has kept (fst x) = false -> kept = [].
Proof.
  intros Heq Hhas.
  destruct kept as [|y kept'] using rev_ind; [reflexivity|].
  rewrite app_assoc in Heq. apply app_inj_tail in Heq as [_ <-].
  rewrite has_app in Hhas. apply orb_false_iff in Hhas as [_ Hhas].
  destruct x as [kx ex]. simpl in Hhas. now rewrite String.eqb_refl in Hhas.
Qed.

(** *** [set] *)

Lemma set_unfold c key d :
  JsMap.wf (LRU.cache c) ->
  let r := LRUSpec.evict_oldest (LRU.maxSize c) (size_of d)
             (total_after_replace c key) (JsMap.delete (LRU.cache c) key) in
  set c key d =
  {| LRU.maxSize := LRU.maxSize c;
     LRU.currentSize := fst r + size_of d;
     LRU.cache :=
       snd r ++ [(key, {| LRU.data := d; LRU.size := size_of d |})] |}.
Proof.
  intros Hwf r.
  assert (Habs : JsMap.has (snd r) key = false).
  { destruct (evict_oldest_spec (LRU.maxSize c) (size_of d)
                (JsMap.delete (LRU.cache c) key) (total_after_replace c key))
      as [dropped [Hsplit _]].
    fold r in Hsplit.
    pose proof (JsMapFacts.delete_has_same _ key Hwf) as Hdel.
    rewrite Hsplit, has_app in Hdel. now apply orb_false_iff in Hdel. }
  assert (Hc1 : (if JsMap.has (LRU.cache c) key then LRU.remove c key else c)
                = {| LRU.maxSize := LRU.maxSize c;
                     LRU.currentSize := total_after_replace c key;
                     LRU.cache := JsMap.delete (LRU.cache c) key |}).
  { unfold LRUSpec.total_after_replace. rewrite JsMapFacts.has_get.
    destruct (JsMap.get (LRU.cache c) key) as [old|] eqn:G.
    - now apply remove_present.
    - rewrite JsMapFacts.delete_absent
        by (rewrite JsMapFacts.has_get, G; reflexivity).
      now destruct c. }
  unfold LRU.set. rewrite Hc1.
  rewrite evict_as_spec by (simpl; lia). simpl. fold r.
  now rewrite JsMapFacts.set_absent.
Qed.

Lemma total_after_replace_exact c key :
  LRUSpec.size_exact c ->
  total_after_replace c key
  = LRU.total_size (JsMap.delete (LRU.cache c) key).
Proof.
  unfold LRUSpec.size_exact, LRUSpec.total_after_replace. intros Hex.
  destruct (JsMap.get (LRU.cache c) key) as [old|] eqn:G.
  - rewrite (total_size_delete _ _ _ G). lia.
  - rewrite JsMapFacts.delete_absent
      by (rewrite JsMapFacts.has_get, G; reflexivity).
    exact Hex.
Qed.

(** The total that [evict_oldest] returns is the sum over what it keeps,
    when it starts from the sum over what it is given. *)
Lemma evict_oldest_exact capacity new_size m :
  let r := LRUSpec.evict_oldest capacity new_size (LRU.total_size m) m in
  fst r = LRU.total_size (snd r).
Proof.
  intros r.
  destruct (evict_oldest_spec capacity new_size m (LRU.total_size m))
    as [dropped [Hsplit [Htot _]]].
  fold r in Hsplit, Htot. rewrite Htot.
  rewrite Hsplit at 1. rewrite total_size_app. lia.
Qed.

Lemma evict_oldest_incl capacity new_size total m x :
  In x (snd (LRUSpec.evict_oldest capacity new_size total m)) -> In x m.
Proof.
  destruct (evict_oldest_spec capacity new_size m total)
    as [dropped [Hsplit _]].
  intros Hin. rewrite Hsplit. apply in_or_app. now right.
Qed.

(** C4: for every cache [c] (keys distinct, as in any [Map]) and every
    [set(key, d)]: the code computes what the spec words say, namely the
    old entry of [key] removed with its size subtracted, then the oldest
    entries evicted while the total plus the new size exceeds [maxSize] and
    an entry is left, then the new entry appended at the most recent end
    with its size added; the rounds granted to the loop are enough, its
    guard being false when it stops; and when the counter is exact and the
    new size alone exceeds [maxSize], the loop empties the cache and the new
    entry is stored all the same. *)
Theorem set_follows_spec c key d :
  JsMap.wf (LRU.cache c) ->
  set c key d = set_spec c key d /\
  (let c1 := if JsMap.has (LRU.cache c) key then LRU.remove c key else c in
   LRU.must_evict (size_of d)
     (LRU.evict (JsMap.size (LRU.cache c1)) (size_of d) c1) = false) /\
  (LRUSpec.size_exact c -> LRUSpec.sizes_nonneg (LRU.cache c) ->
   size_of d > LRU.maxSize c ->
   set c key d =
   {| LRU.maxSize := LRU.maxSize c;
      LRU.currentSize := size_of d;
      LRU.cache := [(key, {| LRU.data := d; LRU.size := size_of d |})] |}).
Proof.
  intros Hwf. split; [|split].
  - rewrite set_unfold by assumption.
    unfold LRUSpec.set_spec, LRUSpec.without.
    rewrite <- JsMapFacts.delete_filter by assumption.
    now destruct (LRUSpec.evict_oldest _ _ _ _).
  - intros c1. now apply evict_settles.
  - intros Hex Hnn Hbig. rewrite set_unfold by assumption.
    rewrite total_after_replace_exact by assumption.
    pose proof (evict_oldest_exact (LRU.maxSize c) (size_of d)
                  (JsMap.delete (LRU.cache c) key)) as Hexact.
    destruct (evict_oldest_spec (LRU.maxSize c) (size_of d)
                (JsMap.delete (LRU.cache c) key)
                (LRU.total_size (JsMap.delete (LRU.cache c) key)))
      as [dropped [Hsplit [_ [Hstop _]]]].
    simpl in Hexact.
    set (r := LRUSpec.evict_oldest _ _ _ _) in *.
    assert (Hkept : snd r = []).
    { destruct Hstop as [Hnil | Hle]; [exact Hnil|].
      assert (0 <= LRU.total_size (snd r)).
      { apply total_size_nonneg. unfold LRUSpec.sizes_nonneg in *.
        rewrite Forall_forall in *. intros x Hx. apply Hnn.
        apply JsMapFacts.delete_In with (k := key).
        rewrite Hsplit. apply in_or_app. now right. }
      lia. }
    rewrite Hexact, Hkept. reflexivity.
Qed.

(** *** The invariant *)

Lemma invariant_new maxSize :
  0 <= maxSize -> LRUSpec.invariant (LRU.new D (Some maxSize)).
Proof.
  intros H. unfold LRUSpec.invariant, LRUSpec.size_exact,
    LRUSpec.within_capacity, LRUSpec.sizes_nonneg, JsMap.wf; simpl.
  repeat split; auto; constructor.
Qed.

Lemma invariant_clear c : LRUSpec.invariant c -> LRUSpec.invariant (LRU.clear c).
Proof.
  intros (_ & _ & _ & _ & Hmax).
  unfold LRUSpec.invariant, LRUSpec.size_exact,
    LRUSpec.within_capacity, LRUSpec.sizes_nonneg, JsMap.wf; simpl.
  repeat split; auto; constructor.
Qed.

Lemma invariant_remove c key :
  LRUSpec.invariant c -> LRUSpec.invariant (LRU.remove c key).
Proof.
  intros (Hwf & Hnn & Hex & Hcap & Hmax).
  destruct (JsMap.get (LRU.cache c) key) as [e|] eqn:G.
  - rewrite (remove_present _ _ _ G).
    assert (He : 0 <= LRU.size e).
    { unfold LRUSpec.sizes_nonneg in Hnn. rewrite Forall_forall in Hnn.
      exact (Hnn _ (JsMapFacts.get_In _ _ _ G)). }
    unfold LRUSpec.invariant, LRUSpec.size_exact, LRUSpec.within_capacity
      in *; simpl.
    repeat split.
    + now apply JsMapFacts.delete_wf.
    + now apply sizes_nonneg_delete.
    + rewrite (total_size_delete _ _ _ G). lia.
    + destruct Hcap as [Hle | (k0 & e0 & Hone & _)]; [left; lia|].
      left. rewrite Hone in G, Hex. simpl in G.
      destruct (String.eqb k0 key); [|discriminate].
      injection G as ->. unfold LRU.total_size in Hex. simpl in Hex. lia.
    + exact Hmax.
  - rewrite remove_absent by (rewrite JsMapFacts.has_get, G; reflexivity).
    repeat split; assumption.
Qed.

Lemma get_present c key e :
  JsMap.wf (LRU.cache c) ->
  JsMap.get (LRU.cache c) key = Some e ->
  LRU.get c key =
  (Some (LRU.data e),
   {| LRU.maxSize := LRU.maxSize c;
      LRU.currentSize := LRU.currentSize c;
      LRU.cache := LRUSpec.without key (LRU.cache c) ++ [(key, e)] |}).
Proof.
  intros Hwf G. unfold LRU.get, LRUSpec.without.
  rewrite JsMapFacts.has_get, G. simpl.
  rewrite JsMapFacts.set_absent by now apply JsMapFacts.delete_has_same.
  now rewrite JsMapFacts.delete_filter.
Qed.

Lemma get_absent c key :
  JsMap.has (LRU.cache c) key = false -> LRU.get c key = (None, c).
Proof. intros H. unfold LRU.get. now rewrite H. Qed.

Lemma invariant_get c key :
  LRUSpec.invariant c -> LRUSpec.invariant (snd (LRU.get c key)).
Proof.
  intros (Hwf & Hnn & Hex & Hcap & Hmax).
  destruct (JsMap.get (LRU.cache c) key) as [e|] eqn:G.
  - rewrite (get_present _ _ _ Hwf G). unfold LRUSpec.without.
    rewrite <- JsMapFacts.delete_filter by assumption.
    assert (He : 0 <= LRU.size e).
    { unfold LRUSpec.sizes_nonneg in Hnn. rewrite Forall_forall in Hnn.
      exact (Hnn _ (JsMapFacts.get_In _ _ _ G)). }
    unfold LRUSpec.invariant, LRUSpec.size_exact, LRUSpec.within_capacity
      in *; simpl.
    repeat split.
    + rewrite <- JsMapFacts.set_absent
        by now apply JsMapFacts.delete_has_same.
      now apply JsMapFacts.set_wf, JsMapFacts.delete_wf.
    + apply Forall_app. split; [now apply sizes_nonneg_delete|].
      now repeat constructor.
    + rewrite total_size_app, (total_size_delete _ _ _ G), total_size_one.
      simpl. lia.
    + destruct Hcap as [Hle | (k0 & e0 & Hone & Hbig)]; [now left|].
      right. exists k0, e0. rewrite Hone in G |- *. simpl in *.
      destruct (String.eqb_spec k0 key) as [->|]; [|discriminate].
      injection G as <-. now split.
    + exact Hmax.
  - rewrite get_absent by (rewrite JsMapFacts.has_get, G; reflexivity).
    repeat split; assumption.
Qed.

Lemma invariant_set c key d :
  LRUSpec.invariant c -> LRUSpec.invariant (set c key d).
Proof.
  intros (Hwf & Hnn & Hex & Hcap & Hmax).
  rewrite set_unfold by assumption.
  rewrite total_after_replace_exact by assumption.
  pose proof (evict_oldest_exact (LRU.maxSize c) (size_of d)
                (JsMap.delete (LRU.cache c) key)) as Hexact.
  destruct (evict_oldest_spec (LRU.maxSize c) (size_of d)
              (JsMap.delete (LRU.cache c) key)
              (LRU.total_size (JsMap.delete (LRU.cache c) key)))
    as [dropped [Hsplit [_ [Hstop _]]]].
  simpl in Hexact.
  set (r := LRUSpec.evict_oldest _ _ _ _) in *.
  pose proof (getSize_nonneg d) as Hsz.
  assert (Hwfd : JsMap.wf (JsMap.delete (LRU.cache c) key))
    by now apply JsMapFacts.delete_wf.
  assert (Habs : JsMap.has (snd r) key = false).
  { pose proof (JsMapFacts.delete_has_same _ key Hwf) as Hdel.
    rewrite Hsplit, has_app in Hdel. now apply orb_false_iff in Hdel. }
  unfold LRUSpec.invariant, LRUSpec.size_exact, LRUSpec.within_capacity;
    simpl.
  repeat split.
  - rewrite <- JsMapFacts.set_absent by assumption.
    apply JsMapFacts.set_wf. unfold JsMap.wf, JsMap.keys in *.
    rewrite Hsplit, map_app in Hwfd. now apply NoDup_app_remove_l in Hwfd.
  - apply Forall_app. split; [|now repeat constructor].
    apply sizes_nonneg_delete with (k := key) in Hnn.
    unfold LRUSpec.sizes_nonneg in *. rewrite Hsplit in Hnn.
    now apply Forall_app in Hnn.
  - rewrite total_size_app, Hexact, total_size_one. simpl. lia.
  - destruct Hstop as [Hnil | Hle]; [|left; lia].
    rewrite Hexact, Hnil. unfold LRU.total_size. simpl.
    destruct (Z_le_gt_dec (size_of d) (LRU.maxSize c)); [left; lia|].
    right. eexists _, _. split; [reflexivity|]. simpl. lia.
  - exact Hmax.
Qed.

Lemma invariant_run ops : forall c,
  LRUSpec.invariant c -> LRUSpec.invariant (LRUSpec.run JSON_stringify ops c).
Proof.
  unfold LRUSpec.run.
  induction ops as [|op ops IH]; intros c Hinv; simpl; [exact Hinv|].
  apply IH. destruct op; simpl.
  - now apply invariant_get.
  - now apply invariant_set.
  - now apply invariant_remove.
  - now apply invariant_clear.
Qed.

(** C5: for a capacity that is not negative and every sequence of get, set,
    remove and clear run from the empty cache, [currentSize] is the sum of
    the sizes of the stored entries, and it is at most [maxSize] unless the
    cache holds exactly one entry whose own size exceeds [maxSize]. *)
Theorem size_counter_exact_and_bounded maxSize ops :
  0 <= maxSize ->
  let c := LRUSpec.run JSON_stringify ops (LRU.new D (Some maxSize)) in
  LRU.currentSize c = LRU.total_size (LRU.cache c) /\
  (LRU.currentSize c > LRU.maxSize c ->
   exists k e, LRU.cache c = [(k, e)] /\ LRU.size e > LRU.maxSize c).
Proof.
  intros Hmax c.
  destruct (invariant_run ops _ (invariant_new _ Hmax))
    as (_ & _ & Hex & Hcap & _).
  fold c in Hex, Hcap. split; [exact Hex|].
  intros Hover. destruct Hcap as [Hle | Hone]; [lia | exact Hone].
Qed.

(** C6: for every cache [c] (keys distinct) and key: when [key] is present
    with entry [e], [get] returns the stored data and leaves the other
    entries in their order with [(key, e)] moved to the most recent end,
    [maxSize] and [currentSize] untouched; from there an eviction loop, or
    a [set] of another key, that makes [key] leave has made every other
    earlier entry leave too.  When [key] is absent, [get] returns [null]
    and the cache is unchanged. *)
Theorem get_promotes c key :
  JsMap.wf (LRU.cache c) ->
  (forall e, JsMap.get (LRU.cache c) key = Some e ->
     LRU.get c key =
     (Some (LRU.data e),
      {| LRU.maxSize := LRU.maxSize c;
         LRU.currentSize := LRU.currentSize c;
         LRU.cache := LRUSpec.without key (LRU.cache c) ++ [(key, e)] |}) /\
     (forall fuel sz,
        JsMap.has (LRU.cache (LRU.evict fuel sz (snd (LRU.get c key)))) key
          = false ->
        LRU.cache (LRU.evict fuel sz (snd (LRU.get c key))) = []) /\
     (forall k2 d, k2 <> key ->
        JsMap.has (LRU.cache (set (snd (LRU.get c key)) k2 d)) key = false ->
        LRU.cache (set (snd (LRU.get c key)) k2 d)
        = [(k2, {| LRU.data := d; LRU.size := size_of d |})])) /\
  (JsMap.has (LRU.cache c) key = false -> LRU.get c key = (None, c)).
Proof.
  intros Hwf. split; [|apply get_absent].
  intros e G. rewrite (get_present _ _ _ Hwf G). cbn [snd].
  split; [reflexivity|]. split.
  - intros fuel sz Hgone.
    destruct (evict_suffix sz fuel
                {| LRU.maxSize := LRU.maxSize c;
                   LRU.currentSize := LRU.currentSize c;
                   LRU.cache := LRUSpec.without key (LRU.cache c)
                                  ++ [(key, e)] |}) as [dropped Hd].
    simpl in Hd. exact (suffix_without_last _ _ _ _ Hd Hgone).
  - intros k2 d Hne.
    set (c' := {| LRU.maxSize := LRU.maxSize c;
                  LRU.currentSize := LRU.currentSize c;
                  LRU.cache := LRUSpec.without key (LRU.cache c)
                                 ++ [(key, e)] |}).
    assert (Hwf' : JsMap.wf (LRU.cache c')).
    { simpl. unfold LRUSpec.without.
      rewrite <- JsMapFacts.delete_filter by assumption.
      rewrite <- JsMapFacts.set_absent
        by now apply JsMapFacts.delete_has_same.
      now apply JsMapFacts.set_wf, JsMapFacts.delete_wf. }
    rewrite (set_unfold _ k2 d Hwf'). simpl.
    set (r := LRUSpec.evict_oldest _ _ _ _).
    intros Hgone. rewrite has_app in Hgone.
    apply orb_false_iff in Hgone as [Hgone _].
    destruct (evict_oldest_spec (LRU.maxSize c) (size_of d)
                (JsMap.delete (LRU.cache c') k2)
                (total_after_replace c' k2)) as [dropped [Hsplit _]].
    change (snd (LRUSpec.evict_oldest _ _ _ _)) with (snd r) in Hsplit.
    assert (Hshape : JsMap.delete (LRU.cache c') k2
                     = LRUSpec.without k2 (LRUSpec.without key (LRU.cache c))
                         ++ [(key, e)]).
    { rewrite JsMapFacts.delete_filter by assumption.
      simpl. unfold LRUSpec.without at 2. rewrite filter_app. simpl.
      destruct (String.eqb_spec key k2) as [Heq|_]; [congruence|].
      reflexivity. }
    rewrite Hshape in Hsplit.
    now rewrite (suffix_without_last _ _ _ _ Hsplit Hgone).
Qed.

End WithData.
End LRUFacts.

(* ===================================================================== *)
(** ** Facts about strings *)
(* ===================================================================== *)

Module StringFacts.

Lemma endsWith_tilde s :
  endsWith s "~" = true <-> exists p, s = (p ++ "~")%string.
Proof.
  unfold endsWith. change (String.length "~") with 1.
  induction s as [|a s IH].
  - simpl. split; [discriminate|]. intros [[|? ?] H]; discriminate.
  - destruct s as [|b s'].
    + simpl. destruct (Ascii.eqb_spec a "~"%char) as [->|Hne]; split.
      * intros _. now exists ""%string.
      * reflexivity.
      * discriminate.
      * intros [[|c p] H]; simpl in H.
        -- injection H as H. contradiction.
        -- injection H as _ H. destruct p; discriminate.
    + change ((1 <=? S (String.length s'))%nat
              && (substring (S (String.length s') - 1) 1 (String b s')
                  =? "~")%string = true
              <-> (exists p, String b s' = (p ++ "~")%string)) in IH.
      change ((1 <=? S (S (String.length s')))%nat
              && (substring (String.length s') 1 (String b s')
                  =? "~")%string = true
              <-> (exists p, String a (String b s') = (p ++ "~")%string)).
      rewrite Nat.sub_1_r in IH. simpl Nat.pred in IH.
      change (1 <=? S (S (String.length s')))%nat with true.
      change (1 <=? S (String.length s'))%nat with true in IH.
      rewrite IH. split.
      * intros [p ->]. now exists (String a p).
      * intros [[|c p] H]; simpl in H; [discriminate|].
        injection H as _ ->. now exists p.
Qed.

Lemma occurs_app c s1 s2 :
  occurs c (s1 ++ s2) = occurs c s1 || occurs c s2.
Proof.
  induction s1 as [|a s1 IH]; simpl; [reflexivity|].
  rewrite IH. now rewrite orb_assoc.
Qed.

(** Two texts free of [c], each followed by [c], split a string the same
    way. *)
Lemma split_at_first c : forall s1 s2 r1 r2,
  occurs c s1 = false -> occurs c s2 = false ->
  (s1 ++ String c r1 = s2 ++ String c r2)%string ->
  s1 = s2 /\ r1 = r2.
Proof.
  induction s1 as [|a s1 IH]; intros [|b s2] r1 r2 H1 H2 Heq;
    simpl in *.
  - injection Heq as ->. now split.
  - injection Heq as <- _. now rewrite Ascii.eqb_refl in H2.
  - injection Heq as -> _. now rewrite Ascii.eqb_refl in H1.
  - injection Heq as -> Heq.
    apply orb_false_iff in H1 as [_ H1]. apply orb_false_iff in H2 as [_ H2].
    destruct (IH _ _ _ H1 H2 Heq) as [-> ->]. now split.
Qed.

Lemma DataType_toString_inj d1 d2 :
  DataType_toString d1 = DataType_toString d2 -> d1 = d2.
Proof. destruct d1, d2; simpl; intros H; try reflexivity; discriminate. Qed.

End StringFacts.

(* ===================================================================== *)
(** ** Facts about the scan and the result it builds *)
(* ===================================================================== *)

Module ScanFacts.
Section WithIndex.
Variable number : Type.
Variable numberToString : number -> string.
Variable Json : Type.
Variable json_truthy : Json -> bool.
Variable pointInPolygon : Geo.Ring number -> Geo.Point number -> bool.
Variable admin1_features : list (Geo.Feature number).
Variable JSON_stringify : Geo.Value number Json -> string.

Local Abbreviation holes_loop := (@Geo.holes_loop number pointInPolygon).
Local Abbreviation polygon_test := (@Geo.polygon_test number pointInPolygon).
Local Abbreviation multi_loop := (@Geo.multi_loop number pointInPolygon).
Local Abbreviation geometry_test :=
  (@Geo.geometry_test number pointInPolygon).
Local Abbreviation features_loop :=
  (@Geo.features_loop number pointInPolygon).
Local Abbreviation containsPoint_polygon :=
  (@Geo.containsPoint_polygon number pointInPolygon).
Local Abbreviation containsPoint :=
  (@Geo.containsPoint number pointInPolygon).
Local Abbreviation rings_examined :=
  (@Geo.rings_examined number pointInPolygon).
Local Abbreviation geometry_rings :=
  (@Geo.geometry_rings number pointInPolygon).
Local Abbreviation build_result := (@Geo.build_result number Json).
Local Abbreviation scan_result :=
  (@Geo.scan_result number Json pointInPolygon admin1_features).
Local Abbreviation reverseGeolocation :=
  (@Geo.reverseGeolocation number numberToString Json json_truthy
     pointInPolygon admin1_features JSON_stringify).

Implicit Types (point : Geo.Point number) (coords : Geo.PolygonCoords number)
         (f : Geo.Feature number) (features : list (Geo.Feature number)).

(** The features a scan looks at, as rings. *)
Local Abbreviation contains point :=
  (fun f => containsPoint (Geo.geometry f) point).
Local Abbreviation rings_of point :=
  (fun f => geometry_rings (Geo.geometry f) point).

(** *** The loops *)

Lemma holes_loop_spec point holes :
  holes_loop holes point =
  (forallb (fun hole => negb (pointInPolygon hole point)) holes,
   map Geo.RingTest
       (Geo.through_first (fun hole => pointInPolygon hole point) holes)).
Proof.
  induction holes as [|hole rest IH]; simpl; [reflexivity|].
  destruct (pointInPolygon hole point); simpl; [reflexivity|].
  now rewrite IH.
Qed.

Lemma polygon_test_spec point coords :
  polygon_test coords point =
  (containsPoint_polygon coords point,
   map Geo.RingTest (rings_examined coords point)).
Proof.
  destruct coords as [outer holes].
  unfold Geo.polygon_test, Geo.containsPoint_polygon, Geo.rings_examined,
    Geo.coords_length. simpl.
  destruct (pointInPolygon outer point); simpl; [|reflexivity].
  destruct holes as [|hole rest]; [reflexivity|].
  change (1 <? S (List.length (hole :: rest)))%nat with true. cbv iota.
  now rewrite holes_loop_spec.
Qed.

Lemma multi_loop_spec point polys :
  multi_loop polys point false =
  (existsb (fun coords => containsPoint_polygon coords point) polys,
   map Geo.RingTest
       (flat_map (fun coords => rings_examined coords point)
          (Geo.through_first
             (fun coords => containsPoint_polygon coords point) polys))).
Proof.
  induction polys as [|coords rest IH]; simpl; [reflexivity|].
  rewrite polygon_test_spec.
  destruct (containsPoint_polygon coords point); simpl.
  - now rewrite app_nil_r.
  - rewrite IH. now rewrite map_app.
Qed.

Lemma geometry_test_spec point g :
  geometry_test g point false =
  (containsPoint g point, map Geo.RingTest (geometry_rings g point)).
Proof.
  destruct g as [coords|polys|ty]; simpl.
  - apply polygon_test_spec.
  - apply multi_loop_spec.
  - reflexivity.
Qed.

Lemma features_loop_spec point features : forall i,
  features_loop features point i false =
  ((i + Geo.leading_misses (contains point) features,
    existsb (contains point) features),
   map Geo.RingTest
       (flat_map (rings_of point)
                 (Geo.through_first (contains point) features))).
Proof.
  induction features as [|f rest IH]; intros i; simpl.
  - now rewrite Nat.add_0_r.
  - rewrite geometry_test_spec.
    destruct (containsPoint (Geo.geometry f) point); simpl.
    + now rewrite Nat.add_0_r, app_nil_r.
    + rewrite IH. rewrite map_app. simpl. now rewrite Nat.add_succ_r.
Qed.

(** *** The first match *)

Lemma leading_misses_hit {A} (p : A -> bool) (l : list A) :
  existsb p l = true ->
  exists x, nth_error l (Geo.leading_misses p l) = Some x /\ p x = true.
Proof.
  induction l as [|y rest IH]; simpl; [discriminate|].
  destruct (p y) eqn:Hy; simpl; [now exists y | exact IH].
Qed.

Lemma leading_misses_before {A} (p : A -> bool) (l : list A) : forall j x,
  j < Geo.leading_misses p l -> nth_error l j = Some x -> p x = false.
Proof.
  induction l as [|y rest IH]; intros j x; simpl; [lia|].
  destruct (p y) eqn:Hy; [lia|].
  destruct j as [|j]; simpl.
  - now intros _ [= <-].
  - intros Hlt. apply IH. lia.
Qed.

Lemma leading_misses_le {A} (p : A -> bool) (l : list A) : forall a x,
  nth_error l a = Some x -> p x = true ->
  Geo.leading_misses p l <= a /\ existsb p l = true.
Proof.
  induction l as [|y rest IH]; intros a x; simpl.
  - destruct a; discriminate.
  - destruct (p y) eqn:Hy; simpl.
    + intros _ _. split; [lia | reflexivity].
    + destruct a as [|a]; simpl.
      * intros [= <-] Hx. congruence.
      * intros Hn Hx. destruct (IH _ _ Hn Hx). split; [lia | assumption].
Qed.

Lemma through_first_firstn {A} (p : A -> bool) (l : list A) :
  Geo.through_first p l = firstn (S (Geo.leading_misses p l)) l.
Proof.
  induction l as [|y rest IH]; simpl; [reflexivity|].
  destruct (p y); simpl.
  - reflexivity.
  - now rewrite IH.
Qed.

Lemma through_first_spec {A} (p : A -> bool) (l : list A) :
  (Geo.through_first p l = l /\ forallb (fun x => negb (p x)) l = true) \/
  (exists before x after,
     l = before ++ x :: after /\ Geo.through_first p l = before ++ [x] /\
     p x = true /\ forallb (fun y => negb (p y)) before = true).
Proof.
  induction l as [|y rest IH]; simpl; [now left|].
  destruct (p y) eqn:Hy; simpl.
  - right. exists [], y, rest. simpl. auto.
  - destruct IH as [[H1 H2] | (before & x & after & H1 & H2 & H3 & H4)].
    + left. now rewrite H1.
    + right. exists (y :: before), x, after. simpl.
      rewrite H1 at 1. rewrite H2, Hy. auto.
Qed.

(** C1: for every point: the [Polygon] branch reports containment exactly
    when the point is in [coordinates[0]] and in none of
    [coordinates[1..]], testing the outer ring first, the holes only when
    it holds the point, and no hole after the first that holds it; the
    [MultiPolygon] branch reports containment exactly when some
    sub-polygon passes that rule, testing the sub-polygons in order and
    none after the first that passes; and this is the test the scan runs
    on each feature. *)
Theorem containment_rule point :
  (forall coords found,
     geometry_test (Geo.Polygon coords) point found =
     (pointInPolygon (fst coords) point
      && forallb (fun hole => negb (pointInPolygon hole point)) (snd coords),
      map Geo.RingTest
          (fst coords ::
             (if pointInPolygon (fst coords) point
              then Geo.through_first (fun hole => pointInPolygon hole point)
                                     (snd coords)
              else [])))) /\
  (forall polys,
     geometry_test (Geo.MultiPolygon polys) point false =
     (existsb (fun coords => containsPoint_polygon coords point) polys,
      map Geo.RingTest
          (flat_map (fun coords => rings_examined coords point)
             (Geo.through_first
                (fun coords => containsPoint_polygon coords point) polys)))) /\
  (forall coords,
     containsPoint_polygon coords point = true <->
     pointInPolygon (fst coords) point = true /\
     forall hole, In hole (snd coords) -> pointInPolygon hole point = false) /\
  (forall f i,
     features_loop [f] point i false =
     ((if containsPoint (Geo.geometry f) point then i else S i,
       containsPoint (Geo.geometry f) point),
      map Geo.RingTest (geometry_rings (Geo.geometry f) point))).
Proof.
  split; [|split; [|split]].
  - intros coords found. simpl. now rewrite polygon_test_spec.
  - intros polys. simpl. apply multi_loop_spec.
  - intros coords. unfold Geo.containsPoint_polygon.
    rewrite andb_true_iff, forallb_forall. split.
    + intros [Hout Hholes]. split; [exact Hout|].
      intros hole Hin. now apply negb_true_iff, Hholes.
    + intros [Hout Hholes]. split; [exact Hout|].
      intros hole Hin. now apply negb_true_iff, Hholes.
  - intros f i. rewrite features_loop_spec. simpl.
    destruct (containsPoint (Geo.geometry f) point); simpl;
      rewrite ?app_nil_r; f_equal; f_equal; lia.
Qed.

Lemma scan_result_spec lat lng dataType :
  scan_result lat lng dataType =
  (build_result admin1_features
     (Geo.leading_misses (contains (lng, lat)) admin1_features)
     (existsb (contains (lng, lat)) admin1_features) dataType,
   map Geo.RingTest
       (flat_map (rings_of (lng, lat))
                 (Geo.through_first (contains (lng, lat)) admin1_features))).
Proof. unfold Geo.scan_result. now rewrite features_loop_spec. Qed.

(** C2: when two features of the index, at positions [a < b], both hold
    the point, the scan stops at a position [i <= a]: the first feature
    that holds the point.  It reports [found], the result is built from
    that feature in each mode, and the only rings tested are those of the
    features up to position [i]. *)
Theorem first_match_wins lat lng a b fa fb :
  a < b ->
  nth_error admin1_features a = Some fa ->
  nth_error admin1_features b = Some fb ->
  containsPoint (Geo.geometry fa) (lng, lat) = true ->
  containsPoint (Geo.geometry fb) (lng, lat) = true ->
  exists i f,
    i <= a /\ nth_error admin1_features i = Some f /\
    containsPoint (Geo.geometry f) (lng, lat) = true /\
    (forall j fj, j < i -> nth_error admin1_features j = Some fj ->
                  containsPoint (Geo.geometry fj) (lng, lat) = false) /\
    features_loop admin1_features (lng, lat) 0 false =
    ((i, true),
     map Geo.RingTest
         (flat_map (rings_of (lng, lat)) (firstn (S i) admin1_features))) /\
    fst (scan_result lat lng DtNull)
      = Geo.VProperties (Geo.derive_properties (Geo.properties f)) /\
    fst (scan_result lat lng DtRaw) = Geo.VRawCollection f /\
    fst (scan_result lat lng DtGeojson)
      = Geo.VGeoCollection (Geo.derive_properties (Geo.properties f))
                           (Geo.geometry f).
Proof.
  intros _ Ha _ Hfa _.
  destruct (leading_misses_le (contains (lng, lat)) _ _ _ Ha Hfa)
    as [Hle Hex].
  destruct (leading_misses_hit (contains (lng, lat)) _ Hex)
    as [f [Hnth Hf]].
  exists (Geo.leading_misses (contains (lng, lat)) admin1_features), f.
  split; [exact Hle|]. split; [exact Hnth|]. split; [exact Hf|].
  split.
  { intros j fj Hlt Hj.
    exact (leading_misses_before (contains (lng, lat)) _ _ _ Hlt Hj). }
  split.
  { rewrite features_loop_spec, Hex, through_first_firstn. reflexivity. }
  rewrite !scan_result_spec, Hex. unfold Geo.build_result. rewrite Hnth.
  simpl. auto.
Qed.

(** On arguments whose conversion to a string succeeds: when [lat] or
    [lng] is not of type number, [reverseGeolocation] returns an [Error]
    value whose message contains the text of both arguments; the module
    state is untouched and nothing is logged: no cache read, no cache
    write, no ring test. *)
Theorem wrong_coordinates_returned w lat lng dataType :
  Geo.typeof_number lat = false \/ Geo.typeof_number lng = false ->
  reverseGeolocation w lat lng dataType
    = (Geo.VError (Geo.wrong_coordinates numberToString lat lng), w, []) /\
  exists before between after,
    Geo.wrong_coordinates numberToString lat lng
    = (before ++ Geo.ToString numberToString lat ++ between
         ++ Geo.ToString numberToString lng ++ after)%string.
Proof.
  intros Hbad. split.
  - unfold Geo.reverseGeolocation.
    destruct lat, lng; simpl in Hbad; try reflexivity;
      destruct Hbad; discriminate.
  - exists "Wrong coordinates (lat: "%string, ",lng: "%string, ")"%string.
    reflexivity.
Qed.

(** C8: when the scan matches the feature at position [i], the result in
    the default mode is the object with [continent_code], [country_a2],
    [country_a3] and [region_code] read from [cont_code], [iso_a2],
    [adm0_a3] and [region_code] of that feature, followed by [state_code]
    set to [iso_3166_2] when that code is not empty and does not end with
    the tilde; otherwise the object has no [state_code] key at all. *)
Theorem derived_properties lat lng i :
  fst (features_loop admin1_features (lng, lat) 0 false) = (i, true) ->
  exists f,
    nth_error admin1_features i = Some f /\
    let props := Geo.properties f in
    let base := [("continent_code", Geo.cont_code props);
                 ("country_a2", Geo.iso_a2 props);
                 ("country_a3", Geo.adm0_a3 props);
                 ("region_code", Geo.region_code props)]%string in
    let has_state :=
      Geo.iso_3166_2 props <> ""%string /\
      ~ (exists p, Geo.iso_3166_2 props = (p ++ "~")%string) in
    (has_state ->
     fst (scan_result lat lng DtNull)
     = Geo.VProperties
         (base ++ [("state_code"%string, Geo.iso_3166_2 props)])) /\
    (~ has_state ->
     fst (scan_result lat lng DtNull) = Geo.VProperties base /\
     JsMap.has base "state_code" = false).
Proof.
  rewrite features_loop_spec. simpl. intros [= Hi Hex].
  destruct (leading_misses_hit (contains (lng, lat)) _ Hex)
    as [f [Hnth Hf]].
  rewrite Hi in Hnth. exists f. split; [exact Hnth|].
  rewrite scan_result_spec, Hex, Hi. unfold Geo.build_result.
  rewrite Hnth. simpl. unfold Geo.derive_properties. simpl.
  destruct (String.eqb_spec (Geo.iso_3166_2 (Geo.properties f)) "")
    as [Hempty|Hne]; simpl.
  - split; [intros [Hc _]; contradiction | intros _; now split].
  - destruct (endsWith (Geo.iso_3166_2 (Geo.properties f)) "~") eqn:Hends;
      simpl.
    + apply StringFacts.endsWith_tilde in Hends.
      split; [intros [_ Hc]; contradiction | intros _; now split].
    + split; [reflexivity|]. intros Hc. exfalso. apply Hc.
      split; [exact Hne|]. intros Hp.
      apply StringFacts.endsWith_tilde in Hp. congruence.
Qed.

End WithIndex.
End ScanFacts.

(* ===================================================================== *)
(** ** Facts about the cached lookup *)
(* ===================================================================== *)

Module LookupFacts.

Section Entries.
Variable D : Type.
Variable JSON_stringify : D -> string.
Implicit Types (c : LRU.LRUCache D) (x : string * LRU.Entry D).

Lemma cache_remove_In c k x :
  In x (LRU.cache (LRU.remove c k)) -> In x (LRU.cache c).
Proof.
  unfold LRU.remove.
  destruct (JsMap.has (LRU.cache c) k); [|auto].
  destruct (JsMap.get (LRU.cache c) k); simpl; [|auto].
  apply JsMapFacts.delete_In.
Qed.

Lemma cache_get_In c k x :
  In x (LRU.cache (snd (LRU.get c k))) -> In x (LRU.cache c).
Proof.
  unfold LRU.get.
  destruct (negb (JsMap.has (LRU.cache c) k)); [auto|].
  destruct (JsMap.get (LRU.cache c) k) as [value|] eqn:G; simpl; [|auto].
  intros Hin. apply JsMapFacts.set_In in Hin as [-> | Hin].
  - now apply JsMapFacts.get_In.
  - eapply JsMapFacts.delete_In; eauto.
Qed.

Lemma get_value_In c k v :
  fst (LRU.get c k) = Some v ->
  exists e, In (k, e) (LRU.cache c) /\ LRU.data e = v.
Proof.
  unfold LRU.get.
  destruct (negb (JsMap.has (LRU.cache c) k)); [discriminate|].
  destruct (JsMap.get (LRU.cache c) k) as [value|] eqn:G; simpl;
    [|discriminate].
  intros [= <-]. exists value. split; [|reflexivity].
  now apply JsMapFacts.get_In.
Qed.

Lemma cache_set_In c k d x :
  In x (LRU.cache (LRU.set JSON_stringify c k d)) ->
  x = (k, {| LRU.data := d; LRU.size := LRU._getSize JSON_stringify d |}) \/
  In x (LRU.cache c).
Proof.
  unfold LRU.set. simpl. intros Hin.
  apply JsMapFacts.set_In in Hin as [-> | Hin]; [now left|]. right.
  match type of Hin with
  | In _ (LRU.cache (LRU.evict ?fuel ?sz ?c1)) =>
      destruct (LRUFacts.evict_suffix D sz fuel c1) as [dropped Hd];
      assert (Hc1 : In x (LRU.cache c1))
        by (rewrite Hd; apply in_or_app; now right)
  end.
  destruct (JsMap.has (LRU.cache c) k); [|exact Hc1].
  eapply cache_remove_In; eauto.
Qed.

End Entries.

Section WithIndex.
Variable number : Type.
Variable numberToString : number -> string.
Variable Json : Type.
Variable json_truthy : Json -> bool.
Variable pointInPolygon : Geo.Ring number -> Geo.Point number -> bool.
Variable admin1_features : list (Geo.Feature number).
Variable JSON_stringify : Geo.Value number Json -> string.
Variable read_json : string -> option Json.

(** The text of a number has no underscore and no slash. *)
Hypothesis number_text_clean : forall n,
  occurs "_" (numberToString n) = false /\
  occurs "/" (numberToString n) = false.

(** Numbers with the same text are the same to [pointInPolygon]. *)
Hypothesis key_sound : forall lat lat' lng lng',
  numberToString lat = numberToString lat' ->
  numberToString lng = numberToString lng' ->
  forall ring,
    pointInPolygon ring (lng, lat) = pointInPolygon ring (lng', lat').

Local Abbreviation World := (Geo.World number Json).
Local Abbreviation Value := (Geo.Value number Json).
Local Abbreviation cacheKey := (@Geo.cacheKey number numberToString).
Local Abbreviation truthy := (@Geo.truthy number Json json_truthy).
Local Abbreviation features_loop :=
  (@Geo.features_loop number pointInPolygon).
Local Abbreviation containsPoint :=
  (@Geo.containsPoint number pointInPolygon).
Local Abbreviation geometry_rings :=
  (@Geo.geometry_rings number pointInPolygon).
Local Abbreviation scan_result :=
  (@Geo.scan_result number Json pointInPolygon admin1_features).
Local Abbreviation cache_lookup :=
  (@Geo.cache_lookup number Json json_truthy).
Local Abbreviation reverseGeolocation :=
  (@Geo.reverseGeolocation number numberToString Json json_truthy
     pointInPolygon admin1_features JSON_stringify).
Local Abbreviation readJSONFile :=
  (@Geo.readJSONFile number Json json_truthy JSON_stringify read_json).
Local Abbreviation call_step :=
  (@Geo.call_step number numberToString Json json_truthy pointInPolygon
     admin1_features JSON_stringify read_json).
Local Abbreviation run_calls :=
  (@Geo.run_calls number numberToString Json json_truthy pointInPolygon
     admin1_features JSON_stringify read_json).
Local Abbreviation entry_coherent :=
  (@Geo.entry_coherent number numberToString Json json_truthy
     pointInPolygon admin1_features).
Local Abbreviation entries_coherent :=
  (@Geo.entries_coherent number numberToString Json json_truthy
     pointInPolygon admin1_features).
Local Abbreviation coherent :=
  (@Geo.coherent number numberToString Json json_truthy
     pointInPolygon admin1_features).

Implicit Types (w : World) (c : LRU.LRUCache Value) (v : Value).

(** *** Keys *)

Lemma cacheKey_inj lat lng dataType lat' lng' dataType' :
  cacheKey lat lng dataType = cacheKey lat' lng' dataType' ->
  numberToString lat = numberToString lat' /\
  numberToString lng = numberToString lng' /\
  dataType = dataType'.
Proof.
  unfold Geo.cacheKey. intros Heq.
  change ("_" ++ ?s)%string with (String "_" s) in Heq.
  apply StringFacts.split_at_first in Heq as [H1 Heq];
    try apply number_text_clean.
  change ("_" ++ ?s)%string with (String "_" s) in Heq.
  apply StringFacts.split_at_first in Heq as [H2 Heq];
    try apply number_text_clean.
  apply StringFacts.DataType_toString_inj in Heq. auto.
Qed.

Lemma cacheKey_not_path lat lng dataType rest :
  cacheKey lat lng dataType <> String "/" rest.
Proof.
  unfold Geo.cacheKey. destruct (number_text_clean lat) as [_ Hslash].
  destruct (numberToString lat) as [|a s]; simpl; [discriminate|].
  simpl in Hslash. apply orb_false_iff in Hslash as [Ha _].
  intros [= -> _]. discriminate.
Qed.

(** *** The scan depends on the point through [pointInPolygon] only *)

Section SamePoint.
Variables point point' : Geo.Point number.
Hypothesis same : forall ring,
  pointInPolygon ring point = pointInPolygon ring point'.

Lemma holes_loop_ext holes :
  Geo.holes_loop pointInPolygon holes point
  = Geo.holes_loop pointInPolygon holes point'.
Proof.
  induction holes as [|hole rest IH]; simpl; [reflexivity|].
  now rewrite same, IH.
Qed.

Lemma polygon_test_ext coords :
  Geo.polygon_test pointInPolygon coords point
  = Geo.polygon_test pointInPolygon coords point'.
Proof. unfold Geo.polygon_test. now rewrite same, holes_loop_ext. Qed.

Lemma multi_loop_ext polys : forall found,
  Geo.multi_loop pointInPolygon polys point found
  = Geo.multi_loop pointInPolygon polys point' found.
Proof.
  induction polys as [|coords rest IH]; intros found; simpl;
    [reflexivity|].
  rewrite polygon_test_ext.
  destruct (Geo.polygon_test pointInPolygon coords point') as [[|] log];
    [reflexivity|].
  now rewrite IH.
Qed.

Lemma geometry_test_ext g found :
  Geo.geometry_test pointInPolygon g point found
  = Geo.geometry_test pointInPolygon g point' found.
Proof.
  destruct g; simpl;
    [apply polygon_test_ext | apply multi_loop_ext | reflexivity].
Qed.

Lemma features_loop_ext features : forall i found,
  features_loop features point i found
  = features_loop features point' i found.
Proof.
  induction features as [|f rest IH]; intros i found; simpl;
    [reflexivity|].
  rewrite geometry_test_ext.
  destruct (Geo.geometry_test pointInPolygon (Geo.geometry f) point' found)
    as [[|] log]; [reflexivity|].
  now rewrite IH.
Qed.
End SamePoint.

Lemma scan_result_same_key lat lng dataType lat' lng' dataType' :
  cacheKey lat lng dataType = cacheKey lat' lng' dataType' ->
  scan_result lat lng dataType = scan_result lat' lng' dataType'.
Proof.
  intros Hkey. apply cacheKey_inj in Hkey as (Hlat & Hlng & <-).
  unfold Geo.scan_result.
  now rewrite (features_loop_ext (lng, lat) (lng', lat')
                 (key_sound _ _ _ _ Hlat Hlng)).
Qed.

(** *** Coherence of the cache with the index *)

Lemma scan_entry_coherent lat lng dataType :
  truthy (fst (scan_result lat lng dataType)) = true ->
  entry_coherent (cacheKey lat lng dataType)
                 (fst (scan_result lat lng dataType)).
Proof.
  intros Ht lat' lng' dataType' Hkey.
  now rewrite (scan_result_same_key _ _ _ _ _ _ Hkey) in *.
Qed.

Lemma path_entry_coherent rest v : entry_coherent (String "/" rest) v.
Proof.
  intros lat lng dataType Hkey. symmetry in Hkey.
  now apply cacheKey_not_path in Hkey.
Qed.

Lemma coherent_initial : coherent (Geo.initial number Json).
Proof. intros c H. discriminate. Qed.

Lemma coherent_with_instance w c :
  entries_coherent c -> coherent (Geo.with_instance w c).
Proof. intros Hc c' [= <-]. exact Hc. Qed.

Lemma config_cache_instance w c :
  Geo.config_cache w = Some c -> Geo.cacheInstance w = Some c.
Proof.
  unfold Geo.config_cache. now destruct (Geo.cache_ref (Geo.config w)).
Qed.

Lemma with_instance_same w c :
  Geo.cacheInstance w = Some c -> Geo.with_instance w c = w.
Proof. destruct w as [inst cfg]. simpl. now intros ->. Qed.

Lemma config_cache_with_instance w c c' :
  Geo.config_cache w = Some c ->
  Geo.config_cache (Geo.with_instance w c') = Some c'.
Proof.
  unfold Geo.config_cache. simpl.
  destruct (Geo.cache_ref (Geo.config w)); [discriminate | reflexivity].
Qed.

Lemma entries_coherent_get c key :
  entries_coherent c -> entries_coherent (snd (LRU.get c key)).
Proof. intros Hc k e Hin. apply Hc. eapply cache_get_In; eauto. Qed.

Lemma entries_coherent_set c key v :
  entry_coherent key v -> entries_coherent c ->
  entries_coherent (LRU.set JSON_stringify c key v).
Proof.
  intros Hv Hc k e Hin. apply cache_set_In in Hin as [[= -> ->] | Hin].
  - exact Hv.
  - now apply Hc.
Qed.

Lemma cache_lookup_coherent w key :
  coherent w -> coherent (snd (fst (cache_lookup w key))).
Proof.
  intros Hw. unfold Geo.cache_lookup.
  destruct (Geo.config_cache w) as [c|] eqn:Hcfg; [|exact Hw].
  pose proof (entries_coherent_get c key
                (Hw _ (config_cache_instance _ _ Hcfg))) as Hget.
  destruct (LRU.get c key) as [cached c']. simpl in *.
  now apply coherent_with_instance.
Qed.

Lemma cache_lookup_hit w key v :
  coherent w -> fst (fst (cache_lookup w key)) = Some v ->
  entry_coherent key v.
Proof.
  intros Hw. unfold Geo.cache_lookup.
  destruct (Geo.config_cache w) as [c|] eqn:Hcfg; [|discriminate].
  pose proof (get_value_In _ c key) as Hval.
  destruct (LRU.get c key) as [[cached|] c']; simpl in *; [|discriminate].
  destruct (truthy cached); [|discriminate]. intros [= <-].
  destruct (Hval _ eq_refl) as [e [Hin <-]].
  exact (Hw _ (config_cache_instance _ _ Hcfg) _ _ Hin).
Qed.

Lemma cache_lookup_config w key :
  Geo.config_cache (snd (fst (cache_lookup w key))) = None \/
  exists c, Geo.config_cache (snd (fst (cache_lookup w key))) = Some c /\
            Geo.cacheInstance (snd (fst (cache_lookup w key))) = Some c.
Proof.
  destruct (Geo.config_cache (snd (fst (cache_lookup w key)))) as [c|] eqn:H;
    [right | now left].
  exists c. split; [reflexivity | now apply config_cache_instance].
Qed.

Lemma reverseGeolocation_coherent w lat lng dataType :
  coherent w ->
  coherent (Geo.world_of (reverseGeolocation w lat lng dataType)).
Proof.
  intros Hw. unfold Geo.reverseGeolocation, Geo.world_of.
  destruct lat as [| |?|lat'|?|?]; try exact Hw.
  destruct lng as [| |?|lng'|?|?]; try exact Hw.
  pose proof (cache_lookup_coherent w (cacheKey lat' lng' dataType) Hw)
    as Hw1.
  destruct (cache_lookup w (cacheKey lat' lng' dataType))
    as [[[cached|] w1] log1]; simpl in *; [exact Hw1|].
  pose proof (scan_entry_coherent lat' lng' dataType) as Hnew.
  destruct (scan_result lat' lng' dataType) as [result log2]. simpl in *.
  destruct (Geo.config_cache w1) as [c|] eqn:Hcfg; [|exact Hw1].
  destruct (truthy result); [|exact Hw1]. simpl.
  apply coherent_with_instance, entries_coherent_set; [now apply Hnew|].
  exact (Hw1 _ (config_cache_instance _ _ Hcfg)).
Qed.

Lemma readJSONFile_coherent w rest :
  coherent w ->
  coherent (Geo.world_of (readJSONFile w (String "/" rest))).
Proof.
  intros Hw. unfold Geo.readJSONFile, Geo.world_of.
  pose proof (cache_lookup_coherent w (String "/" rest) Hw) as Hw1.
  destruct (cache_lookup w (String "/" rest))
    as [[[cached|] w1] log1]; simpl in *; [exact Hw1|].
  destruct (read_json (String "/" rest)) as [parsed|]; [|exact Hw1].
  destruct (Geo.config_cache w1) as [c|] eqn:Hcfg; [|exact Hw1]. simpl.
  apply coherent_with_instance, entries_coherent_set.
  - apply path_entry_coherent.
  - exact (Hw1 _ (config_cache_instance _ _ Hcfg)).
Qed.

Lemma configure_instance w options :
  Geo.cacheInstance (Geo.configure w options) =
  match Geo.cacheInstance w, Geo.opt_cacheSize options with
  | Some c, _ => Some c
  | None, Some n => Some (LRU.new Value (Some n))
  | None, None => None
  end.
Proof.
  unfold Geo.configure, Geo.getCache. simpl.
  destruct (Geo.opt_cacheSize options) as [n|];
    destruct (Geo.opt_useOptimized options) as [b|];
    destruct (Geo.cacheInstance w) as [c0|]; reflexivity.
Qed.

Lemma configure_coherent w options :
  coherent w -> coherent (Geo.configure w options).
Proof.
  intros Hw c. rewrite configure_instance.
  destruct (Geo.cacheInstance w) as [c0|] eqn:Hinst.
  - intros [= <-]. now apply Hw.
  - destruct (Geo.opt_cacheSize options); [|discriminate].
    intros [= <-] k e [].
Qed.

Lemma clearCache_coherent w : coherent w -> coherent (Geo.clearCache w).
Proof.
  intros Hw. unfold Geo.clearCache.
  destruct (Geo.config_cache w) as [c|]; [|exact Hw].
  apply coherent_with_instance. intros k e [].
Qed.

Lemma call_step_coherent w call : coherent w -> coherent (call_step w call).
Proof.
  intros Hw. destruct call; simpl.
  - now apply configure_coherent.
  - now apply reverseGeolocation_coherent.
  - now apply reverseGeolocation_coherent.
  - now apply reverseGeolocation_coherent.
  - now apply readJSONFile_coherent.
  - now apply readJSONFile_coherent.
  - now apply readJSONFile_coherent.
  - now apply readJSONFile_coherent.
  - now apply clearCache_coherent.
Qed.

Lemma run_calls_coherent calls : forall w,
  coherent w -> coherent (run_calls calls w).
Proof.
  unfold Geo.run_calls.
  induction calls as [|call calls IH]; intros w Hw; simpl; [exact Hw|].
  now apply IH, call_step_coherent.
Qed.

(** With a coherent cache a lookup returns what the scan builds. *)
Lemma reverseGeolocation_value w lat lng dataType :
  coherent w ->
  Geo.value_of (reverseGeolocation w (Geo.JNumber lat) (Geo.JNumber lng)
                                   dataType)
  = fst (scan_result lat lng dataType).
Proof.
  intros Hw. unfold Geo.reverseGeolocation, Geo.value_of.
  pose proof (cache_lookup_hit w (cacheKey lat lng dataType)) as Hhit.
  destruct (cache_lookup w (cacheKey lat lng dataType))
    as [[[cached|] w1] log1]; simpl in *.
  - now destruct (Hhit _ Hw eq_refl _ _ _ eq_refl).
  - destruct (scan_result lat lng dataType) as [result log2]. simpl.
    destruct (Geo.config_cache w1); [|reflexivity].
    now destruct (truthy result).
Qed.

(** *** Misses *)

Lemma existsb_none {A} (p : A -> bool) (l : list A) :
  (forall x, In x l -> p x = false) -> existsb p l = false.
Proof.
  induction l as [|y rest IH]; simpl; [reflexivity|].
  intros H. rewrite (H y) by now left. apply IH. intros x Hx. apply H.
  now right.
Qed.

Lemma through_first_none {A} (p : A -> bool) (l : list A) :
  existsb p l = false -> Geo.through_first p l = l.
Proof.
  induction l as [|y rest IH]; simpl; [reflexivity|].
  destruct (p y); simpl; [discriminate|]. intros H. now rewrite IH.
Qed.

Lemma cache_lookup_miss w lat lng dataType :
  coherent w ->
  fst (scan_result lat lng dataType) = Geo.VNull ->
  cache_lookup w (cacheKey lat lng dataType) =
  (None, w,
   match Geo.config_cache w with
   | Some _ => [Geo.CacheGet (cacheKey lat lng dataType)]
   | None => []
   end).
Proof.
  intros Hw Hnull. unfold Geo.cache_lookup.
  destruct (Geo.config_cache w) as [c|] eqn:Hcfg; [|reflexivity].
  apply config_cache_instance in Hcfg.
  destruct (JsMap.has (LRU.cache c) (cacheKey lat lng dataType)) eqn:Hhas.
  - exfalso. apply JsMapFacts.has_true_get in Hhas as [e G].
    apply JsMapFacts.get_In in G.
    destruct (Hw _ Hcfg _ _ G lat lng dataType eq_refl) as [Hv Ht].
    rewrite Hnull in Hv. rewrite Hv in Ht. discriminate.
  - rewrite LRUFacts.get_absent by assumption.
    now rewrite with_instance_same.
Qed.

(** C7: after any calls of the exported operations, a lookup of a
    coordinate that no feature holds returns [null] in each of the three
    modes and leaves the module state, the cache included, as it was: the
    log shows the cache read (when a cache is configured) followed by the
    ring tests of every feature and no cache write, and the same lookup
    made again does the same. *)
Theorem miss_is_null_and_not_cached calls lat lng :
  (forall f, In f admin1_features ->
             containsPoint (Geo.geometry f) (lng, lat) = false) ->
  let w := run_calls calls (Geo.initial number Json) in
  forall dataType,
    let r := reverseGeolocation w (Geo.JNumber lat) (Geo.JNumber lng)
                                dataType in
    r = (Geo.VNull, w,
         match Geo.config_cache w with
         | Some _ => [Geo.CacheGet (cacheKey lat lng dataType)]
         | None => []
         end
         ++ map Geo.RingTest
              (flat_map (fun f => geometry_rings (Geo.geometry f) (lng, lat))
                        admin1_features)) /\
    reverseGeolocation (Geo.world_of r) (Geo.JNumber lat) (Geo.JNumber lng)
                       dataType = r.
Proof.
  intros Hnone w dataType.
  assert (Hw : coherent w) by apply run_calls_coherent, coherent_initial.
  assert (Hex : existsb (fun f => containsPoint (Geo.geometry f) (lng, lat))
                        admin1_features = false)
    by now apply existsb_none.
  assert (Hscan : scan_result lat lng dataType =
                  (Geo.VNull,
                   map Geo.RingTest
                     (flat_map
                        (fun f => geometry_rings (Geo.geometry f) (lng, lat))
                        admin1_features))).
  { rewrite ScanFacts.scan_result_spec, Hex.
    now rewrite through_first_none. }
  assert (Hr : reverseGeolocation w (Geo.JNumber lat) (Geo.JNumber lng)
                                  dataType
               = (Geo.VNull, w,
                  match Geo.config_cache w with
                  | Some _ => [Geo.CacheGet (cacheKey lat lng dataType)]
                  | None => []
                  end
                  ++ map Geo.RingTest
                       (flat_map
                          (fun f => geometry_rings (Geo.geometry f) (lng, lat))
                          admin1_features))).
  { unfold Geo.reverseGeolocation.
    rewrite cache_lookup_miss by (rewrite ?Hscan; auto).
    rewrite Hscan. simpl. now destruct (Geo.config_cache w). }
  cbv zeta. rewrite Hr. split; [reflexivity|]. exact Hr.
Qed.

(** C9: for every input [(lat, lng, dataType)] and any two histories of
    calls of the exported operations (configuration, lookups, file reads,
    clearing), the lookup returns the same value after either history;
    for numeric coordinates it is the value the scan of the index builds,
    whether it comes from the cache or from a scan. *)
Theorem lookup_deterministic calls1 calls2 lat lng dataType :
  Geo.value_of (reverseGeolocation
                  (run_calls calls1 (Geo.initial number Json))
                  lat lng dataType)
  = Geo.value_of (reverseGeolocation
                    (run_calls calls2 (Geo.initial number Json))
                    lat lng dataType) /\
  (forall lat' lng', lat = Geo.JNumber lat' -> lng = Geo.JNumber lng' ->
     Geo.value_of (reverseGeolocation
                     (run_calls calls1 (Geo.initial number Json))
                     lat lng dataType)
     = fst (scan_result lat' lng' dataType)).
Proof.
  assert (Hw : forall calls,
             coherent (run_calls calls (Geo.initial number Json)))
    by (intros calls; apply run_calls_coherent, coherent_initial).
  split.
  - destruct lat as [| |?|lat'|?|?]; try reflexivity.
    destruct lng as [| |?|lng'|?|?]; try reflexivity.
    now rewrite !reverseGeolocation_value by apply Hw.
  - intros lat' lng' -> ->. now apply reverseGeolocation_value.
Qed.

(** C10: once [cacheInstance] holds a cache [c], any sequence of
    [configure] calls leaves it holding [c], with the same capacity,
    entries and counter.  A call that passes a [cacheSize] records it in
    [config.cacheSize] and points [config.cache] to [c], but the capacity
    of [c] stays; only a call made while no instance exists creates one,
    with the capacity it passes. *)
Theorem configure_keeps_singleton (w : World) c :
  Geo.cacheInstance w = Some c ->
  (forall optionss,
     Geo.cacheInstance (fold_left (@Geo.configure number Json) optionss w)
     = Some c) /\
  (forall options n,
     Geo.opt_cacheSize options = Some n ->
     Geo.cacheSize (Geo.config (Geo.configure w options)) = n /\
     Geo.config_cache (Geo.configure w options) = Some c /\
     Geo.cacheInstance (Geo.configure w options) = Some c) /\
  (forall (w0 : World) options n,
     Geo.cacheInstance w0 = None ->
     Geo.opt_cacheSize options = Some n ->
     Geo.config_cache (Geo.configure w0 options)
     = Some {| LRU.maxSize := n; LRU.currentSize := 0; LRU.cache := [] |}).
Proof.
  intros Hinst. split; [|split].
  - intros optionss. revert w Hinst.
    induction optionss as [|options rest IH]; intros w Hinst; simpl;
      [exact Hinst|].
    apply IH. rewrite configure_instance. now rewrite Hinst.
  - intros options n Hn. unfold Geo.configure, Geo.getCache, Geo.config_cache.
    rewrite Hn, Hinst. simpl.
    destruct (Geo.opt_useOptimized options); simpl; rewrite ?Hinst; auto.
  - intros w0 options n Hnone Hn.
    unfold Geo.configure, Geo.getCache, Geo.config_cache.
    rewrite Hn. simpl. rewrite Hnone. simpl.
    destruct (Geo.opt_useOptimized options); reflexivity.
Qed.

End WithIndex.
End LookupFacts.

(* ===================================================================== *)
(** ** The concrete instance meets the assumptions on numbers *)
(* ===================================================================== *)

Module SampleFacts.

Lemma string_of_uint_clean d :
  occurs "_" (NilEmpty.string_of_uint d) = false /\
  occurs "/" (NilEmpty.string_of_uint d) = false.
Proof. induction d; simpl; try destruct IHd; auto. Qed.

Lemma numberToString_clean n :
  occurs "_" (Sample.numberToString n) = false /\
  occurs "/" (Sample.numberToString n) = false.
Proof.
  unfold Sample.numberToString.
  destruct (Z.to_int n) as [d|d]; simpl; apply string_of_uint_clean.
Qed.

Lemma numberToString_inj a b :
  Sample.numberToString a = Sample.numberToString b -> a = b.
Proof.
  unfold Sample.numberToString. intros H.
  apply (f_equal NilEmpty.int_of_string) in H.
  rewrite !NilEmpty.isi in H. injection H as H.
  apply (f_equal Z.of_int) in H. now rewrite !DecimalZ.of_to in H.
Qed.

Lemma key_sound lat lat' lng lng' :
  Sample.numberToString lat = Sample.numberToString lat' ->
  Sample.numberToString lng = Sample.numberToString lng' ->
  forall ring,
    Sample.pointInRing ring (lng, lat) = Sample.pointInRing ring (lng', lat').
Proof.
  intros H1 H2 ring.
  now rewrite (numberToString_inj _ _ H1), (numberToString_inj _ _ H2).
Qed.

Lemma cache_ab_wf : JsMap.wf (LRU.cache Sample.cache_ab).
Proof.
  unfold JsMap.wf. simpl.
  repeat constructor; simpl; intuition discriminate.
Qed.

End SampleFacts.

(* ===================================================================== *)
(** ** The embedding run on the sample index and on small caches *)
(* ===================================================================== *)

Module SampleRuns.
Local Open Scope string_scope.

Local Abbreviation lookup :=
  (Geo.reverseGeolocation Sample.numberToString Sample.json_truthy
     Sample.pointInRing Sample.features Sample.JSON_stringify).

(** A point in the hole of the first feature falls through to the second,
    whose subdivision code ends with the tilde and is left out. *)
Example hole_falls_through :
  Geo.value_of (lookup (Geo.initial Z Sample.Json)
                       (Geo.JNumber 5%Z) (Geo.JNumber 5%Z) DtNull)
  = Geo.VProperties [("continent_code", "EU"); ("country_a2", "BB");
                     ("country_a3", "BBB"); ("region_code", "BB-S")].
Proof. reflexivity. Qed.

(** A point in both squares resolves to the earlier feature. *)
Example earlier_feature_wins :
  Geo.value_of (lookup (Geo.initial Z Sample.Json)
                       (Geo.JNumber 8%Z) (Geo.JNumber 8%Z) DtNull)
  = Geo.VProperties [("continent_code", "EU"); ("country_a2", "AA");
                     ("country_a3", "AAA"); ("region_code", "AA-N");
                     ("state_code", "AA-01")].
Proof. reflexivity. Qed.

(** The second sub-polygon of a multipolygon is reached when the first
    fails; an empty subdivision code is left out. *)
Example second_subpolygon_matches :
  Geo.geometry_test Sample.pointInRing (Geo.geometry Sample.feature_CC)
                    (1, 1)%Z false
  = (true, [Geo.RingTest (Sample.square 20 22);
            Geo.RingTest (Sample.square 0 10)]) /\
  Geo.derive_properties (Geo.properties Sample.feature_CC)
  = [("continent_code", "AS"); ("country_a2", "CC");
     ("country_a3", "CCC"); ("region_code", "CC-W")].
Proof. split; reflexivity. Qed.

(** A third entry of two bytes fits after the oldest of two entries of
    four bytes leaves a cache of ten. *)
Example oldest_entry_evicted :
  LRU.set Sample.text Sample.cache_ab "c" "zz"
  = {| LRU.maxSize := 10%Z; LRU.currentSize := 8%Z;
       LRU.cache := [("b", {| LRU.data := "yy"; LRU.size := 4%Z |});
                     ("c", {| LRU.data := "zz"; LRU.size := 4%Z |})] |}.
Proof. reflexivity. Qed.

(** After a read of ["a"], it is ["b"] that leaves. *)
Example read_entry_survives :
  LRU.set Sample.text (snd (LRU.get Sample.cache_ab "a")) "c" "zz"
  = {| LRU.maxSize := 10%Z; LRU.currentSize := 8%Z;
       LRU.cache := [("a", {| LRU.data := "xx"; LRU.size := 4%Z |});
                     ("c", {| LRU.data := "zz"; LRU.size := 4%Z |})] |}.
Proof. reflexivity. Qed.

(** An entry of twelve bytes empties the cache of ten and is stored. *)
Example oversized_entry_stored :
  LRU.set Sample.text Sample.cache_ab "c" "zzzzzz"
  = {| LRU.maxSize := 10%Z; LRU.currentSize := 12%Z;
       LRU.cache := [("c", {| LRU.data := "zzzzzz"; LRU.size := 12%Z |})] |}.
Proof. reflexivity. Qed.

End SampleRuns.

(* ===================================================================== *)
(** ** The theorems at concrete inputs *)
(* ===================================================================== *)

Module Witnesses.

Local Open Scope string_scope.

Local Abbreviation lookup :=
  (Geo.reverseGeolocation Sample.numberToString Sample.json_truthy
     Sample.pointInRing Sample.features Sample.JSON_stringify).
Local Abbreviation history :=
  (Geo.run_calls Sample.numberToString Sample.json_truthy
     Sample.pointInRing Sample.features Sample.JSON_stringify
     Sample.read_json).
Local Abbreviation scan :=
  (Geo.scan_result Sample.Json Sample.pointInRing Sample.features).
Local Abbreviation holds :=
  (Geo.containsPoint Sample.pointInRing).

(** The point (8, 8) is in the first two features of the sample index;
    the first one wins. *)
Lemma first_match_wins_witness :
  (0 < 1)%nat /\
  holds (Geo.geometry Sample.feature_AA) (8, 8)%Z = true /\
  holds (Geo.geometry Sample.feature_BB) (8, 8)%Z = true /\
  exists i f,
    i <= 0 /\ nth_error Sample.features i = Some f /\
    holds (Geo.geometry f) (8, 8)%Z = true /\
    (forall j fj, j < i -> nth_error Sample.features j = Some fj ->
                  holds (Geo.geometry fj) (8, 8)%Z = false) /\
    Geo.features_loop Sample.pointInRing Sample.features (8, 8)%Z 0 false =
    ((i, true),
     map Geo.RingTest
         (flat_map
            (fun f0 => Geo.geometry_rings Sample.pointInRing
                         (Geo.geometry f0) (8, 8)%Z)
            (firstn (S i) Sample.features))) /\
    fst (scan 8%Z 8%Z DtNull)
      = Geo.VProperties (Geo.derive_properties (Geo.properties f)) /\
    fst (scan 8%Z 8%Z DtRaw) = Geo.VRawCollection f /\
    fst (scan 8%Z 8%Z DtGeojson)
      = Geo.VGeoCollection (Geo.derive_properties (Geo.properties f))
                           (Geo.geometry f).
Proof.
  split; [lia|]. split; [reflexivity|]. split; [reflexivity|].
  apply (ScanFacts.first_match_wins Z Sample.Json Sample.pointInRing
           Sample.features 8%Z 8%Z 0 1 Sample.feature_AA Sample.feature_BB);
    [lia | reflexivity | reflexivity | reflexivity | reflexivity].
Defined.

(** [lookUp("x", 10)] against the sample index. *)
Lemma wrong_coordinates_returned_witness :
  (Geo.typeof_number (Geo.JString (number := Z) "x") = false \/
   Geo.typeof_number (Geo.JNumber 10%Z) = false) /\
  lookup (Sample.configured 1000) (Geo.JString "x") (Geo.JNumber 10%Z) DtNull
  = (Geo.VError "Wrong coordinates (lat: x,lng: 10)",
     Sample.configured 1000, []).
Proof.
  split; [left; reflexivity|].
  apply (ScanFacts.wrong_coordinates_returned Z Sample.numberToString
           Sample.Json Sample.json_truthy Sample.pointInRing Sample.features
           Sample.JSON_stringify (Sample.configured 1000)
           (Geo.JString "x") (Geo.JNumber 10%Z) DtNull).
  left; reflexivity.
Defined.

(** An entry of twelve bytes set into a cache of ten that holds eight. *)
Lemma set_follows_spec_witness :
  JsMap.wf (LRU.cache Sample.cache_ab) /\
  LRU.set Sample.text Sample.cache_ab "c" "zzzzzz"
  = LRUSpec.set_spec Sample.text Sample.cache_ab "c" "zzzzzz".
Proof.
  assert (Hwf : JsMap.wf (LRU.cache Sample.cache_ab)).
  { unfold JsMap.wf. simpl. repeat constructor; simpl; intuition discriminate. }
  split; [exact Hwf|].
  exact (proj1 (LRUFacts.set_follows_spec string Sample.text
                  Sample.cache_ab "c" "zzzzzz" Hwf)).
Defined.

Lemma size_counter_exact_and_bounded_witness :
  (0 <= 10)%Z /\
  LRU.currentSize (LRUSpec.run Sample.text Sample.ops_abc
                               (LRU.new string (Some 10%Z)))
  = LRU.total_size
      (LRU.cache (LRUSpec.run Sample.text Sample.ops_abc
                              (LRU.new string (Some 10%Z)))).
Proof.
  split; [lia|].
  assert (Hcap : (0 <= 10)%Z) by lia.
  exact (proj1 (LRUFacts.size_counter_exact_and_bounded string Sample.text
                  10%Z Sample.ops_abc Hcap)).
Defined.

(** Reading ["a"] from the cache that holds ["a"] then ["b"]. *)
Lemma get_promotes_witness :
  JsMap.wf (LRU.cache Sample.cache_ab) /\
  JsMap.get (LRU.cache Sample.cache_ab) "a"
    = Some {| LRU.data := "xx"%string; LRU.size := 4%Z |} /\
  LRU.get Sample.cache_ab "a"
  = (Some "xx"%string,
     {| LRU.maxSize := 10%Z;
        LRU.currentSize := 8%Z;
        LRU.cache :=
          [("b"%string, {| LRU.data := "yy"%string; LRU.size := 4%Z |});
           ("a"%string, {| LRU.data := "xx"%string; LRU.size := 4%Z |})] |}).
Proof.
  assert (Hwf : JsMap.wf (LRU.cache Sample.cache_ab)).
  { unfold JsMap.wf. simpl. repeat constructor; simpl; intuition discriminate. }
  split; [exact Hwf|]. split; [reflexivity|].
  apply (proj1 (LRUFacts.get_promotes string Sample.text Sample.cache_ab
                  "a" Hwf)
               {| LRU.data := "xx"%string; LRU.size := 4%Z |}).
  reflexivity.
Defined.

(** The ocean point (lat 0, lng -170) after the cache has been filled. *)
Lemma miss_is_null_and_not_cached_witness :
  (forall f, In f Sample.features ->
             holds (Geo.geometry f) (-170, 0)%Z = false) /\
  lookup (history Sample.calls_warm (Geo.initial Z Sample.Json))
         (Geo.JNumber 0%Z) (Geo.JNumber (-170)%Z) DtGeojson
  = (Geo.VNull, history Sample.calls_warm (Geo.initial Z Sample.Json),
     [Geo.CacheGet "0_-170_geojson";
      Geo.RingTest (Sample.square 0 10);
      Geo.RingTest (Sample.square 3 13);
      Geo.RingTest (Sample.square 20 22);
      Geo.RingTest (Sample.square 0 10)]).
Proof.
  assert (Hnone : forall f, In f Sample.features ->
                            holds (Geo.geometry f) (-170, 0)%Z = false).
  { intros f [<-|[<-|[<-|[]]]]; reflexivity. }
  split; [exact Hnone|].
  apply (LookupFacts.miss_is_null_and_not_cached Z Sample.numberToString
           Sample.Json Sample.json_truthy Sample.pointInRing Sample.features
           Sample.JSON_stringify Sample.read_json
           SampleFacts.numberToString_clean SampleFacts.key_sound
           Sample.calls_warm 0%Z (-170)%Z Hnone DtGeojson).
Defined.

(** The point (8, 8) matches the feature at position 0, whose
    subdivision code is kept. *)
Lemma derived_properties_witness :
  fst (Geo.features_loop Sample.pointInRing Sample.features (8, 8)%Z 0 false)
    = (0, true) /\
  exists f,
    nth_error Sample.features 0 = Some f /\
    let props := Geo.properties f in
    let base := [("continent_code", Geo.cont_code props);
                 ("country_a2", Geo.iso_a2 props);
                 ("country_a3", Geo.adm0_a3 props);
                 ("region_code", Geo.region_code props)]%string in
    let has_state :=
      Geo.iso_3166_2 props <> ""%string /\
      ~ (exists p, Geo.iso_3166_2 props = (p ++ "~")%string) in
    (has_state ->
     fst (scan 8%Z 8%Z DtNull)
     = Geo.VProperties
         (base ++ [("state_code"%string, Geo.iso_3166_2 props)])%list) /\
    (~ has_state ->
     fst (scan 8%Z 8%Z DtNull) = Geo.VProperties base /\
     JsMap.has base "state_code" = false).
Proof.
  split; [reflexivity|].
  apply (ScanFacts.derived_properties Z Sample.Json Sample.pointInRing
           Sample.features 8%Z 8%Z 0).
  reflexivity.
Defined.

(** The point (5, 5) looked up in raw mode after a history that cached
    that lookup (a hit) and after one that never made it (a miss). *)
Lemma lookup_deterministic_witness :
  Geo.value_of (lookup (history Sample.calls_warm (Geo.initial Z Sample.Json))
                       (Geo.JNumber 5%Z) (Geo.JNumber 5%Z) DtRaw)
  = Geo.value_of (lookup (history Sample.calls_tight
                                  (Geo.initial Z Sample.Json))
                         (Geo.JNumber 5%Z) (Geo.JNumber 5%Z) DtRaw).
Proof.
  apply (LookupFacts.lookup_deterministic Z Sample.numberToString
           Sample.Json Sample.json_truthy Sample.pointInRing Sample.features
           Sample.JSON_stringify Sample.read_json
           SampleFacts.numberToString_clean SampleFacts.key_sound
           Sample.calls_warm Sample.calls_tight
           (Geo.JNumber 5%Z) (Geo.JNumber 5%Z) DtRaw).
Defined.

(** A second [configure] with another [cacheSize]. *)
Lemma configure_keeps_singleton_witness :
  Geo.cacheInstance (Sample.configured 1000)
    = Some (LRU.new Sample.Value (Some 1000%Z)) /\
  Geo.cacheInstance
    (Geo.configure (Sample.configured 1000)
                   {| Geo.opt_cacheSize := Some 5%Z;
                      Geo.opt_useOptimized := None |})
    = Some (LRU.new Sample.Value (Some 1000%Z)).
Proof.
  split; [reflexivity|].
  apply (proj1 (LookupFacts.configure_keeps_singleton Z Sample.Json
                  (Sample.configured 1000)
                  (LRU.new Sample.Value (Some 1000%Z)) eq_refl)
               [{| Geo.opt_cacheSize := Some 5%Z;
                   Geo.opt_useOptimized := None |}]).
Defined.

End Witnesses.

(* ===================================================================== *)
(** ** More about [LRUCache]: round trips, removal, eviction *)
(* ===================================================================== *)

Module LRUMore.
Section WithData.
Variable D : Type.
Variable JSON_stringify : D -> string.

Local Open Scope Z_scope.

Local Abbreviation Cache := (LRU.LRUCache D).
Local Abbreviation Entries := (JsMap.t (LRU.Entry D)).
Local Abbreviation set := (LRU.set JSON_stringify).
Local Abbreviation size_of := (LRU._getSize JSON_stringify).
Local Abbreviation total_after_replace := (@LRUSpec.total_after_replace D).

Implicit Types (c : Cache) (m : Entries) (key k : string) (d : D).

Lemma get_app_last m k (e : LRU.Entry D) :
  JsMap.has m k = false -> JsMap.get (m ++ [(k, e)]) k = Some e.
Proof.
  induction m as [|[k' e'] rest IH]; simpl.
  - now rewrite String.eqb_refl.
  - destruct (String.eqb k' k); [discriminate | exact IH].
Qed.

Lemma delete_app_last m k (e : LRU.Entry D) :
  JsMap.has m k = false -> JsMap.delete (m ++ [(k, e)]) k = m.
Proof.
  induction m as [|[k' e'] rest IH]; simpl.
  - now rewrite String.eqb_refl.
  - destruct (String.eqb k' k); [discriminate|]. intros H. now rewrite IH.
Qed.

Lemma delete_get_other m k k' :
  k' <> k -> JsMap.get (JsMap.delete m k) k' = JsMap.get m k'.
Proof.
  intros Hne. induction m as [|[k0 e0] rest IH]; simpl; [reflexivity|].
  destruct (String.eqb_spec k0 k) as [->|Hk].
  - destruct (String.eqb_spec k k'); [congruence | reflexivity].
  - simpl. now rewrite IH.
Qed.

Lemma kept_lacks_key capacity new_size total m key :
  JsMap.has m key = false ->
  JsMap.has (snd (LRUSpec.evict_oldest capacity new_size total m)) key = false.
Proof.
  intros Habs.
  destruct (LRUFacts.evict_oldest_spec D capacity new_size m total)
    as [dropped [Hsplit _]].
  rewrite Hsplit, LRUFacts.has_app in Habs. now apply orb_false_iff in Habs.
Qed.

Lemma evict_oldest_room capacity new_size total m :
  total + new_size <= capacity ->
  LRUSpec.evict_oldest capacity new_size total m = (total, m).
Proof.
  intros Hroom. destruct m as [|[k e] rest]; simpl; [reflexivity|].
  destruct (total + new_size >? capacity) eqn:G; [lia | reflexivity].
Qed.

(** Reading back what was just set: for every cache with distinct keys,
    [get(key)] right after [set(key, d)] returns [d] and, the entry being
    the most recent already, leaves the cache as [set] left it. *)
Theorem set_then_get c key d :
  JsMap.wf (LRU.cache c) ->
  LRU.get (set c key d) key = (Some d, set c key d).
Proof.
  intros Hwf. rewrite (LRUFacts.set_unfold D JSON_stringify c key d Hwf).
  set (r := LRUSpec.evict_oldest _ _ _ _).
  assert (Habs : JsMap.has (snd r) key = false)
    by (apply kept_lacks_key; now apply JsMapFacts.delete_has_same).
  unfold LRU.get. simpl.
  rewrite LRUFacts.has_app. simpl. rewrite String.eqb_refl, orb_true_r. simpl.
  rewrite get_app_last by assumption. simpl.
  rewrite delete_app_last by assumption.
  now rewrite JsMapFacts.set_absent.
Qed.

(** [remove(key)] on a cache with distinct keys: afterwards the key is
    absent and [get] answers [null]; every other key keeps its entry; the
    counter drops by the size of the removed entry, by nothing when the key
    was absent; the capacity stays. *)
Theorem remove_forgets c key :
  JsMap.wf (LRU.cache c) ->
  JsMap.has (LRU.cache (LRU.remove c key)) key = false /\
  LRU.get (LRU.remove c key) key = (None, LRU.remove c key) /\
  (forall k', k' <> key ->
     JsMap.get (LRU.cache (LRU.remove c key)) k' = JsMap.get (LRU.cache c) k') /\
  LRU.currentSize (LRU.remove c key)
    = LRU.currentSize c
      - match JsMap.get (LRU.cache c) key with
        | Some e => LRU.size e
        | None => 0
        end /\
  LRU.maxSize (LRU.remove c key) = LRU.maxSize c.
Proof.
  intros Hwf.
  assert (Hgone : JsMap.has (LRU.cache (LRU.remove c key)) key = false).
  { destruct (JsMap.get (LRU.cache c) key) as [e|] eqn:G.
    - rewrite (LRUFacts.remove_present D c key e G). simpl.
      now apply JsMapFacts.delete_has_same.
    - rewrite LRUFacts.remove_absent;
        rewrite JsMapFacts.has_get, G; reflexivity. }
  split; [exact Hgone|]. split; [now apply LRUFacts.get_absent|].
  destruct (JsMap.get (LRU.cache c) key) as [e|] eqn:G.
  - rewrite (LRUFacts.remove_present D c key e G). simpl.
    split; [|split; reflexivity].
    intros k' Hne. now apply delete_get_other.
  - rewrite LRUFacts.remove_absent
      by (rewrite JsMapFacts.has_get, G; reflexivity).
    split; [reflexivity|]. split; [simpl; lia | reflexivity].
Qed.

(** When the new entry fits beside what is there (the old entry of the key
    apart), [set] evicts nothing: every other entry stays, in its order,
    and the new entry comes last. *)
Theorem set_keeps_all_when_room c key d :
  JsMap.wf (LRU.cache c) ->
  total_after_replace c key + size_of d <= LRU.maxSize c ->
  set c key d =
  {| LRU.maxSize := LRU.maxSize c;
     LRU.currentSize := total_after_replace c key + size_of d;
     LRU.cache :=
       LRUSpec.without key (LRU.cache c)
         ++ [(key, {| LRU.data := d; LRU.size := size_of d |})] |}.
Proof.
  intros Hwf Hroom.
  rewrite (LRUFacts.set_unfold D JSON_stringify c key d Hwf).
  rewrite evict_oldest_room by assumption. simpl.
  unfold LRUSpec.without. now rewrite <- JsMapFacts.delete_filter.
Qed.

(** [set] evicts the oldest entries and none without need: what it drops is
    a prefix of the other entries, and each dropped entry, together with
    everything younger and the new entry, exceeded the capacity. *)
Theorem set_evicts_only_for_room c key d :
  JsMap.wf (LRU.cache c) ->
  LRUSpec.size_exact c ->
  exists dropped kept,
    LRUSpec.without key (LRU.cache c) = dropped ++ kept /\
    LRU.cache (set c key d)
      = kept ++ [(key, {| LRU.data := d; LRU.size := size_of d |})] /\
    forall older x younger,
      dropped = older ++ x :: younger ->
      LRU.total_size (x :: younger ++ kept) + size_of d > LRU.maxSize c.
Proof.
  intros Hwf Hex.
  rewrite (LRUFacts.set_unfold D JSON_stringify c key d Hwf). simpl.
  rewrite (LRUFacts.total_after_replace_exact D c key Hex).
  destruct (LRUFacts.evict_oldest_spec D (LRU.maxSize c) (size_of d)
              (JsMap.delete (LRU.cache c) key)
              (LRU.total_size (JsMap.delete (LRU.cache c) key)))
    as [dropped [Hsplit [_ [_ Hneed]]]].
  set (r := LRUSpec.evict_oldest _ _ _ _) in *.
  exists dropped, (snd r). split; [|split; [reflexivity|]].
  - unfold LRUSpec.without. now rewrite <- JsMapFacts.delete_filter.
  - intros older x younger Heq. specialize (Hneed _ _ _ Heq).
    rewrite Hsplit, Heq in Hneed.
    rewrite <- app_assoc, LRUFacts.total_size_app in Hneed.
    simpl app in Hneed.
    change (LRU.total_size (x :: younger ++ snd r))
      with (LRU.size (snd x) + LRU.total_size (younger ++ snd r)) in Hneed.
    lia.
Qed.

End WithData.
End LRUMore.

(* ===================================================================== *)
(** ** The cache across a history of calls *)
(* ===================================================================== *)

Module HistoryFacts.
Section WithIndex.
Variable number : Type.
Variable numberToString : number -> string.
Variable Json : Type.
Variable json_truthy : Json -> bool.
Variable pointInPolygon : Geo.Ring number -> Geo.Point number -> bool.
Variable admin1_features : list (Geo.Feature number).
Variable JSON_stringify : Geo.Value number Json -> string.
Variable read_json : string -> option Json.
Variable percent : Z -> Z -> string.

Local Open Scope Z_scope.

Local Abbreviation World := (Geo.World number Json).
Local Abbreviation Value := (Geo.Value number Json).
Local Abbreviation Cache := (LRU.LRUCache Value).
Local Abbreviation cacheKey := (@Geo.cacheKey number numberToString).
Local Abbreviation truthy := (@Geo.truthy number Json json_truthy).
Local Abbreviation scan_result :=
  (@Geo.scan_result number Json pointInPolygon admin1_features).
Local Abbreviation cache_lookup :=
  (@Geo.cache_lookup number Json json_truthy).
Local Abbreviation reverseGeolocation :=
  (@Geo.reverseGeolocation number numberToString Json json_truthy
     pointInPolygon admin1_features JSON_stringify).
Local Abbreviation readJSONFile :=
  (@Geo.readJSONFile number Json json_truthy JSON_stringify).
Local Abbreviation call_step :=
  (@Geo.call_step number numberToString Json json_truthy pointInPolygon
     admin1_features JSON_stringify read_json).
Local Abbreviation run_calls :=
  (@Geo.run_calls number numberToString Json json_truthy pointInPolygon
     admin1_features JSON_stringify read_json).
Local Abbreviation getCacheStats := (@Api.getCacheStats number Json percent).
Local Abbreviation first_cacheSize := (@Api.first_cacheSize number).

Implicit Types (w : World) (c : Cache) (v : Value).

(** *** Reads that find their entry *)

Lemma lru_get_again c k v :
  fst (LRU.get c k) = Some v -> fst (LRU.get (snd (LRU.get c k)) k) = Some v.
Proof.
  unfold LRU.get.
  destruct (JsMap.has (LRU.cache c) k); simpl; [|discriminate].
  destruct (JsMap.get (LRU.cache c) k) as [value|]; simpl; [|discriminate].
  intros [= <-].
  now rewrite JsMapFacts.set_has_same, JsMapFacts.set_get_same.
Qed.

Lemma lru_set_get c k v :
  fst (LRU.get (LRU.set JSON_stringify c k v) k) = Some v.
Proof.
  unfold LRU.get, LRU.set. simpl.
  now rewrite JsMapFacts.set_has_same, JsMapFacts.set_get_same.
Qed.

Lemma cache_lookup_served w c key v :
  Geo.config_cache w = Some c ->
  fst (LRU.get c key) = Some v -> truthy v = true ->
  cache_lookup w key
  = (Some v, Geo.with_instance w (snd (LRU.get c key)), [Geo.CacheGet key]).
Proof.
  intros Hcfg Hget Ht. unfold Geo.cache_lookup. rewrite Hcfg.
  destruct (LRU.get c key) as [cached c']. simpl in *. subst cached.
  now rewrite Ht.
Qed.

Lemma config_cache_set w c c' :
  Geo.config_cache w = Some c ->
  Geo.config_cache (Geo.with_instance w c') = Some c'.
Proof.
  unfold Geo.config_cache. simpl.
  destruct (Geo.cache_ref (Geo.config w)); [discriminate | reflexivity].
Qed.

Lemma cache_lookup_world w c key :
  Geo.config_cache w = Some c ->
  snd (fst (cache_lookup w key)) = Geo.with_instance w (snd (LRU.get c key)).
Proof.
  intros Hcfg. unfold Geo.cache_lookup. rewrite Hcfg.
  now destruct (LRU.get c key).
Qed.

Lemma cache_lookup_none w key :
  Geo.config_cache w = None -> cache_lookup w key = (None, w, []).
Proof. intros Hcfg. unfold Geo.cache_lookup. now rewrite Hcfg. Qed.

(** A lookup that returned a result is served from the cache when it is
    repeated: with a cache configured and a first answer other than
    [null], the same lookup made right after returns the same value, and
    its log is the cache read alone: no ring is tested, nothing is
    written. *)
Theorem repeated_lookup_served_from_cache w c lat lng dataType :
  Geo.config_cache w = Some c ->
  let r1 := reverseGeolocation w (Geo.JNumber lat) (Geo.JNumber lng)
                               dataType in
  truthy (Geo.value_of r1) = true ->
  let r2 := reverseGeolocation (Geo.world_of r1) (Geo.JNumber lat)
                               (Geo.JNumber lng) dataType in
  Geo.value_of r2 = Geo.value_of r1 /\
  Geo.log_of r2 = [Geo.CacheGet (cacheKey lat lng dataType)].
Proof.
  intros Hcfg. cbv zeta.
  set (key := cacheKey lat lng dataType).
  assert (Hserved : forall w' c' v,
             Geo.config_cache w' = Some c' ->
             fst (LRU.get c' key) = Some v -> truthy v = true ->
             reverseGeolocation w' (Geo.JNumber lat) (Geo.JNumber lng) dataType
             = (v, Geo.with_instance w' (snd (LRU.get c' key)),
                [Geo.CacheGet key])).
  { intros w' c' v H1 H2 H3. unfold Geo.reverseGeolocation. fold key.
    now rewrite (cache_lookup_served w' c' key v H1 H2 H3). }
  remember (reverseGeolocation w (Geo.JNumber lat) (Geo.JNumber lng)
                               dataType) as r1 eqn:E1.
  intros Htruthy.
  assert (Hstate : exists c1,
             Geo.config_cache (Geo.world_of r1) = Some c1 /\
             fst (LRU.get c1 key) = Some (Geo.value_of r1)).
  { assert (Hmiss : forall c' result log2,
               scan_result lat lng dataType = (result, log2) ->
               r1 = (if truthy result
                     then (result,
                           Geo.with_instance (Geo.with_instance w c')
                             (LRU.set JSON_stringify c' key result),
                           [Geo.CacheGet key] ++ log2 ++ [Geo.CacheSet key])
                     else (result, Geo.with_instance w c',
                           [Geo.CacheGet key] ++ log2)) ->
               exists c1,
                 Geo.config_cache (Geo.world_of r1) = Some c1 /\
                 fst (LRU.get c1 key) = Some (Geo.value_of r1)).
    { intros c' result log2 _ Hr1. rewrite Hr1 in Htruthy |- *.
      destruct (truthy result) eqn:Hr.
      - exists (LRU.set JSON_stringify c' key result). split.
        + unfold Geo.world_of. simpl.
          exact (config_cache_set _ c' _ (config_cache_set w c c' Hcfg)).
        + apply lru_set_get.
      - unfold Geo.value_of in Htruthy. simpl in Htruthy. congruence. }
    destruct (fst (LRU.get c key)) as [v|] eqn:Hget;
      [destruct (truthy v) eqn:Hv|].
    - rewrite (Hserved w c v Hcfg Hget Hv) in E1. subst r1.
      exists (snd (LRU.get c key)). split.
      + exact (config_cache_set w c _ Hcfg).
      + now apply lru_get_again.
    - unfold Geo.reverseGeolocation in E1. fold key in E1.
      unfold Geo.cache_lookup in E1. rewrite Hcfg in E1.
      destruct (LRU.get c key) as [cached c'] eqn:E. simpl in Hget.
      subst cached. rewrite Hv in E1.
      destruct (scan_result lat lng dataType) as [result log2] eqn:Hscan.
      rewrite (config_cache_set w c c' Hcfg) in E1.
      apply (Hmiss c' result log2 eq_refl).
      rewrite E1. now destruct (truthy result).
    - unfold Geo.reverseGeolocation in E1. fold key in E1.
      unfold Geo.cache_lookup in E1. rewrite Hcfg in E1.
      destruct (LRU.get c key) as [cached c'] eqn:E. simpl in Hget.
      subst cached.
      destruct (scan_result lat lng dataType) as [result log2] eqn:Hscan.
      rewrite (config_cache_set w c c' Hcfg) in E1.
      apply (Hmiss c' result log2 eq_refl).
      rewrite E1. now destruct (truthy result). }
  destruct Hstate as [c1 [H1 H2]].
  rewrite (Hserved _ _ _ H1 H2 Htruthy). now split.
Qed.

(** *** What every call keeps *)

Lemma get_maxSize c k : LRU.maxSize (snd (LRU.get c k)) = LRU.maxSize c.
Proof.
  unfold LRU.get. destruct (negb (JsMap.has (LRU.cache c) k)); [reflexivity|].
  now destruct (JsMap.get (LRU.cache c) k).
Qed.

Lemma remove_maxSize c k : LRU.maxSize (LRU.remove c k) = LRU.maxSize c.
Proof.
  unfold LRU.remove. destruct (JsMap.has (LRU.cache c) k); [|reflexivity].
  now destruct (JsMap.get (LRU.cache c) k).
Qed.

Lemma evict_maxSize sz : forall fuel c,
  LRU.maxSize (LRU.evict fuel sz c) = LRU.maxSize c.
Proof.
  induction fuel as [|fuel IH]; intros c; simpl; [reflexivity|].
  destruct (LRU.must_evict sz c); [|reflexivity].
  destruct (JsMap.first_key (LRU.cache c)); [|reflexivity].
  now rewrite IH, remove_maxSize.
Qed.

Lemma set_maxSize c k v :
  LRU.maxSize (LRU.set JSON_stringify c k v) = LRU.maxSize c.
Proof.
  unfold LRU.set. simpl. rewrite evict_maxSize.
  destruct (JsMap.has (LRU.cache c) k); [apply remove_maxSize | reflexivity].
Qed.

Section Preserved.
Variable P : Cache -> Prop.
Hypothesis P_get : forall c k, P c -> P (snd (LRU.get c k)).
Hypothesis P_set : forall c k v, P c -> P (LRU.set JSON_stringify c k v).
Hypothesis P_clear : forall c, P c -> P (LRU.clear c).

Lemma reverseGeolocation_keeps w c lat lng dataType :
  Geo.config_cache w = Some c -> P c ->
  exists c',
    Geo.config_cache (Geo.world_of (reverseGeolocation w lat lng dataType))
      = Some c' /\ P c'.
Proof.
  intros Hcfg Hc. unfold Geo.reverseGeolocation, Geo.world_of.
  destruct lat as [| |?|lat'|?|?]; try (exists c; now split).
  destruct lng as [| |?|lng'|?|?]; try (exists c; now split).
  unfold Geo.cache_lookup. rewrite Hcfg.
  pose proof (P_get c (cacheKey lat' lng' dataType) Hc) as Hget.
  destruct (LRU.get c (cacheKey lat' lng' dataType)) as [cached c'].
  simpl in Hget.
  assert (Hcfg' : Geo.config_cache (Geo.with_instance w c') = Some c')
    by exact (config_cache_set w c c' Hcfg).
  destruct (match cached with
            | Some v => if truthy v then Some v else None
            | None => None
            end); simpl; [now exists c'|].
  destruct (scan_result lat' lng' dataType) as [result log2].
  rewrite Hcfg'. destruct (truthy result); simpl; [|now exists c'].
  eexists. split; [exact (config_cache_set _ c' _ Hcfg')|]. now apply P_set.
Qed.

Lemma readJSONFile_keeps w c path :
  Geo.config_cache w = Some c -> P c ->
  exists c',
    Geo.config_cache (Geo.world_of (readJSONFile read_json w path)) = Some c'
    /\ P c'.
Proof.
  intros Hcfg Hc. unfold Geo.readJSONFile, Geo.world_of.
  unfold Geo.cache_lookup. rewrite Hcfg.
  pose proof (P_get c path Hc) as Hget.
  destruct (LRU.get c path) as [cached c']. simpl in Hget.
  assert (Hcfg' : Geo.config_cache (Geo.with_instance w c') = Some c')
    by exact (config_cache_set w c c' Hcfg).
  destruct (match cached with
            | Some v => if truthy v then Some v else None
            | None => None
            end); simpl; [now exists c'|].
  destruct (read_json path) as [parsed|]; [|now exists c'].
  rewrite Hcfg'. simpl.
  eexists. split; [exact (config_cache_set _ c' _ Hcfg')|]. now apply P_set.
Qed.

Lemma configure_keeps w c options :
  Geo.config_cache w = Some c -> P c ->
  exists c', Geo.config_cache (Geo.configure w options) = Some c' /\ P c'.
Proof.
  intros Hcfg Hc. exists c. split; [|exact Hc].
  destruct w as [inst [uo cs ref]]. unfold Geo.config_cache in *.
  simpl in Hcfg. destruct ref; [discriminate|]. subst inst.
  unfold Geo.configure, Geo.getCache. simpl.
  destruct (Geo.opt_cacheSize options), (Geo.opt_useOptimized options);
    reflexivity.
Qed.

Lemma clearCache_keeps w c :
  Geo.config_cache w = Some c -> P c ->
  exists c', Geo.config_cache (Geo.clearCache w) = Some c' /\ P c'.
Proof.
  intros Hcfg Hc. unfold Geo.clearCache. rewrite Hcfg.
  exists (LRU.clear c). split; [exact (config_cache_set w c _ Hcfg)|].
  now apply P_clear.
Qed.

Lemma call_step_keeps w c call :
  Geo.config_cache w = Some c -> P c ->
  exists c', Geo.config_cache (call_step w call) = Some c' /\ P c'.
Proof.
  intros Hcfg Hc. destruct call; simpl.
  - now apply configure_keeps with (c := c).
  - now apply reverseGeolocation_keeps with (c := c).
  - now apply reverseGeolocation_keeps with (c := c).
  - now apply reverseGeolocation_keeps with (c := c).
  - now apply readJSONFile_keeps with (c := c).
  - now apply readJSONFile_keeps with (c := c).
  - now apply readJSONFile_keeps with (c := c).
  - now apply readJSONFile_keeps with (c := c).
  - now apply clearCache_keeps with (c := c).
Qed.

Lemma run_calls_keeps calls : forall w c,
  Geo.config_cache w = Some c -> P c ->
  exists c', Geo.config_cache (run_calls calls w) = Some c' /\ P c'.
Proof.
  unfold Geo.run_calls.
  induction calls as [|call calls IH]; intros w c Hcfg Hc; simpl.
  - now exists c.
  - destruct (call_step_keeps w c call Hcfg Hc) as [c' [Hcfg' Hc']].
    exact (IH _ _ Hcfg' Hc').
Qed.
End Preserved.

(** *** Before the first [cacheSize] *)

Lemma no_instance_no_cache w :
  Geo.cacheInstance w = None -> Geo.config_cache w = None.
Proof.
  unfold Geo.config_cache. intros ->.
  now destruct (Geo.cache_ref (Geo.config w)).
Qed.

Lemma uncached_lookup w lat lng dataType :
  Geo.config_cache w = None ->
  reverseGeolocation w (Geo.JNumber lat) (Geo.JNumber lng) dataType
  = (fst (scan_result lat lng dataType), w, snd (scan_result lat lng dataType)).
Proof.
  intros Hcfg. unfold Geo.reverseGeolocation.
  rewrite cache_lookup_none by assumption.
  destruct (scan_result lat lng dataType) as [result log2].
  now rewrite Hcfg.
Qed.

Lemma uncached_read w path :
  Geo.config_cache w = None ->
  readJSONFile read_json w path
  = (match read_json path with
     | Some parsed => Geo.VJson parsed
     | None => Geo.VNull
     end, w, []).
Proof.
  intros Hcfg. unfold Geo.readJSONFile.
  rewrite cache_lookup_none by assumption.
  destruct (read_json path); [|reflexivity]. now rewrite Hcfg.
Qed.

Lemma uncached_step w call :
  Geo.cacheInstance w = None ->
  match call with
  | Geo.CallConfigure options =>
      match Geo.opt_cacheSize options with
      | Some n =>
          Geo.config_cache (call_step w call)
          = Some (LRU.new Value (Some n))
      | None => Geo.cacheInstance (call_step w call) = None
      end
  | _ => Geo.cacheInstance (call_step w call) = None
  end.
Proof.
  intros Hnone. pose proof (no_instance_no_cache w Hnone) as Hcfg.
  destruct call; simpl;
    try (unfold Geo.lookUp, Geo.lookUpRaw, Geo.lookUpGeoJSON,
           Geo.getContinentGeoJSONByCode, Geo.getCountryGeoJSONByAlpha2,
           Geo.getCountryGroupingGeoJSONByCode, Geo.getRegionGeoJSONByCode).
  - unfold Geo.configure, Geo.getCache, Geo.config_cache. simpl.
    rewrite Hnone.
    destruct (Geo.opt_cacheSize options), (Geo.opt_useOptimized options);
      simpl; auto.
  - destruct lat as [| |?|lat'|?|?]; try exact Hnone.
    destruct lon as [| |?|lng'|?|?]; try exact Hnone.
    now rewrite uncached_lookup.
  - destruct lat as [| |?|lat'|?|?]; try exact Hnone.
    destruct lon as [| |?|lng'|?|?]; try exact Hnone.
    now rewrite uncached_lookup.
  - destruct lat as [| |?|lat'|?|?]; try exact Hnone.
    destruct lon as [| |?|lng'|?|?]; try exact Hnone.
    now rewrite uncached_lookup.
  - now rewrite uncached_read.
  - now rewrite uncached_read.
  - now rewrite uncached_read.
  - now rewrite uncached_read.
  - unfold Geo.clearCache. now rewrite Hcfg.
Qed.

Section FromInitial.
Variable P : Z -> Cache -> Prop.
Variable Q : Z -> Prop.
Hypothesis P_new : forall n, Q n -> P n (LRU.new Value (Some n)).
Hypothesis P_get : forall n c k, P n c -> P n (snd (LRU.get c k)).
Hypothesis P_set :
  forall n c k v, P n c -> P n (LRU.set JSON_stringify c k v).
Hypothesis P_clear : forall n c, P n c -> P n (LRU.clear c).

Lemma history_from_unconfigured calls : forall w,
  Geo.cacheInstance w = None ->
  match first_cacheSize calls with
  | None => Geo.cacheInstance (run_calls calls w) = None
  | Some n =>
      Q n -> exists c, Geo.config_cache (run_calls calls w) = Some c /\ P n c
  end.
Proof.
  unfold Geo.run_calls.
  induction calls as [|call calls IH]; intros w Hnone; simpl; [exact Hnone|].
  pose proof (uncached_step w call Hnone) as Hstep.
  destruct call as [options| | | | | | | |];
    try (apply IH; exact Hstep).
  destruct (Geo.opt_cacheSize options) as [n|]; [|apply IH; exact Hstep].
  intros Hq.
  exact (run_calls_keeps (P n) (P_get n) (P_set n) (P_clear n) calls _ _
           Hstep (P_new n Hq)).
Qed.
End FromInitial.

(** The capacity of the cache is the [cacheSize] of the first [configure]
    call that passes one, whatever later calls pass; until such a call
    there is no cache and [getCacheStats] answers [null]. *)
Theorem capacity_set_by_first_configure calls :
  let w := run_calls calls (Geo.initial number Json) in
  match first_cacheSize calls with
  | None => getCacheStats w = None /\ Geo.cacheInstance w = None
  | Some n =>
      exists c,
        Geo.config_cache w = Some c /\
        getCacheStats w = Some (Api.getStats percent c) /\
        Api.maxSize (Api.getStats percent c) = n
  end.
Proof.
  intros w. subst w.
  pose proof (history_from_unconfigured
                (fun n c => LRU.maxSize c = n) (fun _ => True)
                (fun n _ => eq_refl)
                (fun n c k H => eq_trans (get_maxSize c k) H)
                (fun n c k v H => eq_trans (set_maxSize c k v) H)
                (fun n c H => H)
                calls (Geo.initial number Json) eq_refl) as H.
  destruct (first_cacheSize calls) as [n|].
  - destruct (H I) as [c [Hcfg Hmax]]. exists c.
    unfold Api.getCacheStats. rewrite Hcfg. auto.
  - split; [|exact H]. unfold Api.getCacheStats.
    now rewrite no_instance_no_cache.
Qed.

(** After any history whose first configured [cacheSize] is not negative,
    what [getCacheStats] reports is consistent: the keys are distinct and
    [entries] counts them, [currentSize] is the sum of the stored sizes and
    is not negative, and it exceeds [maxSize] only when a single entry is
    stored. *)
Theorem stats_consistent_after_history calls n :
  first_cacheSize calls = Some n -> 0 <= n ->
  exists c,
    Geo.config_cache (run_calls calls (Geo.initial number Json)) = Some c /\
    getCacheStats (run_calls calls (Geo.initial number Json))
      = Some (Api.getStats percent c) /\
    NoDup (JsMap.keys (LRU.cache c)) /\
    Api.entries (Api.getStats percent c)
      = List.length (JsMap.keys (LRU.cache c)) /\
    Api.currentSize (Api.getStats percent c) = LRU.total_size (LRU.cache c) /\
    0 <= Api.currentSize (Api.getStats percent c) /\
    Api.maxSize (Api.getStats percent c) = n /\
    (Api.currentSize (Api.getStats percent c)
       > Api.maxSize (Api.getStats percent c) ->
     Api.entries (Api.getStats percent c) = 1%nat).
Proof.
  intros Hfirst Hn.
  pose proof (history_from_unconfigured
                (fun n c => LRU.maxSize c = n /\ LRUSpec.invariant c)
                (fun n => 0 <= n)
                (fun n H => conj eq_refl (LRUFacts.invariant_new Value n H))
                (fun n c k H =>
                   conj (eq_trans (get_maxSize c k) (proj1 H))
                        (LRUFacts.invariant_get Value c k (proj2 H)))
                (fun n c k v H =>
                   conj (eq_trans (set_maxSize c k v) (proj1 H))
                        (LRUFacts.invariant_set Value JSON_stringify c k v
                           (proj2 H)))
                (fun n c H =>
                   conj (proj1 H) (LRUFacts.invariant_clear Value c (proj2 H)))
                calls (Geo.initial number Json) eq_refl) as H.
  rewrite Hfirst in H.
  destruct (H Hn) as [c [Hcfg [Hmax (Hwf & Hnn & Hex & Hcap & _)]]].
  exists c. unfold Api.getCacheStats. rewrite Hcfg. simpl.
  split; [reflexivity|]. split; [reflexivity|]. split; [exact Hwf|].
  split; [unfold JsMap.size, JsMap.keys; now rewrite length_map|].
  split; [exact Hex|].
  split; [rewrite Hex; now apply LRUFacts.total_size_nonneg|].
  split; [exact Hmax|].
  intros Hover. destruct Hcap as [Hle | (k & e & Hone & _)]; [lia|].
  now rewrite Hone.
Qed.

(** Caching is off until [configure] passes a [cacheSize]: after a history
    without such a call every lookup with numeric coordinates returns what
    the scan builds, logs the ring tests alone and leaves the state as it
    was, and every file read goes to the file. *)
Theorem no_cache_until_configured calls :
  first_cacheSize calls = None ->
  let w := run_calls calls (Geo.initial number Json) in
  (forall lat lng dataType,
     reverseGeolocation w (Geo.JNumber lat) (Geo.JNumber lng) dataType
     = (fst (scan_result lat lng dataType), w,
        snd (scan_result lat lng dataType))) /\
  (forall path,
     readJSONFile read_json w path
     = (match read_json path with
        | Some parsed => Geo.VJson parsed
        | None => Geo.VNull
        end, w, [])).
Proof.
  intros Hfirst w.
  pose proof (history_from_unconfigured
                (fun _ _ => True) (fun _ => True)
                (fun _ _ => I) (fun _ _ _ _ => I) (fun _ _ _ _ _ => I)
                (fun _ _ _ => I)
                calls (Geo.initial number Json) eq_refl) as H.
  rewrite Hfirst in H. apply no_instance_no_cache in H. fold w in H.
  split.
  - intros lat lng dataType. now apply uncached_lookup.
  - intros path. now apply uncached_read.
Qed.

(** [configure({useOptimized: b})] has no effect on lookups: the value
    returned, the log of cache accesses and ring tests, and the cache left
    behind are the same with or without such a call before the lookup. *)
Theorem useOptimized_ignored_by_lookup w b lat lng dataType :
  let w' := Geo.configure w {| Geo.opt_cacheSize := None;
                               Geo.opt_useOptimized := Some b |} in
  Geo.value_of (reverseGeolocation w' lat lng dataType)
    = Geo.value_of (reverseGeolocation w lat lng dataType) /\
  Geo.log_of (reverseGeolocation w' lat lng dataType)
    = Geo.log_of (reverseGeolocation w lat lng dataType) /\
  Geo.cacheInstance (Geo.world_of (reverseGeolocation w' lat lng dataType))
    = Geo.cacheInstance (Geo.world_of (reverseGeolocation w lat lng dataType)).
Proof.
  destruct w as [inst [uo cs ref]]. cbv zeta.
  unfold Geo.configure. simpl.
  unfold Geo.reverseGeolocation, Geo.value_of, Geo.log_of, Geo.world_of.
  destruct lat as [| |?|lat'|?|?]; try (now repeat split).
  destruct lng as [| |?|lng'|?|?]; try (now repeat split).
  unfold Geo.cache_lookup, Geo.config_cache. simpl.
  destruct ref, inst as [c|]; simpl;
    try (destruct (scan_result lat' lng' dataType); now repeat split).
  destruct (LRU.get c (cacheKey lat' lng' dataType)) as [cached c'].
  destruct (match cached with
            | Some v => if truthy v then Some v else None
            | None => None
            end); simpl; [now repeat split|].
  destruct (scan_result lat' lng' dataType) as [result log2].
  destruct (truthy result); now repeat split.
Qed.

(** A file that was read and cached is not read again: with a cache
    configured and a first answer that is truthy, the same path requested
    right after returns the same value from the cache, whatever the files
    hold by then; the log is the cache read alone. *)
Theorem cached_file_not_read_again w c path read_json2 :
  Geo.config_cache w = Some c ->
  truthy (Geo.value_of (readJSONFile read_json w path)) = true ->
  Geo.value_of (readJSONFile read_json2
                  (Geo.world_of (readJSONFile read_json w path)) path)
    = Geo.value_of (readJSONFile read_json w path) /\
  Geo.log_of (readJSONFile read_json2
                (Geo.world_of (readJSONFile read_json w path)) path)
    = [Geo.CacheGet path].
Proof.
  intros Hcfg.
  assert (Hserved : forall w' c' v,
             Geo.config_cache w' = Some c' ->
             fst (LRU.get c' path) = Some v -> truthy v = true ->
             readJSONFile read_json2 w' path
             = (v, Geo.with_instance w' (snd (LRU.get c' path)),
                [Geo.CacheGet path])).
  { intros w' c' v H1 H2 H3. unfold Geo.readJSONFile.
    now rewrite (cache_lookup_served w' c' path v H1 H2 H3). }
  remember (readJSONFile read_json w path) as r1 eqn:E1.
  intros Htruthy.
  assert (Hstate : exists c1,
             Geo.config_cache (Geo.world_of r1) = Some c1 /\
             fst (LRU.get c1 path) = Some (Geo.value_of r1)).
  { unfold Geo.readJSONFile, Geo.cache_lookup in E1. rewrite Hcfg in E1.
    destruct (LRU.get c path) as [cached c'] eqn:E.
    assert (Hcfg' : Geo.config_cache (Geo.with_instance w c') = Some c')
      by exact (config_cache_set w c c' Hcfg).
    assert (Hmiss : r1 = match read_json path with
                         | Some parsed =>
                             (Geo.VJson parsed,
                              Geo.with_instance (Geo.with_instance w c')
                                (LRU.set JSON_stringify c' path
                                         (Geo.VJson parsed)),
                              [Geo.CacheGet path] ++ [Geo.CacheSet path])
                         | None =>
                             (Geo.VNull, Geo.with_instance w c',
                              [Geo.CacheGet path])
                         end ->
                    exists c1,
                      Geo.config_cache (Geo.world_of r1) = Some c1 /\
                      fst (LRU.get c1 path) = Some (Geo.value_of r1)).
    { intros Hr1. rewrite Hr1 in Htruthy |- *.
      destruct (read_json path) as [parsed|].
      - eexists. split.
        + unfold Geo.world_of. simpl.
          exact (config_cache_set _ c' _ Hcfg').
        + apply lru_set_get.
      - unfold Geo.value_of in Htruthy. simpl in Htruthy. discriminate. }
    destruct cached as [v|]; [destruct (truthy v) eqn:Hv|].
    - subst r1. exists c'. split; [exact Hcfg'|].
      replace c' with (snd (LRU.get c path)) by now rewrite E.
      apply lru_get_again. now rewrite E.
    - apply Hmiss. rewrite E1.
      destruct (read_json path); [|reflexivity]. now rewrite Hcfg'.
    - apply Hmiss. rewrite E1.
      destruct (read_json path); [|reflexivity]. now rewrite Hcfg'. }
  destruct Hstate as [c1 [H1 H2]].
  rewrite (Hserved _ _ _ H1 H2 Htruthy). now split.
Qed.

(** A read that fails is not remembered: when the file cannot be read or
    parsed and the cache holds nothing under the path, [readJSONFile]
    returns [null] and leaves the state as it was, so the next request
    tries the file again. *)
Theorem failed_read_not_cached w path :
  read_json path = None ->
  (forall c, Geo.config_cache w = Some c ->
             JsMap.has (LRU.cache c) path = false) ->
  readJSONFile read_json w path
  = (Geo.VNull, w,
     match Geo.config_cache w with
     | Some _ => [Geo.CacheGet path]
     | None => []
     end).
Proof.
  intros Hread Habs. unfold Geo.readJSONFile, Geo.cache_lookup.
  destruct (Geo.config_cache w) as [c|] eqn:Hcfg.
  - rewrite LRUFacts.get_absent by now apply Habs.
    rewrite Hread.
    rewrite LookupFacts.with_instance_same; [reflexivity|].
    now apply LookupFacts.config_cache_instance.
  - now rewrite Hread.
Qed.

(** [clearCache] forces the next lookup to scan: with a cache configured,
    the lookup that follows reads the emptied cache, runs the scan, and
    stores the result again when there is one; the statistics right after
    the clearing show no entry, a counter of zero and the same capacity. *)
Theorem clearCache_forces_scan w c lat lng dataType :
  Geo.config_cache w = Some c ->
  let r := reverseGeolocation (Geo.clearCache w) (Geo.JNumber lat)
                              (Geo.JNumber lng) dataType in
  Geo.value_of r = fst (scan_result lat lng dataType) /\
  Geo.log_of r
    = [Geo.CacheGet (cacheKey lat lng dataType)]
        ++ snd (scan_result lat lng dataType)
        ++ (if truthy (fst (scan_result lat lng dataType))
            then [Geo.CacheSet (cacheKey lat lng dataType)] else []) /\
  getCacheStats (Geo.clearCache w)
    = Some {| Api.entries := 0;
              Api.currentSize := 0;
              Api.maxSize := LRU.maxSize c;
              Api.utilization := (percent 0 (LRU.maxSize c) ++ "%")%string |}.
Proof.
  intros Hcfg. cbv zeta. unfold Geo.clearCache. rewrite Hcfg.
  pose proof (config_cache_set w c (LRU.clear c) Hcfg) as Hcfg1.
  split; [|split].
  - unfold Geo.reverseGeolocation, Geo.cache_lookup. rewrite Hcfg1.
    rewrite LRUFacts.get_absent by reflexivity.
    destruct (scan_result lat lng dataType) as [result log2].
    rewrite (config_cache_set _ _ (LRU.clear c) Hcfg1).
    now destruct (truthy result).
  - unfold Geo.reverseGeolocation, Geo.cache_lookup. rewrite Hcfg1.
    rewrite LRUFacts.get_absent by reflexivity.
    destruct (scan_result lat lng dataType) as [result log2].
    rewrite (config_cache_set _ _ (LRU.clear c) Hcfg1).
    cbn [fst snd].
    destruct (truthy result); unfold Geo.log_of; simpl;
      now rewrite ?app_nil_r.
  - unfold Api.getCacheStats. now rewrite Hcfg1.
Qed.

(** File contents that are falsy are stored but never served: with a
    cache configured, when a request returned such contents, the same
    request made right after reads the cache, finds the entry, passes over
    it, returns the contents from the file and writes the entry again. *)
Theorem falsy_file_never_served w c path parsed :
  Geo.config_cache w = Some c ->
  read_json path = Some parsed ->
  json_truthy parsed = false ->
  Geo.value_of (readJSONFile read_json w path) = Geo.VJson parsed ->
  readJSONFile read_json (Geo.world_of (readJSONFile read_json w path)) path
  = (Geo.VJson parsed,
     Geo.world_of (readJSONFile read_json
                     (Geo.world_of (readJSONFile read_json w path)) path),
     [Geo.CacheGet path; Geo.CacheSet path]) /\
  exists c1 e,
    Geo.config_cache (Geo.world_of (readJSONFile read_json w path)) = Some c1
    /\ JsMap.get (LRU.cache c1) path = Some e
    /\ LRU.data e = Geo.VJson parsed.
Proof.
  intros Hcfg Hread Hfalsy.
  assert (Hfirst : readJSONFile read_json w path
                   = (Geo.VJson parsed,
                      Geo.with_instance
                        (Geo.with_instance w (snd (LRU.get c path)))
                        (LRU.set JSON_stringify (snd (LRU.get c path)) path
                                 (Geo.VJson parsed)),
                      [Geo.CacheGet path] ++ [Geo.CacheSet path]) \/
                   exists v, truthy v = true /\
                             Geo.value_of (readJSONFile read_json w path) = v).
  { unfold Geo.readJSONFile, Geo.cache_lookup. rewrite Hcfg.
    destruct (LRU.get c path) as [cached c'] eqn:E. cbn [snd].
    assert (Hcfg' : Geo.config_cache (Geo.with_instance w c') = Some c')
      by exact (config_cache_set w c c' Hcfg).
    destruct cached as [v|]; [destruct (truthy v) eqn:Hv|].
    - right. now exists v.
    - left. now rewrite Hread, Hcfg'.
    - left. now rewrite Hread, Hcfg'. }
  destruct Hfirst as [Hfirst | (v & Hv & Hval)].
  - intros _. rewrite Hfirst. unfold Geo.world_of at 1 2 3. cbn [fst snd].
    set (c' := snd (LRU.get c path)).
    set (c1 := LRU.set JSON_stringify c' path (Geo.VJson parsed)).
    assert (Hcfg1 : Geo.config_cache
                      (Geo.with_instance (Geo.with_instance w c') c1) = Some c1)
      by exact (config_cache_set _ c' _ (config_cache_set w c c' Hcfg)).
    split.
    + unfold Geo.readJSONFile, Geo.cache_lookup. rewrite Hcfg1.
      pose proof (lru_set_get c' path (Geo.VJson parsed)) as Hget.
      fold c1 in Hget.
      destruct (LRU.get c1 path) as [cached2 c2]. simpl in Hget.
      subst cached2. simpl. rewrite Hfalsy, Hread.
      rewrite (config_cache_set _ c1 c2 Hcfg1). reflexivity.
    + exists c1. eexists. split; [exact Hcfg1|]. split.
      * unfold c1, LRU.set. simpl. apply JsMapFacts.set_get_same.
      * reflexivity.
  - intros Hval'. rewrite Hval' in Hval. subst v.
    simpl in Hv. congruence.
Qed.

End WithIndex.
End HistoryFacts.

(* ===================================================================== *)
(** ** The lookup tables and the state accessors *)
(* ===================================================================== *)

Module TableFacts.

Lemma find_present {A} (p : A -> bool) (l : list A) x :
  In x l -> p x = true -> exists y, find p l = Some y.
Proof.
  intros Hin Hp. destruct (find p l) as [y|] eqn:F; [now exists y|].
  rewrite (find_none p l F x Hin) in Hp. discriminate.
Qed.

(** The two converters are inverse on a table in which the alpha-3 code
    determines the country: when [countryAlpha2ToAlpha3] answers [a3] for
    [a2], [countryAlpha3ToAlpha2] answers [a2] for [a3], and both codes
    are valid; a code that is not valid converts to [null]. *)
Theorem alpha_codes_round_trip countries a2 a3 :
  (forall c1 c2, In c1 countries -> In c2 countries ->
     Api.country_a3 c1 = Api.country_a3 c2 ->
     Api.country_a2 c1 = Api.country_a2 c2) ->
  Api.countryAlpha2ToAlpha3 countries a2 = Some a3 ->
  Api.countryAlpha3ToAlpha2 countries a3 = Some a2 /\
  Api.isValidCountryAlpha2 countries a2 = true /\
  Api.isValidCountryAlpha3 countries a3 = true /\
  (forall code, Api.isValidCountryAlpha2 countries code = false ->
                Api.countryAlpha2ToAlpha3 countries code = None).
Proof.
  intros Huniq.
  unfold Api.countryAlpha2ToAlpha3, Api.countryAlpha3ToAlpha2,
    Api.isValidCountryAlpha2, Api.isValidCountryAlpha3.
  destruct (find (fun item => String.eqb (Api.country_a2 item) a2) countries)
    as [c|] eqn:F2; [|discriminate].
  intros [= <-].
  apply find_some in F2 as [Hin Ha2]. apply String.eqb_eq in Ha2.
  destruct (find_present
              (fun item => String.eqb (Api.country_a3 item) (Api.country_a3 c))
              countries c Hin (String.eqb_refl _)) as [c' F3].
  rewrite F3. apply find_some in F3 as [Hin' Ha3].
  apply String.eqb_eq in Ha3.
  rewrite (Huniq c' c Hin' Hin Ha3), Ha2.
  repeat split.
  intros code. now destruct (find _ countries).
Qed.

Lemma state_loop_found rs code : forall st,
  Api.state_loop rs code None = Some st ->
  exists region sts,
    In region rs /\ Api.states region = Some sts /\ In st sts /\
    Api.state_code st = code.
Proof.
  induction rs as [|region rest IH]; intros st; simpl; [discriminate|].
  destruct (Api.states region) as [sts|] eqn:Hs.
  - destruct (find (fun item => String.eqb (Api.state_code item) code) sts)
      as [st'|] eqn:F.
    + intros [= <-]. apply find_some in F as [Hin Hc].
      apply String.eqb_eq in Hc. exists region, sts. auto.
    + intros H. destruct (IH _ H) as (r & s & Hr & Hrest).
      exists r, s. split; [now right | exact Hrest].
  - intros H. destruct (IH _ H) as (r & s & Hr & Hrest).
    exists r, s. split; [now right | exact Hrest].
Qed.

Lemma state_loop_missing rs code :
  Api.state_loop rs code None = None ->
  forall region sts st,
    In region rs -> Api.states region = Some sts -> In st sts ->
    Api.state_code st <> code.
Proof.
  induction rs as [|region rest IH]; simpl; [intros _ ? ? ? []|].
  destruct (Api.states region) as [sts0|] eqn:Hs.
  - destruct (find (fun item => String.eqb (Api.state_code item) code) sts0)
      as [st'|] eqn:F; [discriminate|].
    intros H r sts st [<-|Hr] Hsts Hst.
    + rewrite Hs in Hsts. injection Hsts as <-.
      pose proof (find_none _ _ F st Hst) as Hne. simpl in Hne.
      now apply String.eqb_neq in Hne.
    + exact (IH H r sts st Hr Hsts Hst).
  - intros H r sts st [<-|Hr] Hsts Hst.
    + rewrite Hs in Hsts. discriminate.
    + exact (IH H r sts st Hr Hsts Hst).
Qed.

(** [isValidStateCode] answers true exactly when a region that has states
    lists a state with the code; [getStateByCode] is defined exactly for
    those codes, and what it returns is such a state as [translateName]
    leaves it. *)
Theorem state_code_validity regions code :
  (Api.isValidStateCode regions code = true <->
   exists region sts st,
     In region regions /\ Api.states region = Some sts /\ In st sts /\
     Api.state_code st = code) /\
  (forall (Locale : Type) (translateName : Api.State -> Locale -> string ->
                                            Api.State) locale,
     (Api.getStateByCode regions translateName code locale = None <->
      Api.isValidStateCode regions code = false) /\
     (forall s, Api.getStateByCode regions translateName code locale = Some s ->
        exists region sts st,
          In region regions /\ Api.states region = Some sts /\ In st sts /\
          Api.state_code st = code /\
          s = translateName st locale "state_name"%string)).
Proof.
  unfold Api.isValidStateCode, Api.getStateByCode.
  destruct (Api.state_loop regions code None) as [st|] eqn:L.
  - destruct (state_loop_found regions code st L)
      as (region & sts & Hr & Hs & Hst & Hc).
    split.
    + split; [intros _; now exists region, sts, st | reflexivity].
    + intros Locale translateName locale. split.
      * split; discriminate.
      * intros s [= <-]. now exists region, sts, st.
  - split.
    + split; [discriminate|].
      intros (region & sts & st & Hr & Hs & Hst & Hc).
      now destruct (state_loop_missing regions code L region sts st Hr Hs Hst).
    + intros Locale translateName locale. split; [now split | discriminate].
Qed.

Section StateOfLookup.
Variable number : Type.
Variable Json : Type.
Variable pointInPolygon : Geo.Ring number -> Geo.Point number -> bool.
Variable features : list (Geo.Feature number).

Local Abbreviation iso f := (Geo.iso_3166_2 (Geo.properties f)).

Lemma derived_state_code props s :
  JsMap.get (Geo.derive_properties props) "state_code" = Some s ->
  s = Geo.iso_3166_2 props.
Proof.
  unfold Geo.derive_properties. simpl.
  destruct (negb (String.eqb (Geo.iso_3166_2 props) "")
            && negb (endsWith (Geo.iso_3166_2 props) "~")); simpl.
  - now intros [= <-].
  - discriminate.
Qed.

Lemma derived_country_region props :
  JsMap.get (Geo.derive_properties props) "country_a2"
    = Some (Geo.iso_a2 props) /\
  JsMap.get (Geo.derive_properties props) "region_code"
    = Some (Geo.region_code props).
Proof.
  unfold Geo.derive_properties. simpl.
  destruct (negb (String.eqb (Geo.iso_3166_2 props) "")
            && negb (endsWith (Geo.iso_3166_2 props) "~")); simpl; now split.
Qed.

(** From a lookup to the geometry of its state: in an index where the
    subdivision code identifies the feature, the [state_code] that a
    default-mode lookup returns for a point is a code for which
    [getStateGeoJSONByCode] answers, with a geometry that holds the point
    and with the [country_a2], [region_code] and [state_code] of the
    lookup. *)
Theorem state_of_lookup_contains_point lat lng obj s :
  (forall f g, In f features -> In g features -> iso f = iso g -> f = g) ->
  fst (Geo.scan_result Json pointInPolygon features lat lng DtNull)
    = Geo.VProperties obj ->
  JsMap.get obj "state_code" = Some s ->
  exists sf,
    Api.getStateGeoJSONByCode features s = Some sf /\
    Geo.containsPoint pointInPolygon (Api.sf_geometry sf) (lng, lat) = true /\
    JsMap.get (Api.sf_properties sf) "country_a2"
      = JsMap.get obj "country_a2" /\
    JsMap.get (Api.sf_properties sf) "region_code"
      = JsMap.get obj "region_code" /\
    JsMap.get (Api.sf_properties sf) "state_code" = Some s.
Proof.
  intros Huniq. rewrite ScanFacts.scan_result_spec. simpl.
  unfold Geo.build_result.
  destruct (existsb
              (fun f => Geo.containsPoint pointInPolygon (Geo.geometry f)
                                          (lng, lat)) features) eqn:Hex;
    [|discriminate].
  destruct (ScanFacts.leading_misses_hit
              (fun f => Geo.containsPoint pointInPolygon (Geo.geometry f)
                                          (lng, lat)) features Hex)
    as [f [Hnth Hf]].
  rewrite Hnth. intros [= <-] Hs.
  apply derived_state_code in Hs. subst s.
  assert (Hin : In f features) by (eapply nth_error_In; eauto).
  destruct (find_present (fun g => String.eqb (iso g) (iso f)) features f
              Hin (String.eqb_refl _)) as [g F].
  unfold Api.getStateGeoJSONByCode. rewrite F.
  apply find_some in F as [Hing Hg]. apply String.eqb_eq in Hg.
  rewrite (Huniq g f Hing Hin Hg).
  eexists. split; [reflexivity|]. simpl.
  destruct (derived_country_region (Geo.properties f)) as [-> ->].
  repeat split; assumption.
Qed.

End StateOfLookup.
End TableFacts.

(* ===================================================================== *)
(** ** The optimizer *)
(* ===================================================================== *)

Module OptimizerFacts.

Lemma filter_first_match {A} (p q : A -> bool) (l : list A) :
  existsb p l = true ->
  (forall x, nth_error l (Geo.leading_misses p l) = Some x -> q x = true) ->
  existsb p (filter q l) = true /\
  nth_error (filter q l) (Geo.leading_misses p (filter q l))
    = nth_error l (Geo.leading_misses p l).
Proof.
  induction l as [|x rest IH]; simpl; [discriminate|].
  destruct (p x) eqn:Hp; simpl.
  - intros _ Hq. rewrite (Hq x eq_refl). simpl. now rewrite Hp.
  - intros Hex Hq. destruct (IH Hex Hq) as [H1 H2].
    destruct (q x); simpl; [now rewrite Hp|]. now split.
Qed.

Lemma filter_no_match {A} (p q : A -> bool) (l : list A) :
  existsb p l = false -> existsb p (filter q l) = false.
Proof.
  induction l as [|x rest IH]; simpl; [reflexivity|].
  intros H. apply orb_false_iff in H as [Hp Hrest].
  destruct (q x); simpl; [rewrite Hp|]; auto.
Qed.

Lemma find_filter {A} (p q : A -> bool) (l : list A) x :
  find p l = Some x -> q x = true -> find p (filter q l) = Some x.
Proof.
  induction l as [|y rest IH]; simpl; [discriminate|].
  destruct (p y) eqn:Hp.
  - intros [= ->] Hq. rewrite Hq. simpl. now rewrite Hp.
  - intros F Hq. destruct (q y); simpl; [rewrite Hp|]; auto.
Qed.

Section Index.
Variable number : Type.
Variable Json : Type.
Variable pointInPolygon : Geo.Ring number -> Geo.Point number -> bool.
Variable features : list (Geo.Feature number).

Local Abbreviation contains point :=
  (fun f => Geo.containsPoint pointInPolygon (Geo.geometry f) point).

(** Lookups survive the optimization for the target countries: when the
    feature the scan of the full index stops at belongs to a target
    country, the scan of the optimized index builds the same result in
    every mode; and a point that no feature of the full index holds gets
    [null] from the optimized index too. *)
Theorem optimized_index_same_result lat lng :
  (forall i f,
     fst (Geo.features_loop pointInPolygon features (lng, lat) 0 false)
       = (i, true) ->
     nth_error features i = Some f ->
     Optimizer.is_target f = true ->
     forall dataType,
       fst (Geo.scan_result Json pointInPolygon
              (Optimizer.optimizedAdmin1 features) lat lng dataType)
       = fst (Geo.scan_result Json pointInPolygon features lat lng dataType)) /\
  ((forall f, In f features -> contains (lng, lat) f = false) ->
   forall dataType,
     fst (Geo.scan_result Json pointInPolygon
            (Optimizer.optimizedAdmin1 features) lat lng dataType)
     = Geo.VNull).
Proof.
  split.
  - intros i f Hloop Hnth Htarget dataType.
    rewrite ScanFacts.features_loop_spec in Hloop. simpl in Hloop.
    injection Hloop as Hi Hex.
    rewrite !ScanFacts.scan_result_spec. simpl.
    destruct (filter_first_match (contains (lng, lat))
                (@Optimizer.is_target number) features Hex) as [Hex' Hnth'].
    { intros x Hx. rewrite Hi, Hnth in Hx. now injection Hx as <-. }
    unfold Optimizer.optimizedAdmin1, Geo.build_result.
    now rewrite Hex', Hex, Hnth'.
  - intros Hnone dataType. rewrite ScanFacts.scan_result_spec. simpl.
    unfold Optimizer.optimizedAdmin1.
    rewrite filter_no_match; [reflexivity|].
    now apply LookupFacts.existsb_none.
Qed.

End Index.

Lemma includes_app s1 s2 x :
  Api.includes (s1 ++ s2) x = Api.includes s1 x || Api.includes s2 x.
Proof. unfold Api.includes. apply existsb_app. Qed.

Lemma set_add_keeps s x y :
  Api.includes s y = true -> Api.includes (Optimizer.set_add s x) y = true.
Proof.
  intros H. unfold Optimizer.set_add.
  destruct (Api.includes s x); [exact H|].
  rewrite includes_app, H. reflexivity.
Qed.

Lemma set_add_has s x : Api.includes (Optimizer.set_add s x) x = true.
Proof.
  unfold Optimizer.set_add. destruct (Api.includes s x) eqn:H; [exact H|].
  rewrite includes_app. unfold Api.includes at 2. simpl.
  rewrite String.eqb_refl. now rewrite orb_true_r.
Qed.

Lemma needed_fold continents code : forall kept needed,
  Api.includes needed code = true \/
  (exists country continent,
     In country kept /\
     find (Optimizer.lists_country (Api.country_a2 country)) continents
       = Some continent /\
     Api.continent_code continent = code) ->
  Api.includes
    (fold_left
       (fun needed country =>
          match find (Optimizer.lists_country (Api.country_a2 country))
                     continents with
          | Some continent =>
              Optimizer.set_add needed (Api.continent_code continent)
          | None => needed
          end)
       kept needed) code = true.
Proof.
  induction kept as [|country rest IH]; intros needed; simpl.
  - intros [H | (c & k & [] & _)]. exact H.
  - intros [H | (c & k & [<- | Hin] & Hfind & Hcode)].
    + apply IH. left.
      destruct (find _ continents); [now apply set_add_keeps | exact H].
    + apply IH. left. rewrite Hfind, <- Hcode. apply set_add_has.
    + apply IH. right. now exists c, k.
Qed.

(** The optimized tables stay closed under the continent lookup: for every
    country kept by the optimizer, the continent that the full table finds
    for it (the first that lists it) is kept too, and it is still the one
    that the optimized table finds. *)
Theorem optimized_continents_cover countries continents country continent :
  In country (Optimizer.optimizedCountries countries) ->
  find (Optimizer.lists_country (Api.country_a2 country)) continents
    = Some continent ->
  In continent (Optimizer.optimizedContinents continents countries) /\
  find (Optimizer.lists_country (Api.country_a2 country))
       (Optimizer.optimizedContinents continents countries)
    = Some continent.
Proof.
  intros Hkept Hfind.
  assert (Hneeded :
            Api.includes
              (Optimizer.neededContinents continents
                 (Optimizer.optimizedCountries countries))
              (Api.continent_code continent) = true).
  { unfold Optimizer.neededContinents. apply needed_fold. right.
    now exists country, continent. }
  unfold Optimizer.optimizedContinents. split.
  - apply filter_In. split; [|exact Hneeded].
    now apply find_some in Hfind.
  - now apply find_filter.
Qed.

End OptimizerFacts.

(* ===================================================================== *)
(** ** The sample tables meet the assumptions of uniqueness *)
(* ===================================================================== *)

Module SampleTableFacts.

Lemma alpha3_determines c1 c2 :
  In c1 SampleTables.countries -> In c2 SampleTables.countries ->
  Api.country_a3 c1 = Api.country_a3 c2 ->
  Api.country_a2 c1 = Api.country_a2 c2.
Proof.
  simpl. intros [<-|[<-|[<-|[]]]] [<-|[<-|[<-|[]]]]; simpl; intros H;
    try reflexivity; discriminate.
Qed.

Lemma subdivision_identifies (f g : Geo.Feature Z) :
  In f Sample.features -> In g Sample.features ->
  Geo.iso_3166_2 (Geo.properties f) = Geo.iso_3166_2 (Geo.properties g) ->
  f = g.
Proof.
  simpl. intros [<-|[<-|[<-|[]]]] [<-|[<-|[<-|[]]]]; simpl; intros H;
    try reflexivity; discriminate.
Qed.

End SampleTableFacts.

(* ===================================================================== *)
(** ** The further theorems at concrete inputs *)
(* ===================================================================== *)

Module MoreWitnesses.

Local Open Scope string_scope.

Local Abbreviation lookup :=
  (Geo.reverseGeolocation Sample.numberToString Sample.json_truthy
     Sample.pointInRing Sample.features Sample.JSON_stringify).
Local Abbreviation history :=
  (Geo.run_calls Sample.numberToString Sample.json_truthy
     Sample.pointInRing Sample.features Sample.JSON_stringify
     Sample.read_json).
Local Abbreviation read :=
  (Geo.readJSONFile Sample.json_truthy Sample.JSON_stringify).
Local Abbreviation fresh := (LRU.new Sample.Value (Some 1000%Z)).

Lemma set_then_get_witness :
  JsMap.wf (LRU.cache Sample.cache_ab) /\
  LRU.get (LRU.set Sample.text Sample.cache_ab "c" "zz") "c"
  = (Some "zz", LRU.set Sample.text Sample.cache_ab "c" "zz").
Proof.
  assert (Hwf : JsMap.wf (LRU.cache Sample.cache_ab)).
  { unfold JsMap.wf. simpl. repeat constructor; simpl; intuition discriminate. }
  split; [exact Hwf|].
  exact (LRUMore.set_then_get string Sample.text Sample.cache_ab "c" "zz" Hwf).
Defined.

Lemma remove_forgets_witness :
  JsMap.wf (LRU.cache Sample.cache_ab) /\
  JsMap.has (LRU.cache (LRU.remove Sample.cache_ab "a")) "a" = false.
Proof.
  assert (Hwf : JsMap.wf (LRU.cache Sample.cache_ab)).
  { unfold JsMap.wf. simpl. repeat constructor; simpl; intuition discriminate. }
  split; [exact Hwf|].
  exact (proj1 (LRUMore.remove_forgets string Sample.cache_ab "a" Hwf)).
Defined.

Lemma set_keeps_all_when_room_witness :
  (LRUSpec.total_after_replace Sample.cache_ab "c"
     + LRU._getSize Sample.text "z" <= LRU.maxSize Sample.cache_ab)%Z /\
  LRU.cache (LRU.set Sample.text Sample.cache_ab "c" "z")
  = [("a", {| LRU.data := "xx"; LRU.size := 4%Z |});
     ("b", {| LRU.data := "yy"; LRU.size := 4%Z |});
     ("c", {| LRU.data := "z"; LRU.size := 2%Z |})].
Proof.
  assert (Hwf : JsMap.wf (LRU.cache Sample.cache_ab)).
  { unfold JsMap.wf. simpl. repeat constructor; simpl; intuition discriminate. }
  assert (Hroom : (LRUSpec.total_after_replace Sample.cache_ab "c"
                     + LRU._getSize Sample.text "z"
                   <= LRU.maxSize Sample.cache_ab)%Z)
    by (vm_compute; discriminate).
  split; [exact Hroom|].
  exact (f_equal (@LRU.cache string)
           (LRUMore.set_keeps_all_when_room string Sample.text
              Sample.cache_ab "c" "z" Hwf Hroom)).
Defined.

Lemma set_evicts_only_for_room_witness :
  LRUSpec.size_exact Sample.cache_ab /\
  exists dropped kept,
    LRUSpec.without "c" (LRU.cache Sample.cache_ab)
      = (dropped ++ kept)%list /\
    LRU.cache (LRU.set Sample.text Sample.cache_ab "c" "zz")
      = (kept ++ [("c", {| LRU.data := "zz";
                           LRU.size := LRU._getSize Sample.text "zz" |})])%list
    /\
    forall older x younger,
      dropped = (older ++ x :: younger)%list ->
      (LRU.total_size (x :: younger ++ kept)%list
         + LRU._getSize Sample.text "zz"
       > LRU.maxSize Sample.cache_ab)%Z.
Proof.
  assert (Hwf : JsMap.wf (LRU.cache Sample.cache_ab)).
  { unfold JsMap.wf. simpl. repeat constructor; simpl; intuition discriminate. }
  split; [reflexivity|].
  exact (LRUMore.set_evicts_only_for_room string Sample.text Sample.cache_ab
           "c" "zz" Hwf eq_refl).
Defined.

Lemma repeated_lookup_served_from_cache_witness :
  Geo.config_cache (Sample.configured 1000) = Some fresh /\
  Geo.log_of
    (lookup (Geo.world_of (lookup (Sample.configured 1000)
                                  (Geo.JNumber 8%Z) (Geo.JNumber 8%Z) DtNull))
            (Geo.JNumber 8%Z) (Geo.JNumber 8%Z) DtNull)
  = [Geo.CacheGet "8_8_null"].
Proof.
  split; [reflexivity|].
  exact (proj2 (HistoryFacts.repeated_lookup_served_from_cache
                  Z Sample.numberToString Sample.Json Sample.json_truthy
                  Sample.pointInRing Sample.features Sample.JSON_stringify
                  (Sample.configured 1000) fresh 8%Z 8%Z DtNull
                  eq_refl eq_refl)).
Defined.

Lemma stats_consistent_after_history_witness :
  Api.first_cacheSize Sample.calls_warm = Some 1000%Z /\
  exists c,
    Geo.config_cache (history Sample.calls_warm (Geo.initial Z Sample.Json))
      = Some c /\
    NoDup (JsMap.keys (LRU.cache c)) /\
    LRU.currentSize c = LRU.total_size (LRU.cache c).
Proof.
  split; [reflexivity|].
  assert (Hn : (0 <= 1000)%Z) by lia.
  destruct (HistoryFacts.stats_consistent_after_history
              Z Sample.numberToString Sample.Json Sample.json_truthy
              Sample.pointInRing Sample.features Sample.JSON_stringify
              Sample.read_json SampleTables.percent Sample.calls_warm 1000%Z
              eq_refl Hn) as (c & H1 & _ & H3 & _ & H5 & _).
  exists c. split; [exact H1|]. split; [exact H3 | exact H5].
Defined.

Lemma no_cache_until_configured_witness :
  Api.first_cacheSize
    [Geo.CallLookUp (Geo.JNumber 8%Z) (Geo.JNumber 8%Z);
     Geo.CallClearCache;
     Geo.CallConfigure {| Geo.opt_cacheSize := None;
                          Geo.opt_useOptimized := Some false |}] = None /\
  Geo.log_of
    (lookup (history
               [Geo.CallLookUp (Geo.JNumber 8%Z) (Geo.JNumber 8%Z);
                Geo.CallClearCache;
                Geo.CallConfigure {| Geo.opt_cacheSize := None;
                                     Geo.opt_useOptimized := Some false |}]
               (Geo.initial Z Sample.Json))
            (Geo.JNumber 8%Z) (Geo.JNumber 8%Z) DtNull)
  = [Geo.RingTest (Sample.square 0 10); Geo.RingTest (Sample.square 4 6)].
Proof.
  split; [reflexivity|].
  exact (f_equal (@Geo.log_of Z Sample.Json)
           (proj1 (HistoryFacts.no_cache_until_configured
                     Z Sample.numberToString Sample.Json Sample.json_truthy
                     Sample.pointInRing Sample.features Sample.JSON_stringify
                     Sample.read_json
                     [Geo.CallLookUp (Geo.JNumber 8%Z) (Geo.JNumber 8%Z);
                      Geo.CallClearCache;
                      Geo.CallConfigure
                        {| Geo.opt_cacheSize := None;
                           Geo.opt_useOptimized := Some false |}]
                     eq_refl)
                  8%Z 8%Z DtNull)).
Defined.

(** The file of [AA] is read once; the second request is answered although
    every file has gone. *)
Lemma cached_file_not_read_again_witness :
  Geo.truthy Sample.json_truthy
    (Geo.value_of (read Sample.read_json (Sample.configured 1000)
                        "/countries/AA.json")) = true /\
  Geo.value_of
    (read SampleTables.read_nothing
          (Geo.world_of (read Sample.read_json (Sample.configured 1000)
                              "/countries/AA.json"))
          "/countries/AA.json")
  = Geo.VJson "{}".
Proof.
  split; [reflexivity|].
  exact (proj1 (HistoryFacts.cached_file_not_read_again
                  Z Sample.Json Sample.json_truthy Sample.JSON_stringify
                  Sample.read_json (Sample.configured 1000) fresh
                  "/countries/AA.json" SampleTables.read_nothing
                  eq_refl eq_refl)).
Defined.

Lemma failed_read_not_cached_witness :
  Sample.read_json "/countries/ZZ.json" = None /\
  read Sample.read_json (Sample.configured 1000) "/countries/ZZ.json"
  = (Geo.VNull, Sample.configured 1000,
     [Geo.CacheGet "/countries/ZZ.json"]).
Proof.
  split; [reflexivity|].
  apply (HistoryFacts.failed_read_not_cached
           Z Sample.Json Sample.json_truthy Sample.JSON_stringify
           Sample.read_json (Sample.configured 1000) "/countries/ZZ.json"
           eq_refl).
  intros c [= <-]. reflexivity.
Defined.

Lemma clearCache_forces_scan_witness :
  Geo.config_cache (Sample.configured 1000) = Some fresh /\
  Geo.log_of (lookup (Geo.clearCache (Sample.configured 1000))
                     (Geo.JNumber 8%Z) (Geo.JNumber 8%Z) DtNull)
  = [Geo.CacheGet "8_8_null"; Geo.RingTest (Sample.square 0 10);
     Geo.RingTest (Sample.square 4 6); Geo.CacheSet "8_8_null"].
Proof.
  split; [reflexivity|].
  exact (proj1 (proj2 (HistoryFacts.clearCache_forces_scan
                         Z Sample.numberToString Sample.Json
                         Sample.json_truthy Sample.pointInRing Sample.features
                         Sample.JSON_stringify SampleTables.percent
                         (Sample.configured 1000) fresh 8%Z 8%Z DtNull
                         eq_refl))).
Defined.

Lemma alpha_codes_round_trip_witness :
  Api.countryAlpha2ToAlpha3 SampleTables.countries "US" = Some "USA" /\
  Api.countryAlpha3ToAlpha2 SampleTables.countries "USA" = Some "US".
Proof.
  split; [reflexivity|].
  exact (proj1 (TableFacts.alpha_codes_round_trip SampleTables.countries
                  "US" "USA" SampleTableFacts.alpha3_determines eq_refl)).
Defined.

Lemma state_of_lookup_contains_point_witness :
  JsMap.get (Geo.derive_properties (Geo.properties Sample.feature_AA))
            "state_code" = Some "AA-01" /\
  exists sf,
    Api.getStateGeoJSONByCode Sample.features "AA-01" = Some sf /\
    Geo.containsPoint Sample.pointInRing (Api.sf_geometry sf) (8, 8)%Z = true.
Proof.
  split; [reflexivity|].
  destruct (TableFacts.state_of_lookup_contains_point
              Z Sample.Json Sample.pointInRing Sample.features 8%Z 8%Z
              (Geo.derive_properties (Geo.properties Sample.feature_AA))
              "AA-01" SampleTableFacts.subdivision_identifies
              eq_refl eq_refl) as (sf & H1 & H2 & _).
  exists sf. split; [exact H1 | exact H2].
Defined.

(** The point (12, 12) is in the Kansas square only; the optimizer keeps
    that feature and drops the French one before it. *)
Lemma optimized_index_same_result_witness :
  Optimizer.is_target SampleTables.feature_KS = true /\
  fst (Geo.scan_result Sample.Json Sample.pointInRing
         (Optimizer.optimizedAdmin1 SampleTables.features) 12%Z 12%Z DtNull)
  = fst (Geo.scan_result Sample.Json Sample.pointInRing
           SampleTables.features 12%Z 12%Z DtNull).
Proof.
  split; [reflexivity|].
  exact (proj1 (OptimizerFacts.optimized_index_same_result
                  Z Sample.Json Sample.pointInRing SampleTables.features
                  12%Z 12%Z)
               1%nat SampleTables.feature_KS eq_refl eq_refl eq_refl DtNull).
Defined.

Lemma optimized_continents_cover_witness :
  In (Api.mkCountry "US" "USA" "United States")
     (Optimizer.optimizedCountries SampleTables.countries) /\
  In (Api.mkContinent "NA" "North America" (Some ["US"; "CA"]))
     (Optimizer.optimizedContinents SampleTables.continents
                                    SampleTables.countries).
Proof.
  assert (Hkept : In (Api.mkCountry "US" "USA" "United States")
                     (Optimizer.optimizedCountries SampleTables.countries))
    by (simpl; left; reflexivity).
  split; [exact Hkept|].
  exact (proj1 (OptimizerFacts.optimized_continents_cover
                  SampleTables.countries SampleTables.continents
                  (Api.mkCountry "US" "USA" "United States")
                  (Api.mkContinent "NA" "North America" (Some ["US"; "CA"]))
                  Hkept eq_refl)).
Defined.

End MoreWitnesses.

(* ===================================================================== *)
(** ** What a scan can match *)
(* ===================================================================== *)

Module ScanMore.
Section WithIndex.
Variable number : Type.
Variable pointInPolygon : Geo.Ring number -> Geo.Point number -> bool.
Variable features : list (Geo.Feature number).

(** Only polygons match: the feature a scan stops at has a [Polygon]
    geometry whose rings pass the containment rule, or a [MultiPolygon]
    geometry with a sub-polygon that passes it; a feature of another
    geometry type, or a multipolygon without sub-polygons, is never the
    result. *)
Theorem only_polygons_match point i f :
  fst (Geo.features_loop pointInPolygon features point 0 false) = (i, true) ->
  nth_error features i = Some f ->
  (exists coords,
     Geo.geometry f = Geo.Polygon coords /\
     Geo.containsPoint_polygon pointInPolygon coords point = true) \/
  (exists polys coords,
     Geo.geometry f = Geo.MultiPolygon polys /\ In coords polys /\
     Geo.containsPoint_polygon pointInPolygon coords point = true).
Proof.
  rewrite ScanFacts.features_loop_spec. simpl. intros [= Hi Hex] Hnth.
  destruct (ScanFacts.leading_misses_hit _ _ Hex) as [f' [Hnth' Hf]].
  rewrite Hi, Hnth in Hnth'. injection Hnth' as <-.
  destruct (Geo.geometry f) as [coords|polys|ty] eqn:G; simpl in Hf.
  - left. now exists coords.
  - right. apply existsb_exists in Hf as [coords [Hin Hc]].
    now exists polys, coords.
  - discriminate.
Qed.

End WithIndex.
End ScanMore.

Module ScanWitnesses.

Lemma only_polygons_match_witness :
  fst (Geo.features_loop Sample.pointInRing Sample.features (21, 21)%Z 0 false)
    = (2, true) /\
  ((exists coords,
      Geo.geometry Sample.feature_CC = Geo.Polygon coords /\
      Geo.containsPoint_polygon Sample.pointInRing coords (21, 21)%Z = true) \/
   (exists polys coords,
      Geo.geometry Sample.feature_CC = Geo.MultiPolygon polys /\
      In coords polys /\
      Geo.containsPoint_polygon Sample.pointInRing coords (21, 21)%Z = true)).
Proof.
  split; [reflexivity|].
  exact (ScanMore.only_polygons_match Z Sample.pointInRing Sample.features
           (21, 21)%Z 2 Sample.feature_CC eq_refl eq_refl).
Defined.

Lemma falsy_file_never_served_witness :
  Geo.config_cache (Sample.configured 1000)
    = Some (LRU.new Sample.Value (Some 1000%Z)) /\
  Geo.log_of
    (Geo.readJSONFile (fun _ : Sample.Json => false) Sample.JSON_stringify
       Sample.read_json
       (Geo.world_of
          (Geo.readJSONFile (fun _ : Sample.Json => false)
             Sample.JSON_stringify Sample.read_json (Sample.configured 1000)
             "/countries/AA.json"))
       "/countries/AA.json")
  = [Geo.CacheGet "/countries/AA.json"; Geo.CacheSet "/countries/AA.json"].
Proof.
  split; [reflexivity|].
  exact (f_equal (@Geo.log_of Z Sample.Json)
           (proj1 (HistoryFacts.falsy_file_never_served
                     Z Sample.Json (fun _ => false) Sample.JSON_stringify
                     Sample.read_json (Sample.configured 1000)
                     (LRU.new Sample.Value (Some 1000%Z))
                     "/countries/AA.json" "{}"%string
                     eq_refl eq_refl eq_refl eq_refl))).
Defined.

End ScanWitnesses.

(* ===================================================================== *)
(** ** Invalid coordinates of every kind *)
(* ===================================================================== *)

Module EntryFacts.
Section WithIndex.
Variable number : Type.
Variable numberToString : number -> string.
Variable Json : Type.
Variable json_truthy : Json -> bool.
Variable pointInPolygon : Geo.Ring number -> Geo.Point number -> bool.
Variable admin1_features : list (Geo.Feature number).
Variable JSON_stringify : Geo.Value number Json -> string.

Local Abbreviation entry :=
  (@Entry.reverseGeolocation number numberToString Json json_truthy
     pointInPolygon admin1_features JSON_stringify).
Local Abbreviation reverseGeolocation :=
  (@Geo.reverseGeolocation number numberToString Json json_truthy
     pointInPolygon admin1_features JSON_stringify).

(** On arguments whose conversion succeeds the call returns, and what it
    returns is what [Geo.reverseGeolocation] computes. *)
Lemma entry_on_convertible w lat lng dataType :
  entry w (Entry.Convertible lat) (Entry.Convertible lng) dataType
  = Entry.Returned (reverseGeolocation w lat lng dataType).
Proof.
  unfold Entry.reverseGeolocation, Geo.reverseGeolocation.
  destruct lat, lng; reflexivity.
Qed.

(** C3: when [lat] or [lng] is not of type number, nothing is read from
    the cache and nothing is scanned, but the call does not always return:
    it returns the [Error] value, with the text of both arguments in its
    message and the state untouched, exactly when both arguments convert to
    a string; when the conversion of either throws (a symbol, an object
    whose [toString] throws), the call throws. *)
Theorem non_numeric_outcome w lat lng dataType :
  Entry.typeof_number lat = false \/ Entry.typeof_number lng = false ->
  match Entry.ToString numberToString lat,
        Entry.ToString numberToString lng with
  | Some lat_text, Some lng_text =>
      entry w lat lng dataType
      = Entry.Returned
          (Geo.VError ("Wrong coordinates (lat: " ++ lat_text
                         ++ ",lng: " ++ lng_text ++ ")")%string,
           w, [])
  | _, _ => entry w lat lng dataType = Entry.Thrown
  end.
Proof.
  intros Hbad. unfold Entry.reverseGeolocation.
  destruct lat as [[| |?|lat'|?|?]| |]; simpl;
    destruct lng as [[| |?|lng'|?|?]| |]; simpl; try reflexivity;
    simpl in Hbad; destruct Hbad; discriminate.
Qed.

End WithIndex.
End EntryFacts.

Module EntryWitnesses.

(** [lookUp(Symbol(), 10)] against the sample index throws. *)
Lemma non_numeric_outcome_witness :
  (Entry.typeof_number (Entry.SymbolValue (number := Z)) = false \/
   Entry.typeof_number (Entry.Convertible (Geo.JNumber 10%Z)) = false) /\
  Entry.lookUp Sample.numberToString Sample.json_truthy Sample.pointInRing
    Sample.features Sample.JSON_stringify (Sample.configured 1000)
    Entry.SymbolValue (Entry.Convertible (Geo.JNumber 10%Z))
  = Entry.Thrown.
Proof.
  split; [left; reflexivity|].
  exact (EntryFacts.non_numeric_outcome Z Sample.numberToString Sample.Json
           Sample.json_truthy Sample.pointInRing Sample.features
           Sample.JSON_stringify (Sample.configured 1000)
           Entry.SymbolValue (Entry.Convertible (Geo.JNumber 10%Z)) DtNull
           (or_introl eq_refl)).
Defined.

End EntryWitnesses.
